(** * Snap2Style backend: the credit / quota ledger of [main.py]

    A shallow embedding of the entitlement logic of
    [snap2style-backend/main.py]: the four tables ([users],
    [email_tokens], [guests], [generation_logs]), the upload directory,
    the helpers [get_or_create_guest], [log_generation_db],
    [count_last_24h], [next_available_ts] and the routes that read or
    write a balance.

    Conventions.
    - A naive [datetime] is a [Z] counting the microseconds of its
      calendar fields since 1970-01-01 00:00:00 (the resolution of
      Python's [datetime]); [timedelta(hours=24)] is [timedelta_hours 24].
      [datetime.utcnow()] returns such a value, read off the UTC clock.
    - [.timestamp()] of a naive datetime reads its fields as local time of
      the server and returns a [float]: see [timestamp]. The local zone is
      an input of the requests that call it.
    - A [str] is modelled by its UTF-8 encoding.
    - Every value the code draws from outside the database (clock reads,
      [uuid4], [secrets], the verdict of the JWT / Google / bcrypt
      libraries, the bytes returned by the image provider) is an argument
      of the route.
    - SMTP mail and the CSV analytics files are write-only side channels
      that no route reads back; they are left out. *)

From Stdlib Require Import ZArith String Ascii List Lia.
From Stdlib.Floats Require Import PrimFloat FloatOps SpecFloat.
From Stdlib.Numbers.Cyclic.Int63 Require Import Uint63.
From Stdlib.Strings Require Import Byte.
From stdpp Require Import base option list gmap strings sorting pretty.

Local Open Scope string_scope.
Local Open Scope Z_scope.

(** ** Constants *)

Definition DAILY_FREE_LIMIT : Z := 2.
Definition GUEST_COOKIE : string := "s2s_guest".

Definition usec_per_sec : Z := 1000000.
Definition timedelta_hours (h : Z) : Z := h * 3600 * usec_per_sec.
Definition timedelta_minutes (m : Z) : Z := m * 60 * usec_per_sec.

(** ** Python floats

    A [float] is an IEEE 754 double. The doubles the routes compute are
    whole numbers of seconds, a microsecond count divided by [1e6], and
    sums and differences of these: every exact result met is a multiple
    of [2^-72] or at least [2^-20] in magnitude. A double [x] is
    represented by the integer [x * 2^72] ([float_unit] stands for 1.0),
    and an operation rounds its exact result to the nearest double
    (53-bit significand, ties to even). *)

Definition float_unit : Z := Eval vm_compute in 2 ^ 72.

(** [n / d] rounded to the nearest integer, ties to even ([0 < d]). *)
Definition rne_div (n d : Z) : Z :=
  let q := n `div` d in
  match 2 * (n `mod` d) ?= d with
  | Lt => q
  | Gt => q + 1
  | Eq => if Z.even q then q else q + 1
  end.

(** The spacing of the doubles around [n / d] (in units of [2^-72]). *)
Definition ulp_of (n d : Z) : Z := 2 ^ Z.max 0 (Z.log2 (n `div` d) - 52).

Definition round_pos (n d : Z) : Z :=
  let G := ulp_of n d in G * rne_div n (d * G).

(** The double nearest to the rational [n / d] (in units, [0 < d]). *)
Definition round_ratio (n d : Z) : Z :=
  if 0 <=? n then round_pos n d else - round_pos (- n) d.

Definition float_of_int (k : Z) : Z := round_ratio (k * float_unit) 1.
Definition float_add (x y : Z) : Z := round_ratio (x + y) 1.
Definition float_sub (x y : Z) : Z := round_ratio (x - y) 1.
(** [x / y] for a positive divisor. *)
Definition float_div (x y : Z) : Z := round_ratio (x * float_unit) y.
(** [int(x)] *)
Definition float_trunc (x : Z) : Z := Z.quot x float_unit.

(** [dt.timestamp()] of a naive datetime [dt]:
    [local_to_seconds(...) - epoch + dt.microsecond / 1e6], where
    [local_to_seconds] maps the calendar second of [dt], read as local
    time of the server, to its POSIX time. *)
Definition timestamp (local_to_seconds : Z → Z) (dt : Z) : Z :=
  float_add (float_of_int (local_to_seconds (dt `div` usec_per_sec)))
            (float_div (float_of_int (dt `mod` usec_per_sec)) (float_of_int 1000000)).

(** The same timestamp computed with the binary64 arithmetic of the
    kernel, and the value of a binary64 number that is a multiple of
    [2^-72] in units of [2^-72], to compare the rounding above with. *)
Definition binary64_units (f : float) : Z :=
  match Prim2SF f with
  | S754_finite sign m e => (if sign then -1 else 1) * (Z.pos m * 2 ^ (e + 72))
  | _ => 0
  end.

Definition binary64_timestamp (local_to_seconds : Z → Z) (dt : Z) : float :=
  (of_uint63 (Uint63.of_Z (local_to_seconds (dt `div` usec_per_sec)))
   + of_uint63 (Uint63.of_Z (dt `mod` usec_per_sec))
     / of_uint63 (Uint63.of_Z 1000000))%float.

(** ** Python string helpers *)

(** [str.lower], on the letters A..Z; the bytes of other code points are
    left as they are. *)
Definition lower_ascii (c : ascii) : ascii :=
  let n := N_of_ascii c in
  if ((65 <=? n) && (n <=? 90))%N then ascii_of_N (n + 32) else c.

Fixpoint lower (s : string) : string :=
  match s with
  | EmptyString => EmptyString
  | String c r => String (lower_ascii c) (lower r)
  end.

Fixpoint replace_char (a b : ascii) (s : string) : string :=
  match s with
  | EmptyString => EmptyString
  | String c r => String (if Ascii.eqb c a then b else c) (replace_char a b r)
  end.

(** A Python [str] is modelled by its UTF-8 encoding, one [ascii] per
    byte. [str.strip] removes the code points for which [str.isspace]
    holds: U+0009..000D, U+001C..001F and U+0020 (one byte each), U+0085
    and U+00A0 (two bytes), U+1680, U+2000..200A, U+2028, U+2029, U+202F,
    U+205F and U+3000 (three bytes). *)
Definition byte_is (k : N) (c : ascii) : bool := (N_of_ascii c =? k)%N.

Definition is_space (c : ascii) : bool :=
  let n := N_of_ascii c in
  ((n =? 32) || ((9 <=? n) && (n <=? 13)) || ((28 <=? n) && (n <=? 31)))%N.

Definition is_space2 (c1 c2 : ascii) : bool :=
  byte_is 194 c1 && (byte_is 133 c2 || byte_is 160 c2).

Definition is_space3 (c1 c2 c3 : ascii) : bool :=
  (byte_is 225 c1 && byte_is 154 c2 && byte_is 128 c3)
  || (byte_is 226 c1 && byte_is 128 c2
      && (((128 <=? N_of_ascii c3) && (N_of_ascii c3 <=? 138))%N
          || byte_is 168 c3 || byte_is 169 c3 || byte_is 175 c3))
  || (byte_is 226 c1 && byte_is 129 c2 && byte_is 159 c3)
  || (byte_is 227 c1 && byte_is 128 c2 && byte_is 128 c3).

(** The string is the encoding of exactly one blank. *)
Definition space_char (s : string) : bool :=
  match s with
  | String c1 EmptyString => is_space c1
  | String c1 (String c2 EmptyString) => is_space2 c1 c2
  | String c1 (String c2 (String c3 EmptyString)) => is_space3 c1 c2 c3
  | _ => false
  end.

(** The string starts with the encoding of a blank. *)
Definition starts_blank (s : string) : bool :=
  match s with
  | String c1 r1 =>
      is_space c1 ||
      match r1 with
      | String c2 r2 =>
          is_space2 c1 c2 ||
          match r2 with String c3 _ => is_space3 c1 c2 c3 | EmptyString => false end
      | EmptyString => false
      end
  | EmptyString => false
  end.

Fixpoint lstrip (s : string) : string :=
  match s with
  | String c1 r1 =>
      if is_space c1 then lstrip r1
      else
        match r1 with
        | String c2 r2 =>
            if is_space2 c1 c2 then lstrip r2
            else
              match r2 with
              | String c3 r3 => if is_space3 c1 c2 c3 then lstrip r3 else s
              | EmptyString => s
              end
        | EmptyString => s
        end
  | EmptyString => EmptyString
  end.

Fixpoint rstrip (s : string) : string :=
  match s with
  | EmptyString => EmptyString
  | String c r =>
      let r' := rstrip r in
      if space_char (String c r') then EmptyString else String c r'
  end.

Definition strip (s : string) : string := lstrip (rstrip s).

Fixpoint rstrip_slash (s : string) : string :=
  match s with
  | EmptyString => EmptyString
  | String c r =>
      match rstrip_slash r with
      | EmptyString => if Ascii.eqb c "/" then EmptyString else String c EmptyString
      | r' => String c r'
      end
  end.

Definition is_digit (c : ascii) : bool :=
  let n := N_of_ascii c in ((48 <=? n) && (n <=? 57))%N.

Fixpoint all_digits (s : string) : bool :=
  match s with
  | EmptyString => true
  | String c r => is_digit c && all_digits r
  end.

(** [len(s)]: the number of code points, that is of bytes that do not
    continue a UTF-8 sequence. *)
Definition is_continuation (c : ascii) : bool :=
  let n := N_of_ascii c in ((128 <=? n) && (n <=? 191))%N.

Fixpoint py_len (s : string) : nat :=
  match s with
  | EmptyString => O
  | String c r => if is_continuation c then py_len r else S (py_len r)
  end.

(** [s.isdigit()], for the ASCII digits: false on the empty string. *)
Definition isdigit (s : string) : bool :=
  match s with EmptyString => false | _ => all_digits s end.

(** Truthiness of a Python [str] and of an [Optional[str]]. *)
Definition nonempty (s : string) : bool :=
  match s with EmptyString => false | _ => true end.

Definition abs_url (base path : string) : string := rstrip_slash base ++ path.

(** ** MODELS *)

Record User := mkUser {
  email : string;
  password_hash : string;
  is_verified : bool;
  free_credits : Z;
  verify_bonus_claimed : bool;
  u_created_at : Z;
  last_login_at : option Z
}.

Record EmailToken := mkEmailToken {
  tok_id : Z;
  tok_user_id : Z;
  token : string;
  purpose : string;
  expires_at : Z
}.

Record Guest := mkGuest {
  credits : Z;
  g_created_at : Z;
  last_seen : Z
}.

Record GenerationLog := mkGenerationLog {
  log_id : Z;
  user_id : option Z;
  guest_id : option string;
  created_at : Z
}.

Global Instance User_eq_dec : EqDecision User.
Proof. solve_decision. Defined.
Global Instance EmailToken_eq_dec : EqDecision EmailToken.
Proof. solve_decision. Defined.
Global Instance Guest_eq_dec : EqDecision Guest.
Proof. solve_decision. Defined.
Global Instance GenerationLog_eq_dec : EqDecision GenerationLog.
Proof. solve_decision. Defined.

(** The SQLite database (rows of [users] and [guests] keyed by their
    primary key, [email_tokens] and [generation_logs] in insertion order)
    and the [uploads/] directory. *)
Record State := mkState {
  users : gmap Z User;
  email_tokens : list EmailToken;
  guests : gmap string Guest;
  generation_logs : list GenerationLog;
  uploads : gmap string (list byte)
}.

Definition empty_state : State := mkState ∅ [] ∅ [] ∅.

Definition set_users (m : gmap Z User) (s : State) : State :=
  mkState m (email_tokens s) (guests s) (generation_logs s) (uploads s).
Definition set_email_tokens (l : list EmailToken) (s : State) : State :=
  mkState (users s) l (guests s) (generation_logs s) (uploads s).
Definition set_guests (m : gmap string Guest) (s : State) : State :=
  mkState (users s) (email_tokens s) m (generation_logs s) (uploads s).
Definition set_generation_logs (l : list GenerationLog) (s : State) : State :=
  mkState (users s) (email_tokens s) (guests s) l (uploads s).
Definition set_uploads (m : gmap string (list byte)) (s : State) : State :=
  mkState (users s) (email_tokens s) (guests s) (generation_logs s) m.

Definition with_free_credits (c : Z) (u : User) : User :=
  mkUser (email u) (password_hash u) (is_verified u) c
         (verify_bonus_claimed u) (u_created_at u) (last_login_at u).
Definition with_last_login (t : Z) (u : User) : User :=
  mkUser (email u) (password_hash u) (is_verified u) (free_credits u)
         (verify_bonus_claimed u) (u_created_at u) (Some t).
Definition with_credits (c : Z) (g : Guest) : Guest :=
  mkGuest c (g_created_at g) (last_seen g).
Definition with_last_seen (t : Z) (g : Guest) : Guest :=
  mkGuest (credits g) (g_created_at g) t.

(** ** AUTH HELPERS *)

(** [get_current_user]: [sub] is what [parse_jwt] returns for the auth
    cookie ([None] when the cookie is missing or the token is rejected). *)
Definition get_current_user (sub : option Z) (s : State) : option (Z * User) :=
  match sub with
  | None => None
  | Some uid => if uid =? 0 then None else (λ u, (uid, u)) <$> users s !! uid
  end.

(** ** GUEST & LIMIT HELPERS *)

(** The guest id of a request: the [s2s_guest] cookie, or the draw of
    [uuid4().hex] when the cookie is missing or empty. *)
Definition resolve_gid (cookie : option string) (uuid : string) : string :=
  match cookie with
  | Some c => if nonempty c then c else uuid
  | None => uuid
  end.

Definition get_or_create_guest (now : Z) (cookie : option string) (uuid : string)
    (s : State) : State * (string * Guest) :=
  let gid := resolve_gid cookie uuid in
  match guests s !! gid with
  | None =>
      let g := mkGuest 2 now now in
      (set_guests (<[gid := g]> (guests s)) s, (gid, g))
  | Some g =>
      let g' := with_last_seen now g in
      (set_guests (<[gid := g']> (guests s)) s, (gid, g'))
  end.

(** The rowid SQLite gives the next row of [generation_logs]. *)
Definition next_log_id (l : list GenerationLog) : Z :=
  1 + foldr (λ r acc, Z.max (log_id r) acc) 0 l.

Definition log_generation_db (now : Z) (uid : option Z) (gid : option string)
    (s : State) : State :=
  let row := mkGenerationLog (next_log_id (generation_logs s)) uid gid now in
  set_generation_logs (generation_logs s ++ [row]) s.

Definition since_24h (now : Z) : Z := now - timedelta_hours 24.

Definition count_last_24h (now : Z) (uid : option Z) (gid : option string)
    (s : State) : Z :=
  let since := since_24h now in
  let rows := filter (λ r, since ≤ created_at r) (generation_logs s) in
  let rows :=
    match uid with
    | Some u => if u =? 0 then rows else filter (λ r, user_id r = Some u) rows
    | None => rows
    end in
  let rows :=
    match gid with
    | Some g => if nonempty g then filter (λ r, guest_id r = Some g) rows else rows
    | None => rows
    end in
  Z.of_nat (length rows).

(** [ORDER BY created_at DESC] *)
Definition newer_first (a b : GenerationLog) : Prop := created_at b ≤ created_at a.

Global Instance newer_first_dec a b : Decision (newer_first a b).
Proof. unfold newer_first. apply _. Defined.

Global Instance newer_first_total : Total newer_first.
Proof. intros a b. unfold newer_first. lia. Qed.

Global Instance newer_first_trans : Transitive newer_first.
Proof. intros a b c. unfold newer_first. lia. Qed.

Definition window_logs (now : Z) (uid : Z) (s : State) : list GenerationLog :=
  merge_sort newer_first
    (filter (λ r, user_id r = Some uid ∧ since_24h now ≤ created_at r)
            (generation_logs s)).

(** The result is a [float]: the [.timestamp()] of a naive datetime. *)
Definition next_available_ts (local_to_seconds : Z → Z) (now : Z) (uid : Z)
    (s : State) : option Z :=
  let logs := window_logs now uid s in
  if Z.of_nat (length logs) <? DAILY_FREE_LIMIT then None
  else
    match logs !! Z.to_nat (DAILY_FREE_LIMIT - 1) with
    | Some kth =>
        Some (timestamp local_to_seconds (created_at kth + timedelta_hours 24))
    | None => None
    end.

(** ** STYLE IMAGE (credits + daily limit) *)

(** Who a permitted request is accounted to: the pair
    [who_kind, who_id] of the route ([("user", str(u.id))] or
    [("guest", g.id)]). *)
Inductive Identity :=
| WhoUser (uid : Z)
| WhoGuest (gid : string).

(** The branch of the enforcement block that let the request through. *)
Inductive Bucket := Prepaid | DailyQuota | GuestCredit.

Inductive Verdict :=
| Allowed (bucket : Bucket) (who : Identity)
| DailyLimitReached (used_last_24h daily_limit retry_after_seconds : Z)
| GuestCreditsExhausted (cta : string)
| Crash.

(** Clock reads and other draws of one [/style-image] request, in the
    order the route makes them, and the local zone of the server as
    [.timestamp()] reads it. *)
Record StyleEnv := mkStyleEnv {
  e_time_upload : Z;
  e_uuid : string;
  e_now_seen : Z;
  e_now_count : Z;
  e_now_next : Z;
  e_now_wait : Z;
  e_provider : string + list byte;
  e_time_styled : Z;
  e_now_log : Z;
  e_local_to_seconds : Z → Z
}.

(** [int(max(0, ts - now_ts)) if ts else 3600], on two floats. *)
Definition retry_after (ts : option Z) (now_ts : Z) : Z :=
  match ts with
  | Some t =>
      if t =? 0 then 3600 else float_trunc (Z.max 0 (float_sub t now_ts))
  | None => 3600
  end.

(** The block between [ENFORCE CREDITS] and [END ENFORCEMENT]. *)
Definition enforce_credits (env : StyleEnv) (user : option (Z * User))
    (cookie : option string) (s : State) : State * Verdict :=
  match user with
  | Some (uid, _) =>
      match users s !! uid with
      | None => (s, Crash)
      | Some u =>
          if is_verified u && (0 <? free_credits u) then
            (set_users (<[uid := with_free_credits (free_credits u - 1) u]> (users s)) s,
             Allowed Prepaid (WhoUser uid))
          else
            let used24 := count_last_24h (e_now_count env) (Some uid) None s in
            if DAILY_FREE_LIMIT <=? used24 then
              let ts := next_available_ts (e_local_to_seconds env)
                          (e_now_next env) uid s in
              (s, DailyLimitReached used24 DAILY_FREE_LIMIT
                    (retry_after ts
                       (timestamp (e_local_to_seconds env) (e_now_wait env))))
            else (s, Allowed DailyQuota (WhoUser uid))
      end
  | None =>
      let '(s1, (gid, _)) :=
        get_or_create_guest (e_now_seen env) cookie (e_uuid env) s in
      match guests s1 !! gid with
      | None => (s1, Crash)
      | Some gg =>
          if credits gg <=? 0 then (s1, GuestCreditsExhausted "register")
          else
            (set_guests (<[gid := with_credits (credits gg - 1) gg]> (guests s1)) s1,
             Allowed GuestCredit (WhoGuest gid))
      end
  end.

Record StyleRequest := mkStyleRequest {
  auth_sub : option Z;
  guest_cookie : option string;
  content_type : option string;
  filename : string;
  contents : list byte;
  style : string;
  instructions : string;
  base_url : string
}.

Record Payload := mkPayload {
  styledUrls : list string;
  p_filename : string;
  predictionId : string;
  p_style : string;
  note : option string
}.

Inductive StyleResponse :=
| Json200 (payload : Payload)
| Json400 (error : string)
| Json402 (cta : string)
| Json429 (used_last_24h daily_limit retry_after_seconds : Z)
| Http500.

Definition style_or_custom (st : string) : string :=
  if nonempty st then st else "custom".

(** The [GENERATION] block; [None] is the [Unknown AI provider] exit. *)
Definition generate (AI_PROVIDER : string) (env : StyleEnv) (req : StyleRequest)
    (safe_name : string) (s : State) : State * option Payload :=
  let base := rstrip_slash (base_url req) in
  if String.eqb AI_PROVIDER "mock" then
    (s, Some (mkPayload [abs_url base ("/uploads/" ++ safe_name)] safe_name "mock"
                (style_or_custom (style req))
                (Some "Mock mode: set AI_PROVIDER=stability to enable real styling.")))
  else if String.eqb AI_PROVIDER "stability" then
    match e_provider env with
    | inr png =>
        let out_name := pretty (e_time_styled env) ++ "_styled.png" in
        (set_uploads (<[out_name := png]> (uploads s)) s,
         Some (mkPayload [abs_url base ("/uploads/" ++ out_name)] out_name "stability"
                 (style_or_custom (style req)) None))
    | inl e =>
        (s, Some (mkPayload [abs_url base ("/uploads/" ++ safe_name)] safe_name
                    "error_fallback" (style_or_custom (style req))
                    (Some ("Generation error: " ++ e))))
    end
  else (s, None).

Definition log_identity (now : Z) (who : Identity) (s : State) : State :=
  match who with
  | WhoUser uid => log_generation_db now (Some uid) None s
  | WhoGuest gid => log_generation_db now None (Some gid) s
  end.

Definition max_upload_bytes : Z := 8 * 1024 * 1024.

Definition safe_name_of (env : StyleEnv) (req : StyleRequest) : string :=
  pretty (e_time_upload env) ++ "_" ++ replace_char " " "_" (filename req).

Fixpoint has_char (a : ascii) (s : string) : bool :=
  match s with
  | EmptyString => false
  | String c r => Ascii.eqb c a || has_char a r
  end.

Definition NAME_MAX : Z := 255.

(** [(UPLOAD_DIR / name).write_bytes(...)] succeeds: [uploads/] holds
    files only, so a name with a [/] points into a directory that does not
    exist, a NUL is refused by [open], and so is a name longer than
    [NAME_MAX] bytes. *)
Definition writable_name (name : string) : bool :=
  negb (has_char "/" name) && negb (has_char "000" name)
  && (Z.of_nat (String.length name) <=? NAME_MAX).

Definition style_image (AI_PROVIDER : string) (env : StyleEnv) (req : StyleRequest)
    (s : State) : State * StyleResponse :=
  let user := get_current_user (auth_sub req) s in
  let ctype := lower (default "" (content_type req)) in
  if negb (String.prefix "image/" ctype) then (s, Json400 "Invalid file type")
  else if max_upload_bytes <? Z.of_nat (length (contents req)) then
    (s, Json400 "File too large")
  else
    let safe_name := safe_name_of env req in
    if negb (writable_name safe_name) then (s, Http500)
    else
    let s := set_uploads (<[safe_name := contents req]> (uploads s)) s in
    match enforce_credits env user (guest_cookie req) s with
    | (s, Crash) => (s, Http500)
    | (s, DailyLimitReached used lim wait) => (s, Json429 used lim wait)
    | (s, GuestCreditsExhausted cta) => (s, Json402 cta)
    | (s, Allowed _ who) =>
        match generate AI_PROVIDER env req safe_name s with
        | (s, None) => (s, Json400 "Unknown AI provider")
        | (s, Some payload) => (log_identity (e_now_log env) who s, Json200 payload)
        end
    end.

(** ** AUTH ROUTES (link + OTP) *)

(** [Redirect path] is the redirect to [FRONTEND_BASE_URL] followed by
    [path]; [Fault] is an uncaught exception (a 500). *)
Inductive Reply :=
| Ok (message : string)
| Redirect (path : string)
| Error (status : Z) (error : string)
| Fault.

Definition next_token_id (l : list EmailToken) : Z :=
  1 + foldr (λ t acc, Z.max (tok_id t) acc) 0 l.

Definition next_user_id (m : gmap Z User) : Z :=
  1 + map_fold (λ k _ acc, Z.max k acc) 0 m.

(** [db.scalar(select(User).where(User.email == e))] *)
Definition user_by_email (e : string) (s : State) : option (Z * User) :=
  snd <$> list_find (λ kv, email kv.2 = e) (map_to_list (users s)).

Definition token_taken (tok : string) (l : list EmailToken) : bool :=
  existsb (λ t, String.eqb (token t) tok) l.

(** [new_email_token]; [None] is the IntegrityError of the UNIQUE
    [token] column. [tok] is the draw of [secrets.token_urlsafe]. *)
Definition new_email_token (now : Z) (tok : string) (uid : Z) (purp : string)
    (minutes : Z) (s : State) : option State :=
  if token_taken tok (email_tokens s) then None
  else
    let row := mkEmailToken (next_token_id (email_tokens s)) uid tok purp
                 (now + timedelta_minutes minutes) in
    Some (set_email_tokens (email_tokens s ++ [row]) s).

(** [generate_otp_for_user]; [code] is the six-digit draw. The session
    flushes the INSERT before the DELETEs, so the UNIQUE [token] column
    is checked, and the row id chosen, against the table that still holds
    the old codes of the user. *)
Definition generate_otp_for_user (now : Z) (code : string) (uid : Z)
    (minutes : Z) (s : State) : option State :=
  let kept :=
    filter (λ t, ¬ (tok_user_id t = uid ∧ purpose t = "otp")) (email_tokens s) in
  if token_taken code (email_tokens s) then None
  else
    let row := mkEmailToken (next_token_id (email_tokens s)) uid code "otp"
                 (now + timedelta_minutes minutes) in
    Some (set_email_tokens (kept ++ [row]) s).

Definition delete_token (t : EmailToken) (s : State) : State :=
  set_email_tokens (filter (λ t', tok_id t' ≠ tok_id t) (email_tokens s)) s.

(** The four assignments shared by [verify_email] and [verify_otp]:
    [is_verified = True], and the +2 bonus unless already claimed. *)
Definition verify_and_claim (u : User) : User :=
  if verify_bonus_claimed u then
    mkUser (email u) (password_hash u) true (free_credits u) true
           (u_created_at u) (last_login_at u)
  else
    mkUser (email u) (password_hash u) true (free_credits u + 2) true
           (u_created_at u) (last_login_at u).

(** [reg_email_valid]: [EmailStr] accepts the stripped, lower-cased
    address; the address it returns is taken to be that same string. *)
Record RegisterReq := mkRegisterReq {
  reg_email : option string;
  reg_password : option string;
  reg_email_valid : bool
}.

Record RegisterEnv := mkRegisterEnv {
  reg_now : Z;
  reg_hash : string;
  reg_token : string;
  reg_otp : string
}.

Definition register (env : RegisterEnv) (req : RegisterReq) (s : State)
    : State * Reply :=
  let e := lower (strip (default "" (reg_email req))) in
  let pw := default "" (reg_password req) in
  let n := Z.of_nat (py_len pw) in
  if negb (reg_email_valid req && (6 <=? n) && (n <=? 128)) then
    (s, Error 400 "Invalid request body")
  else
    match user_by_email e s with
    | Some _ => (s, Error 409 "Email already registered")
    | None =>
        let uid := next_user_id (users s) in
        let user := mkUser e (reg_hash env) false 0 false (reg_now env) None in
        let s := set_users (<[uid := user]> (users s)) s in
        match new_email_token (reg_now env) (reg_token env) uid "verify" (60*24*3) s with
        | None => (s, Fault)
        | Some s =>
            let s := default s (generate_otp_for_user (reg_now env) (reg_otp env) uid 15 s) in
            (s, Ok "Registered. Check your inbox for the verification link or OTP code.")
        end
    end.

Definition verify_email (now : Z) (tok : string) (s : State) : State * Reply :=
  match snd <$> list_find (λ t, token t = tok ∧ purpose t = "verify") (email_tokens s) with
  | None => (s, Error 400 "Invalid or expired token")
  | Some t =>
      if expires_at t <? now then (s, Error 400 "Invalid or expired token")
      else
        match users s !! tok_user_id t with
        | None => (s, Error 400 "User not found")
        | Some u =>
            (delete_token t
               (set_users (<[tok_user_id t := verify_and_claim u]> (users s)) s),
             Redirect "/login.html?verified=1")
        end
  end.

Definition request_otp (now : Z) (code : string) (em : string) (s : State)
    : State * Reply :=
  match user_by_email (strip (lower em)) s with
  | None => (s, Error 404 "User not found")
  | Some (uid, user) =>
      if is_verified user then (s, Ok "Already verified")
      else
        match generate_otp_for_user now code uid 15 s with
        | None => (s, Fault)
        | Some s => (s, Ok "OTP sent")
        end
  end.

Definition resend_otp := request_otp.

Definition verify_otp (now : Z) (em : string) (code : string) (s : State)
    : State * Reply :=
  let e := strip (lower em) in
  let code := strip code in
  if negb ((py_len code =? 6)%nat && isdigit code) then
    (s, Error 400 "Invalid code format")
  else
    match user_by_email e s with
    | None => (s, Error 404 "User not found")
    | Some (uid, user) =>
        match snd <$> list_find
                (λ t, tok_user_id t = uid ∧ purpose t = "otp" ∧ now ≤ expires_at t)
                (email_tokens s) with
        | None => (s, Error 400 "Invalid or expired code")
        | Some t =>
            if negb (String.eqb (token t) code) then
              (s, Error 400 "Invalid or expired code")
            else
              (delete_token t
                 (set_users (<[uid := verify_and_claim user]> (users s)) s),
               Ok "")
        end
    end.

Record LoginReq := mkLoginReq {
  login_email : option string;
  login_password : option string;
  login_email_valid : bool
}.

(** [pw_ok] is the verdict of [verify_pw] on the stored hash. *)
Definition login (now : Z) (pw_ok : bool) (req : LoginReq) (s : State)
    : State * Reply :=
  let e := lower (strip (default "" (login_email req))) in
  if negb (login_email_valid req) then (s, Error 400 "Invalid request body")
  else
    match user_by_email e s with
    | None => (s, Error 401 "Invalid email or password")
    | Some (uid, user) =>
        if negb pw_ok then (s, Error 401 "Invalid email or password")
        else (set_users (<[uid := with_last_login now user]> (users s)) s, Ok "")
    end.

Definition resend_verify (now : Z) (tok : string) (sub : option Z) (s : State)
    : State * Reply :=
  match get_current_user sub s with
  | None => (s, Error 401 "Not logged in")
  | Some (uid, user) =>
      if is_verified user then (s, Ok "Already verified")
      else
        match new_email_token now tok uid "verify" (60*24*3) s with
        | None => (s, Fault)
        | Some s => (s, Ok "")
        end
  end.

(** ** GOOGLE OAUTH *)

Record GoogleCallbackReq := mkGoogleCallbackReq {
  gc_code : option string;
  gc_state : option string;
  gc_cookie_state : option string
}.

(** [gc_userinfo]: the [email] and [email_verified] entries of the
    userinfo document, [None] when the token exchange or the userinfo
    request did not succeed. *)
Record GoogleCallbackEnv := mkGoogleCallbackEnv {
  gc_userinfo : option (option string * bool);
  gc_hash : string;
  gc_now : Z
}.

Definition truthy (o : option string) : bool :=
  match o with Some x => nonempty x | None => false end.

Definition google_callback (env : GoogleCallbackEnv) (req : GoogleCallbackReq)
    (s : State) : State * Reply :=
  if negb (truthy (gc_code req)) then (s, Error 400 "Missing code")
  else if negb (truthy (gc_state req) && truthy (gc_cookie_state req)
                && bool_decide (gc_state req = gc_cookie_state req)) then
    (s, Error 400 "Invalid state")
  else
    match gc_userinfo env with
    | None => (s, Error 400 "Google sign-in failed")
    | Some (em, email_verified) =>
        let e := strip (lower (default "" em)) in
        if negb (nonempty e) then (s, Error 400 "Google did not return an email")
        else
          match user_by_email e s with
          | None =>
              let user := mkUser e (gc_hash env) email_verified
                            (if email_verified then 2 else 0) email_verified
                            (gc_now env) None in
              (set_users (<[next_user_id (users s) := user]> (users s)) s,
               Redirect "/snap.html?google=1")
          | Some (uid, user) =>
              let user1 :=
                if email_verified && negb (is_verified user) then
                  mkUser (email user) (password_hash user) true (free_credits user)
                         (verify_bonus_claimed user) (u_created_at user)
                         (last_login_at user)
                else user in
              let user2 :=
                if email_verified && negb (verify_bonus_claimed user1) then
                  mkUser (email user1) (password_hash user1) (is_verified user1)
                         (free_credits user1 + 2) true (u_created_at user1)
                         (last_login_at user1)
                else user1 in
              (set_users (<[uid := user2]> (users s)) s,
               Redirect "/snap.html?google=1")
          end
    end.

(** [it_claims]: the issuer and the [email] claim of the verified ID
    token, [None] when [verify_oauth2_token] raises. *)
Record IdTokenEnv := mkIdTokenEnv {
  it_claims : option (option string * option string);
  it_hash : string;
  it_now : Z
}.

Definition google_idtoken_login (env : IdTokenEnv) (id_token : option string)
    (s : State) : State * Reply :=
  if negb (truthy id_token) then (s, Error 400 "Missing id_token")
  else
    match it_claims env with
    | None => (s, Error 401 "Invalid Google token")
    | Some (iss, em) =>
        if negb (bool_decide (iss = Some "accounts.google.com")
                 || bool_decide (iss = Some "https://accounts.google.com")) then
          (s, Error 401 "Invalid Google token")
        else
          match em with
          | None => (s, Error 401 "Invalid Google token")
          | Some e =>
              if negb (nonempty e) then (s, Error 401 "Invalid Google token")
              else
                match user_by_email e s with
                | Some _ => (s, Ok "user")
                | None =>
                    let u := mkUser e (it_hash env) true 2 false (it_now env) None in
                    (set_users (<[next_user_id (users s) := u]> (users s)) s, Ok "user")
                end
          end
    end.

(** ** CREDITS API *)

Record CreditsEnv := mkCreditsEnv {
  c_uuid : string;
  c_now_seen : Z;
  c_now_count : Z;
  c_now_next : Z;
  c_local_to_seconds : Z → Z
}.

Record CreditsSummary := mkCreditsSummary {
  kind : string;
  s_email : option string;
  verified : bool;
  s_free_credits : option Z;
  guest_credits : option Z;
  daily_limit : Z;
  s_used_last_24h : Z;
  s_next_available_ts : option Z
}.

(** [GET /credits] (the route function [credits]); [None] is an uncaught
    exception. *)
Definition credits_route (env : CreditsEnv) (sub : option Z)
    (cookie : option string) (s : State) : State * option CreditsSummary :=
  match get_current_user sub s with
  | Some (uid, _) =>
      match users s !! uid with
      | None => (s, None)
      | Some u =>
          let used24 := count_last_24h (c_now_count env) (Some uid) None s in
          let na := next_available_ts (c_local_to_seconds env) (c_now_next env) uid s in
          (s, Some (mkCreditsSummary "user" (Some (email u)) (is_verified u)
                      (Some (free_credits u)) None DAILY_FREE_LIMIT used24 na))
      end
  | None =>
      let '(s1, (gid, g)) :=
        get_or_create_guest (c_now_seen env) cookie (c_uuid env) s in
      (s1, Some (mkCreditsSummary "guest" None false None (Some (credits g)) 0
                   (count_last_24h (c_now_count env) None (Some gid) s1) None))
  end.

(** ** Request sequences *)

Inductive Call :=
| CallRegister (env : RegisterEnv) (req : RegisterReq)
| CallVerifyEmail (now : Z) (tok : string)
| CallRequestOtp (now : Z) (code : string) (em : string)
| CallVerifyOtp (now : Z) (em : string) (code : string)
| CallLogin (now : Z) (pw_ok : bool) (req : LoginReq)
| CallResendVerify (now : Z) (tok : string) (sub : option Z)
| CallGoogleCallback (env : GoogleCallbackEnv) (req : GoogleCallbackReq)
| CallGoogleIdToken (env : IdTokenEnv) (id_token : option string)
| CallCredits (env : CreditsEnv) (sub : option Z) (cookie : option string)
| CallStyleImage (env : StyleEnv) (req : StyleRequest).

Definition step (AI_PROVIDER : string) (c : Call) (s : State) : State :=
  match c with
  | CallRegister env req => (register env req s).1
  | CallVerifyEmail now tok => (verify_email now tok s).1
  | CallRequestOtp now code em => (request_otp now code em s).1
  | CallVerifyOtp now em code => (verify_otp now em code s).1
  | CallLogin now pw_ok req => (login now pw_ok req s).1
  | CallResendVerify now tok sub => (resend_verify now tok sub s).1
  | CallGoogleCallback env req => (google_callback env req s).1
  | CallGoogleIdToken env id_token => (google_idtoken_login env id_token s).1
  | CallCredits env sub cookie => (credits_route env sub cookie s).1
  | CallStyleImage env req => (style_image AI_PROVIDER env req s).1
  end.

Definition run (AI_PROVIDER : string) (cs : list Call) (s : State) : State :=
  foldl (λ s c, step AI_PROVIDER c s) s cs.

(** ** Notions used by the statements *)

(** The usage events of user [uid] in the 24 hours ending at [now]. *)
Definition user_window (now : Z) (uid : Z) (s : State) : list GenerationLog :=
  filter (λ r, user_id r = Some uid ∧ now - timedelta_hours 24 ≤ created_at r)
         (generation_logs s).

Definition used_in_window (now : Z) (uid : Z) (s : State) : Z :=
  Z.of_nat (length (user_window now uid s)).

(** [t] is the [k]-th most recent of the instants [ts] (1-indexed):
    fewer than [k] of them are strictly later, at least [k] are not
    earlier. *)
Definition kth_most_recent (k : nat) (t : Z) (ts : list Z) : Prop :=
  t ∈ ts ∧
  (length (filter (λ x, (t < x)%Z) ts) < k)%nat ∧
  (k ≤ length (filter (λ x, (t ≤ x)%Z) ts))%nat.

(** All the clock reads of the enforcement block return [now]. *)
Definition at_instant (now : Z) (env : StyleEnv) : Prop :=
  e_now_count env = now ∧ e_now_next env = now ∧ e_now_wait env = now.

(** What the ledger grants from: the user rows, every guest balance and
    the usage log ([last_seen] of a guest is bookkeeping, not a balance). *)
Definition entitlement_view (s : State)
    : gmap Z User * gmap string Z * list GenerationLog :=
  (users s, credits <$> guests s, generation_logs s).

Definition balances_nonneg (s : State) : Prop :=
  map_Forall (λ _ u, 0 ≤ free_credits u) (users s) ∧
  map_Forall (λ _ g, 0 ≤ credits g) (guests s).

(** Between [s] and [s'], a row whose bonus flag is set keeps the flag
    and gains no credit. *)
Definition keeps_claimed (s s' : State) : Prop :=
  ∀ uid u, users s !! uid = Some u → verify_bonus_claimed u = true →
    ∃ u', users s' !! uid = Some u' ∧ verify_bonus_claimed u' = true ∧
          free_credits u' ≤ free_credits u.

(** The two clock-dependent conditions under which the difference of two
    timestamps is the difference of the datetimes up to rounding: the
    POSIX time lies between 1970 and 2106, where a double resolves a
    quarter of a microsecond, and the local zone has the same UTC offset
    at both datetimes. *)
Definition in_double_range (local_to_seconds : Z → Z) (dt : Z) : Prop :=
  1 ≤ local_to_seconds (dt `div` usec_per_sec) ≤ 2 ^ 32 - 2.

Definition same_offset (local_to_seconds : Z → Z) (a b : Z) : Prop :=
  local_to_seconds (a `div` usec_per_sec) - local_to_seconds (b `div` usec_per_sec)
  = a `div` usec_per_sec - b `div` usec_per_sec.

Definition valid_image (req : StyleRequest) : Prop :=
  String.prefix "image/" (lower (default "" (content_type req))) = true ∧
  Z.of_nat (length (contents req)) ≤ max_upload_bytes.

Definition store_upload (env : StyleEnv) (req : StyleRequest) (s : State) : State :=
  set_uploads (<[safe_name_of env req := contents req]> (uploads s)) s.

(** ** Concrete scenarios *)

Definition hour : Z := timedelta_hours 1.
Definition day : Z := timedelta_hours 24.

(** An instant, 2023-11-14 22:13:20 UTC. *)
Definition noon : Z := 1700000000 * usec_per_sec.

(** A verified account whose bonus is spent. *)
Definition alice : User := mkUser "a@b.c" "h" true 0 true 0 None.

Definition events_of (uid : Z) (ts : list Z) : list GenerationLog :=
  imap (λ i t, mkGenerationLog (1 + Z.of_nat i) (Some uid) None t) ts.

(** A database holding user 1 and the usage events [ts] of that user. *)
Definition state_with (u : User) (ts : list Z) : State :=
  mkState {[ 1 := u ]} [] ∅ (events_of 1 ts) ∅.

(** A server whose local zone is UTC. *)
Definition utc (sec : Z) : Z := sec.

(** [TZ=America/New_York] around the end of daylight saving time in
    2023: calendar seconds before 2023-11-05 02:00:00 are EDT (UTC-4),
    later ones EST (UTC-5). *)
Definition new_york_2023 (sec : Z) : Z :=
  if sec <? 1699149600 then sec + 4 * 3600 else sec + 5 * 3600.

(** A request environment whose clock reads all return [now], on a
    server whose local zone is [tz]. *)
Definition env_in (tz : Z → Z) (now : Z) : StyleEnv :=
  mkStyleEnv (now `div` usec_per_sec) "0123456789abcdef0123456789abcdef"
             now now now now (inl "timeout") (now `div` usec_per_sec) now tz.

Definition env_at (now : Z) : StyleEnv := env_in utc now.

Definition credits_env_at (now : Z) : CreditsEnv :=
  mkCreditsEnv "0123456789abcdef0123456789abcdef" now now now utc.

Definition png_upload (sub : option Z) (cookie : option string) : StyleRequest :=
  mkStyleRequest sub cookie (Some "image/png") "my room.png" [] "cozy" ""
                 "http://127.0.0.1:8000/".

Definition idtoken_env : IdTokenEnv :=
  mkIdTokenEnv (Some (Some "accounts.google.com", Some "a@b.c")) "h" noon.

Definition callback_env : GoogleCallbackEnv :=
  mkGoogleCallbackEnv (Some (Some "a@b.c", true)) "h" (noon + hour).

Definition callback_req : GoogleCallbackReq :=
  mkGoogleCallbackReq (Some "code") (Some "state") (Some "state").

Definition bob_env : RegisterEnv :=
  mkRegisterEnv noon "bcrypt" "link-token" "123456".

Definition bob_req : RegisterReq :=
  mkRegisterReq (Some " Bob@Example.com ") (Some "secret1") true.

Definition is_200 (r : StyleResponse) : bool :=
  match r with Json200 _ => true | _ => false end.

(** ** What one request may write *)

(** The shapes of a freshly inserted [users] row: the unverified row of
    [register] (and of [google_callback] without a verified email), or a
    verified row carrying the 2 bonus credits. *)
Definition created_user (v : User) : Prop :=
  last_login_at v = None ∧
  ((is_verified v = false ∧ free_credits v = 0 ∧ verify_bonus_claimed v = false) ∨
   (is_verified v = true ∧ free_credits v = 2)).

(** Every write of a route to the [users] table is an insertion of [v]
    at key [k] of one of these kinds. *)
Inductive user_write (s : State) (k : Z) (v : User) : Prop :=
| uw_created :
    users s !! k = None →
    (∀ k' u', users s !! k' = Some u' → email u' ≠ email v) →
    created_user v → user_write s k v
| uw_verified u :
    users s !! k = Some u → v = verify_and_claim u → user_write s k v
| uw_login u t :
    users s !! k = Some u → v = with_last_login t u → user_write s k v
| uw_debit u :
    users s !! k = Some u → is_verified u = true → 0 < free_credits u →
    v = with_free_credits (free_credits u - 1) u → user_write s k v.

(** Likewise for the [guests] table. *)
Inductive guest_write (s : State) (k : string) (g' : Guest) : Prop :=
| gw_created t :
    guests s !! k = None → g' = mkGuest 2 t t → guest_write s k g'
| gw_first_debit t :
    guests s !! k = None → g' = mkGuest 1 t t → guest_write s k g'
| gw_touched g t :
    guests s !! k = Some g → g' = with_last_seen t g → guest_write s k g'
| gw_debited g t :
    guests s !! k = Some g → 0 < credits g →
    g' = mkGuest (credits g - 1) (g_created_at g) t → guest_write s k g'.

Definition is_style_call (c : Call) : bool :=
  match c with CallStyleImage _ _ => true | _ => false end.

(** Shape of the balances in the states the routes build: an unverified
    account holds no credit and no bonus flag, a balance is at most 2
    before the flag is set and at most 4 after, a guest holds at most 2. *)
Definition user_shape (u : User) : Prop :=
  (is_verified u = false → free_credits u = 0 ∧ verify_bonus_claimed u = false) ∧
  0 ≤ free_credits u ∧
  free_credits u ≤ (if verify_bonus_claimed u then 4 else 2).

Definition ledger_shape (s : State) : Prop :=
  map_Forall (λ _ u, user_shape u) (users s) ∧
  map_Forall (λ _ g, 0 ≤ credits g ≤ 2) (guests s).

(** The UNIQUE constraints of [users.email] and [email_tokens.token]. *)
Definition emails_unique (s : State) : Prop :=
  ∀ k1 k2 u1 u2, users s !! k1 = Some u1 → users s !! k2 = Some u2 →
                 email u1 = email u2 → k1 = k2.

Definition tokens_unique (s : State) : Prop :=
  NoDup (token <$> email_tokens s).

(** Preservation of a property, as a relation between two tables. *)
Definition impl_rel {A} (I : A → Prop) : relation A := λ m m', I m → I m'.

Global Instance impl_rel_refl {A} (I : A → Prop) : Reflexive (impl_rel I).
Proof. intros m H. exact H. Qed.

Global Instance impl_rel_trans {A} (I : A → Prop) : Transitive (impl_rel I).
Proof. intros m1 m2 m3 H12 H23 H. by apply H23, H12. Qed.

(** A row of [m] is still there in [m'], with the same address, password
    hash and creation time, and still verified if it was. *)
Definition users_persist (m m' : gmap Z User) : Prop :=
  ∀ k u, m !! k = Some u →
    ∃ u', m' !! k = Some u' ∧ email u' = email u ∧
          password_hash u' = password_hash u ∧
          u_created_at u' = u_created_at u ∧
          (is_verified u = true → is_verified u' = true).

Global Instance users_persist_refl : Reflexive users_persist.
Proof. intros m k u Hk. exists u. auto. Qed.

Global Instance users_persist_trans : Transitive users_persist.
Proof.
  intros m1 m2 m3 H12 H23 k u Hk.
  destruct (H12 k u Hk) as (u2 & Hk2 & He2 & Hp2 & Hc2 & Hv2).
  destruct (H23 k u2 Hk2) as (u3 & Hk3 & He3 & Hp3 & Hc3 & Hv3).
  exists u3. repeat split; [done|congruence..|auto].
Qed.

(** A guest of [m] is still there in [m'], with no more credits. *)
Definition guests_persist (m m' : gmap string Guest) : Prop :=
  ∀ k g, m !! k = Some g →
    ∃ g', m' !! k = Some g' ∧ credits g' ≤ credits g ∧
          g_created_at g' = g_created_at g.

Global Instance guests_persist_refl : Reflexive guests_persist.
Proof. intros m k g Hk. exists g. split; [done|]. split; [lia|done]. Qed.

Global Instance guests_persist_trans : Transitive guests_persist.
Proof.
  intros m1 m2 m3 H12 H23 k g Hk.
  destruct (H12 k g Hk) as (g2 & Hk2 & Hc2 & Ht2).
  destruct (H23 k g2 Hk2) as (g3 & Hk3 & Hc3 & Ht3).
  exists g3. split; [done|]. split; [lia|congruence].
Qed.

Definition bob : User := mkUser "bob@example.com" "bcrypt" false 0 false noon None.

(** A mixed sequence of requests: two guest generations, a registration,
    the email link, three generations by the account, a status query. *)
Definition demo_calls : list Call :=
  [ CallStyleImage (env_at noon) (png_upload None None);
    CallStyleImage (env_at noon) (png_upload None (Some (e_uuid (env_at noon))));
    CallRegister bob_env bob_req;
    CallVerifyEmail (noon + hour) "link-token";
    CallStyleImage (env_at (noon + hour)) (png_upload (Some 1) None);
    CallStyleImage (env_at (noon + hour)) (png_upload (Some 1) None);
    CallStyleImage (env_at (noon + hour)) (png_upload (Some 1) None);
    CallCredits (credits_env_at (noon + hour)) (Some 1) None ].

(** A usage event names exactly one identity kind. *)
Definition one_identity (r : GenerationLog) : Prop :=
  (is_Some (user_id r) ∧ guest_id r = None) ∨
  (user_id r = None ∧ is_Some (guest_id r)).

Definition is_idtoken_call (c : Call) : bool :=
  match c with CallGoogleIdToken _ _ => true | _ => false end.

(** The balances of accounts that never went through the ID-token
    sign-in: verified exactly when the bonus flag is set, no credit before
    verification, never more than the single bonus of 2. *)
Definition single_bonus_shape (u : User) : Prop :=
  is_verified u = verify_bonus_claimed u ∧
  (is_verified u = false → free_credits u = 0) ∧
  0 ≤ free_credits u ≤ 2.

(** ** PROMPT PLANNING *)

(** The five values handed to the provider call. The float literals
    [0.55], [0.6] and [7.0] are kept as the decimal text that
    [stability_img2img] posts ([str(image_strength)], [str(cfg_scale)]). *)
Record Plan := mkPlan {
  positive : string;
  negative : string;
  image_strength : string;
  steps : Z;
  cfg_scale : string
}.

Definition layout_prefix : string :=
  "keep room layout and camera angle. photorealistic lighting and shadows. ".

Definition default_instructions : string :=
  "refined, tasteful style with clean lines and natural materials".

Definition plan_from_instructions (text : string) : Plan :=
  let text := if nonempty (strip text) then strip text else default_instructions in
  mkPlan (layout_prefix ++ text)
    ("low quality, blurry, text, watermark, people, extra windows, duplicated walls, "
     ++ "distorted furniture, warped geometry")
    "0.55" 28 "7.0".

Definition STYLE_PROMPTS : gmap string string :=
  list_to_map
    [ ("minimal", "clean lines, neutral palette, scandinavian furniture, lots of natural light");
      ("cozy", "warm lighting, soft textures, layered textiles, plants, inviting atmosphere");
      ("industrial", "exposed brick, concrete, metal accents, matte black fixtures");
      ("luxury", "marble surfaces, brass details, velvet upholstery, statement lighting") ].

Definition minimal_prompt : string :=
  "clean lines, neutral palette, scandinavian furniture, lots of natural light".

Definition build_prompt_from_style (st : string) : Plan :=
  let base := default minimal_prompt
                (STYLE_PROMPTS !! (if nonempty st then st else "minimal")) in
  mkPlan (layout_prefix ++ base)
    "low quality, blurry, text, watermark, people, extra windows, duplicated walls, distorted furniture"
    "0.6" 28 "7.0".

(** The choice made by [style_image] in the [stability] branch. *)
Definition prompt_for (st instr : string) : Plan :=
  if nonempty (strip instr) then plan_from_instructions instr
  else build_prompt_from_style st.

(** * Properties *)

(** ** Order statistics of a list sorted newest first *)

Section order_statistics.
Implicit Types (ts : list Z) (t : Z).

Lemma filter_keeps_all (P : Z → Prop) `{!∀ x, Decision (P x)} ts :
  Forall P ts → filter P ts = ts.
Proof.
  induction 1 as [|x l Hx _ IH]; [done|].
  by rewrite filter_cons_True, IH.
Qed.

Lemma filter_drops_all (P : Z → Prop) `{!∀ x, Decision (P x)} ts :
  Forall (λ x, ¬ P x) ts → filter P ts = [].
Proof.
  induction 1 as [|x l Hx _ IH]; [done|].
  by rewrite filter_cons_False.
Qed.

Lemma kth_most_recent_perm k t ts ts' :
  ts ≡ₚ ts' → kth_most_recent k t ts → kth_most_recent k t ts'.
Proof.
  intros Hp (Hin & Hlt & Hle). unfold kth_most_recent.
  by rewrite <- Hp.
Qed.

Lemma sorted_desc_lookup k t ts :
  StronglySorted (λ a b, b ≤ a) ts → ts !! k = Some t →
  kth_most_recent (S k) t ts.
Proof.
  intros Hs Hk.
  pose proof (take_drop_middle ts k t Hk) as Hsplit.
  pose proof (lookup_lt_Some _ _ _ Hk) as Hlen.
  rewrite <- Hsplit in Hs.
  apply StronglySorted_app in Hs as (Hcross & _ & Hs2).
  apply StronglySorted_cons in Hs2 as [Hafter _].
  assert (Hbefore : Forall (λ x, t ≤ x) (take k ts)).
  { apply Forall_forall. intros x Hx. apply (Hcross x t); [done|]. left. }
  assert (Hlk : length (take k ts) = k) by (apply length_take_le; lia).
  split; [|split].
  - rewrite <- Hsplit. set_solver.
  - rewrite <- Hsplit at 1. rewrite filter_app, length_app.
    rewrite (filter_drops_all _ (t :: drop (S k) ts)).
    + pose proof (length_filter (λ x, t < x) (take k ts)). simpl. lia.
    + constructor; [lia|]. eapply Forall_impl; [exact Hafter|].
      simpl. intros; lia.
  - rewrite <- Hsplit at 1. rewrite filter_app, length_app.
    rewrite filter_keeps_all by done.
    rewrite filter_cons_True by lia. simpl. lia.
Qed.
End order_statistics.

(** ** Rounding to a double *)

Lemma float_unit_eq : float_unit = 2 ^ 72.
Proof. reflexivity. Qed.

Lemma float_unit_pos : 0 < float_unit.
Proof. done. Qed.

Lemma rne_div_err n d : 0 < d → - d ≤ 2 * (d * rne_div n d - n) ≤ d.
Proof.
  intros Hd. unfold rne_div.
  pose proof (Z.div_mod n d ltac:(lia)) as Hdm.
  pose proof (Z.mod_pos_bound n d Hd) as Hr.
  set (q := n `div` d) in *. set (r := n `mod` d) in *.
  destruct (Z.compare_spec (2 * r) d); [destruct (Z.even q)|..]; nia.
Qed.

Lemma rne_div_nonneg n d : 0 ≤ n → 0 < d → 0 ≤ rne_div n d.
Proof.
  intros Hn Hd. unfold rne_div.
  assert (0 ≤ n `div` d) by (apply Z.div_pos; lia).
  destruct (_ ?= _); [destruct (Z.even _)|..]; lia.
Qed.

Lemma rne_div_0 d : 0 < d → rne_div 0 d = 0.
Proof.
  intros Hd. unfold rne_div. rewrite Z.mod_0_l, Z.div_0_l by lia.
  by destruct (Z.compare_spec (2 * 0) d); try lia.
Qed.

Lemma ulp_of_pos n d : 0 < ulp_of n d.
Proof. unfold ulp_of. apply Z.pow_pos_nonneg; lia. Qed.

(** Below [2^K] the doubles are at most [2^(K-53)] apart. *)
Lemma ulp_of_le n d K :
  53 ≤ K → 0 ≤ n → 0 < d → n < d * 2 ^ K → ulp_of n d ≤ 2 ^ (K - 53).
Proof.
  intros HK Hn Hd Hlt. unfold ulp_of.
  apply Z.pow_le_mono_r; [lia|].
  assert (n `div` d < 2 ^ K) by (apply Z.div_lt_upper_bound; lia).
  assert (0 ≤ n `div` d) by (apply Z.div_pos; lia).
  destruct (decide (n `div` d = 0)) as [->|]; [simpl; lia|].
  assert (Z.log2 (n `div` d) < K) by (apply Z.log2_lt_pow2; lia).
  lia.
Qed.

(** Rounding moves a value by at most half the spacing. *)
Lemma round_pos_err n d :
  0 < d → - (d * ulp_of n d) ≤ 2 * (d * round_pos n d - n) ≤ d * ulp_of n d.
Proof.
  intros Hd. unfold round_pos.
  pose proof (ulp_of_pos n d) as HG.
  pose proof (rne_div_err n (d * ulp_of n d) ltac:(lia)) as H.
  replace (d * (ulp_of n d * rne_div n (d * ulp_of n d)))
    with (d * ulp_of n d * rne_div n (d * ulp_of n d)) by ring.
  exact H.
Qed.

Lemma round_pos_nonneg n d : 0 ≤ n → 0 < d → 0 ≤ round_pos n d.
Proof.
  intros Hn Hd. unfold round_pos.
  pose proof (ulp_of_pos n d).
  pose proof (rne_div_nonneg n (d * ulp_of n d) Hn ltac:(lia)). lia.
Qed.

Lemma round_pos_0 d : 0 < d → round_pos 0 d = 0.
Proof.
  intros Hd. unfold round_pos. pose proof (ulp_of_pos 0 d).
  rewrite rne_div_0 by lia. lia.
Qed.

Lemma round_ratio_sign n d :
  0 < d → (0 ≤ n → 0 ≤ round_ratio n d) ∧ (n ≤ 0 → round_ratio n d ≤ 0).
Proof.
  intros Hd. unfold round_ratio. destruct (Z.leb_spec 0 n); split; intros.
  - by apply round_pos_nonneg.
  - assert (n = 0) as -> by lia. rewrite round_pos_0; lia.
  - lia.
  - pose proof (round_pos_nonneg (- n) d ltac:(lia) Hd). lia.
Qed.

Lemma round_ratio_err1 n K :
  53 ≤ K → - 2 ^ K < n < 2 ^ K →
  - 2 ^ (K - 53) ≤ 2 * (round_ratio n 1 - n) ≤ 2 ^ (K - 53).
Proof.
  intros HK Hn. unfold round_ratio.
  destruct (Z.leb_spec 0 n).
  - pose proof (round_pos_err n 1 ltac:(lia)).
    pose proof (ulp_of_le n 1 K HK ltac:(lia) ltac:(lia) ltac:(lia)). lia.
  - pose proof (round_pos_err (- n) 1 ltac:(lia)).
    pose proof (ulp_of_le (- n) 1 K HK ltac:(lia) ltac:(lia) ltac:(lia)). lia.
Qed.

(** An integer below [2^53] is a double. *)
Lemma float_of_int_exact k : 0 ≤ k < 2 ^ 53 → float_of_int k = k * float_unit.
Proof.
  intros Hk. unfold float_of_int, round_ratio.
  pose proof float_unit_pos.
  destruct (Z.leb_spec 0 (k * float_unit)); [|nia].
  destruct (decide (k = 0)) as [->|Hk0]; [reflexivity|].
  unfold round_pos, ulp_of. rewrite Z.div_1_r, Z.mul_1_l.
  rewrite float_unit_eq, Z.log2_mul_pow2 by lia.
  assert (Z.log2 k < 53) by (apply Z.log2_lt_pow2; lia).
  pose proof (Z.log2_nonneg k).
  rewrite Z.max_r by lia.
  set (e := 72 + Z.log2 k - 52).
  assert (k * 2 ^ 72 = (k * 2 ^ (52 - Z.log2 k)) * 2 ^ e) as ->.
  { rewrite <- Z.mul_assoc, <- Z.pow_add_r by lia. do 2 f_equal. lia. }
  assert (0 < 2 ^ e) by (apply Z.pow_pos_nonneg; lia).
  unfold rne_div. rewrite Z.mod_mul, Z.div_mul by lia.
  destruct (Z.compare_spec (2 * 0) (2 ^ e)); [lia| |lia]. ring.
Qed.

(** The quotient [us / 1e6] of a microsecond field. *)
Lemma float_div_usec us :
  0 ≤ us < usec_per_sec →
  let f := float_div (float_of_int us) (float_of_int 1000000) in
  0 ≤ f ∧
  - (1000000 * 2 ^ 18) ≤ 1000000 * f - us * float_unit ≤ 1000000 * 2 ^ 18.
Proof.
  intros Hus. cbv zeta. unfold usec_per_sec in Hus.
  rewrite !float_of_int_exact by lia.
  unfold float_div.
  pose proof float_unit_pos as HU.
  destruct (round_ratio_sign (us * float_unit * float_unit) (1000000 * float_unit)
              ltac:(lia)) as [Hs _].
  split; [apply Hs; nia|].
  unfold round_ratio. destruct (Z.leb_spec 0 (us * float_unit * float_unit)); [|nia].
  pose proof (round_pos_err (us * float_unit * float_unit) (1000000 * float_unit)
                ltac:(lia)) as He.
  pose proof (ulp_of_le (us * float_unit * float_unit) (1000000 * float_unit) 72
                ltac:(lia) ltac:(lia) ltac:(lia)) as HG.
  rewrite <- float_unit_eq in HG.
  specialize (HG ltac:(nia)).
  change (2 ^ (72 - 53)) with (2 * 2 ^ 18) in HG.
  set (F := round_pos _ _) in *. set (G := ulp_of _ _) in *.
  pose proof (ulp_of_pos (us * float_unit * float_unit) (1000000 * float_unit)) as HGp.
  fold G in HGp.
  assert (- (1000000 * G) ≤ 2 * (1000000 * F - us * float_unit) ≤ 1000000 * G) by nia.
  lia.
Qed.

(** The rounding agrees with the kernel's binary64 arithmetic on
    timestamps of 1970, 2004, 2023 and 2038, and on their differences. *)
Example timestamp_is_binary64 :
  let dts := [ 1; 999999; 1000001; 1073741823999999; 1073741824000001;
               1699099199000000; 1700000000000000; 1700086399500000;
               1700000000300000; 2147483638000015; 2147566438000015;
               4294967294999999 ] in
  forallb (λ dt, timestamp (λ x, x) dt
                 =? binary64_units (binary64_timestamp (λ x, x) dt)) dts = true ∧
  forallb (λ dt, float_sub (timestamp (λ x, x) dt) (timestamp (λ x, x) 2147483638000015)
                 =? binary64_units (binary64_timestamp (λ x, x) dt
                                    - binary64_timestamp (λ x, x) 2147483638000015)%float)
          dts = true.
Proof. split; vm_compute; reflexivity. Qed.

(** A timestamp between 1970 and 2106 is within [2^-22] s of the exact
    value [local_to_seconds(...) + microsecond / 10^6]. *)
Lemma timestamp_err tz dt :
  in_double_range tz dt →
  let T := timestamp tz dt in
  let E := tz (dt `div` usec_per_sec) * usec_per_sec + dt `mod` usec_per_sec in
  0 < T < 2 ^ 104 ∧
  - (1000000 * (2 ^ 50 + 2 ^ 18)) ≤ 1000000 * T - E * float_unit
    ≤ 1000000 * (2 ^ 50 + 2 ^ 18).
Proof.
  unfold in_double_range. intros HS. cbv zeta. unfold timestamp.
  pose proof (Z.mod_pos_bound dt usec_per_sec ltac:(done)) as Hus.
  set (S := tz (dt `div` usec_per_sec)) in *. set (us := dt `mod` usec_per_sec) in *.
  destruct (float_div_usec us Hus) as [HF0 HF].
  set (F := float_div _ _) in *.
  rewrite float_of_int_exact by lia.
  unfold float_add.
  assert (0 ≤ S * float_unit + F < 2 ^ 104) as Hn.
  { unfold float_unit, usec_per_sec in *. lia. }
  pose proof (round_ratio_err1 (S * float_unit + F) 104 ltac:(lia) ltac:(lia)) as He.
  change (2 ^ (104 - 53)) with (2 * 2 ^ 50) in He.
  set (T := round_ratio _ 1) in *.
  unfold float_unit, usec_per_sec in *. lia.
Qed.

Lemma retry_after_nonneg ts now_ts : 0 ≤ retry_after ts now_ts.
Proof.
  unfold retry_after, float_trunc. destruct ts as [t|]; [|lia].
  destruct (t =? 0); [lia|].
  apply Z.quot_pos; [lia|]. pose proof float_unit_pos. lia.
Qed.

(** [int(max(0, x))] is the whole part of a non-negative float. *)
Lemma retry_after_floor t now_ts :
  t ≠ 0 →
  retry_after (Some t) now_ts * float_unit ≤ Z.max 0 (float_sub t now_ts)
    < (retry_after (Some t) now_ts + 1) * float_unit.
Proof.
  intros Ht. unfold retry_after, float_trunc.
  destruct (Z.eqb_spec t 0); [done|].
  pose proof float_unit_pos as HU.
  rewrite Z.quot_div_nonneg by lia.
  pose proof (Z.div_mod (Z.max 0 (float_sub t now_ts)) float_unit ltac:(lia)).
  pose proof (Z.mod_pos_bound (Z.max 0 (float_sub t now_ts)) float_unit HU).
  lia.
Qed.

(** The wait computed from two timestamps, against the exact difference
    of the two datetimes: the whole seconds of it, or one less. *)
Lemma retry_after_timestamps tz a b :
  in_double_range tz a → in_double_range tz b → same_offset tz a b →
  let w := retry_after (Some (timestamp tz a)) (timestamp tz b) in
  w * usec_per_sec ≤ Z.max 0 (a - b) ≤ w * usec_per_sec + usec_per_sec.
Proof.
  intros Ha Hb Hab. cbv zeta.
  destruct (timestamp_err tz a Ha) as [HTa HEa].
  destruct (timestamp_err tz b Hb) as [HTb HEb].
  cbv zeta in HEa, HEb.
  unfold same_offset in Hab.
  pose proof (Z.div_mod a usec_per_sec ltac:(done)) as Hda.
  pose proof (Z.div_mod b usec_per_sec ltac:(done)) as Hdb.
  pose proof (retry_after_floor (timestamp tz a) (timestamp tz b) ltac:(lia)) as Hw.
  set (w := retry_after _ _) in *.
  unfold float_sub in Hw.
  set (Ta := timestamp tz a) in *. set (Tb := timestamp tz b) in *.
  pose proof (round_ratio_err1 (Ta - Tb) 104 ltac:(lia) ltac:(lia)) as He.
  change (2 ^ (104 - 53)) with (2 * 2 ^ 50) in He.
  set (X := round_ratio _ 1) in *.
  set (Sa := tz (a `div` usec_per_sec)) in *. set (Sb := tz (b `div` usec_per_sec)) in *.
  assert ((a - b - 1) * float_unit < 1000000 * X < (a - b + 1) * float_unit) as HXd.
  { unfold float_unit, usec_per_sec in *. lia. }
  unfold float_unit, usec_per_sec in *. lia.
Qed.

Lemma window_logs_perm now uid s : window_logs now uid s ≡ₚ user_window now uid s.
Proof. unfold window_logs, user_window, since_24h. apply merge_sort_Permutation. Qed.

Lemma window_logs_length now uid s :
  Z.of_nat (length (window_logs now uid s)) = used_in_window now uid s.
Proof. unfold used_in_window. by rewrite window_logs_perm. Qed.

Lemma count_last_24h_user now uid s :
  uid ≠ 0 → count_last_24h now (Some uid) None s = used_in_window now uid s.
Proof.
  intros Hne. unfold count_last_24h, used_in_window, user_window, since_24h.
  destruct (Z.eqb_spec uid 0); [done|].
  by rewrite list_filter_filter.
Qed.

(** [next_available_ts] is [None] exactly below the limit; otherwise it
    is the timestamp of the datetime 24 hours after the
    [DAILY_FREE_LIMIT]-th most recent event. *)
Lemma next_available_ts_None tz now uid s :
  next_available_ts tz now uid s = None ↔ used_in_window now uid s < DAILY_FREE_LIMIT.
Proof.
  unfold next_available_ts. rewrite window_logs_length.
  destruct (Z.ltb_spec (used_in_window now uid s) DAILY_FREE_LIMIT) as [Hlt|Hge].
  - done.
  - split; [|lia]. rewrite <- window_logs_length in Hge.
    destruct (lookup_lt_is_Some_2 (window_logs now uid s)
                (Z.to_nat (DAILY_FREE_LIMIT - 1))) as [kth Hk].
    { unfold DAILY_FREE_LIMIT in *. lia. }
    by rewrite Hk.
Qed.

Lemma next_available_ts_Some tz now uid s ts :
  next_available_ts tz now uid s = Some ts →
  ∃ t_k, ts = timestamp tz (t_k + timedelta_hours 24) ∧
         kth_most_recent (Z.to_nat DAILY_FREE_LIMIT) t_k
           (created_at <$> user_window now uid s) ∧
         now - timedelta_hours 24 ≤ t_k.
Proof.
  unfold next_available_ts.
  destruct (_ <? _); [done|].
  destruct (window_logs now uid s !! Z.to_nat (DAILY_FREE_LIMIT - 1))
    as [kth|] eqn:Hk; [|done].
  intros [= <-]. exists (created_at kth). split; [done|]. split.
  - apply kth_most_recent_perm with (created_at <$> window_logs now uid s).
    { by rewrite window_logs_perm. }
    change (Z.to_nat DAILY_FREE_LIMIT) with (S (Z.to_nat (DAILY_FREE_LIMIT - 1))).
    apply sorted_desc_lookup.
    + apply (StronglySorted_fmap created_at newer_first); [done|].
      apply StronglySorted_merge_sort; apply _.
    + by rewrite list_lookup_fmap, Hk.
  - assert (Hin : kth ∈ user_window now uid s).
    { rewrite <- window_logs_perm. by eapply list_elem_of_lookup_2. }
    apply list_elem_of_filter in Hin as [[_ ?] _]. done.
Qed.

(** ** The enforcement block, branch by branch *)

Lemma get_current_user_Some sub s uid u :
  get_current_user sub s = Some (uid, u) → uid ≠ 0 ∧ users s !! uid = Some u.
Proof.
  unfold get_current_user. destruct sub as [x|]; [|done].
  destruct (Z.eqb_spec x 0); [done|].
  destruct (users s !! x) as [u'|] eqn:Hx; [|done].
  simpl. by intros [= <- <-].
Qed.

Lemma enforce_prepaid env cookie s uid u0 u :
  users s !! uid = Some u → is_verified u = true → 0 < free_credits u →
  enforce_credits env (Some (uid, u0)) cookie s =
    (set_users (<[uid := with_free_credits (free_credits u - 1) u]> (users s)) s,
     Allowed Prepaid (WhoUser uid)).
Proof.
  intros Hu Hv Hc. unfold enforce_credits. rewrite Hu, Hv.
  destruct (Z.ltb_spec 0 (free_credits u)); [done|lia].
Qed.

Lemma enforce_window env cookie s uid u0 u :
  uid ≠ 0 → users s !! uid = Some u →
  is_verified u = false ∨ free_credits u ≤ 0 →
  enforce_credits env (Some (uid, u0)) cookie s =
    if DAILY_FREE_LIMIT <=? used_in_window (e_now_count env) uid s then
      (s, DailyLimitReached (used_in_window (e_now_count env) uid s) DAILY_FREE_LIMIT
            (retry_after
               (next_available_ts (e_local_to_seconds env) (e_now_next env) uid s)
               (timestamp (e_local_to_seconds env) (e_now_wait env))))
    else (s, Allowed DailyQuota (WhoUser uid)).
Proof.
  intros Hne Hu Hcase. unfold enforce_credits. rewrite Hu.
  assert (is_verified u && (0 <? free_credits u) = false) as ->.
  { destruct Hcase as [->|Hc]; [done|].
    destruct (Z.ltb_spec 0 (free_credits u)); [lia|]. by rewrite andb_false_r. }
  by rewrite count_last_24h_user.
Qed.

(** A guest request, whatever way the guest id is resolved: a known
    guest with credit is debited, one without is refused, an unknown id
    is enrolled with 2 credits and debited at once. *)
Lemma enforce_guest_known env cookie s g :
  guests s !! resolve_gid cookie (e_uuid env) = Some g → 0 < credits g →
  enforce_credits env None cookie s =
    (set_guests (<[resolve_gid cookie (e_uuid env) :=
                     mkGuest (credits g - 1) (g_created_at g) (e_now_seen env)]>
                   (guests s)) s,
     Allowed GuestCredit (WhoGuest (resolve_gid cookie (e_uuid env)))).
Proof.
  intros Hg Hc. unfold enforce_credits, get_or_create_guest.
  rewrite Hg. cbn. rewrite lookup_insert_eq. cbn.
  destruct (Z.leb_spec (credits g) 0); [lia|].
  unfold set_guests; cbn. by rewrite insert_insert_eq.
Qed.

Lemma enforce_guest_new env cookie s :
  guests s !! resolve_gid cookie (e_uuid env) = None →
  enforce_credits env None cookie s =
    (set_guests (<[resolve_gid cookie (e_uuid env) :=
                     mkGuest 1 (e_now_seen env) (e_now_seen env)]> (guests s)) s,
     Allowed GuestCredit (WhoGuest (resolve_gid cookie (e_uuid env)))).
Proof.
  intros Hg. unfold enforce_credits, get_or_create_guest.
  rewrite Hg. cbn. rewrite lookup_insert_eq. cbn.
  unfold set_guests; cbn. by rewrite insert_insert_eq.
Qed.

Lemma resolve_gid_cookie gid uuid : nonempty gid = true → resolve_gid (Some gid) uuid = gid.
Proof. unfold resolve_gid. by intros ->. Qed.

Lemma enforce_guest_debit env s gid g :
  nonempty gid = true → guests s !! gid = Some g → 0 < credits g →
  enforce_credits env None (Some gid) s =
    (set_guests (<[gid := mkGuest (credits g - 1) (g_created_at g) (e_now_seen env)]>
                   (guests s)) s,
     Allowed GuestCredit (WhoGuest gid)).
Proof.
  intros Hgid Hg Hc.
  rewrite (enforce_guest_known env (Some gid) s g);
    rewrite ?(resolve_gid_cookie gid) by done; done.
Qed.

Lemma enforce_guest_exhausted env s gid g :
  nonempty gid = true → guests s !! gid = Some g → credits g ≤ 0 →
  enforce_credits env None (Some gid) s =
    (set_guests (<[gid := with_last_seen (e_now_seen env) g]> (guests s)) s,
     GuestCreditsExhausted "register").
Proof.
  intros Hgid Hg Hc. unfold enforce_credits, get_or_create_guest, resolve_gid.
  rewrite Hgid, Hg. cbn. rewrite lookup_insert_eq. cbn.
  destruct (Z.leb_spec (credits g) 0); [done|lia].
Qed.

Lemma enforce_guest_fresh env s :
  guests s !! e_uuid env = None →
  enforce_credits env None None s =
    (set_guests (<[e_uuid env := mkGuest 1 (e_now_seen env) (e_now_seen env)]>
                   (guests s)) s,
     Allowed GuestCredit (WhoGuest (e_uuid env))).
Proof. intros Hg. by rewrite (enforce_guest_new env None s). Qed.

Local Arguments enforce_credits : simpl never.

(** C5: for a verified user holding prepaid credits the request is let
    through by the prepaid branch whatever the usage log contains (the
    rolling window is not consulted), and the row read back from the
    database holds exactly one credit less and is otherwise the same, no
    other row or table being touched; an unverified user is never let
    through by the prepaid branch: the request is decided by the rolling
    window and the whole state stays as it was. *)
Theorem C5_prepaid_first env sub cookie s uid u :
  get_current_user sub s = Some (uid, u) →
  let r := enforce_credits env (get_current_user sub s) cookie s in
  (is_verified u = true → 0 < free_credits u →
     r.2 = Allowed Prepaid (WhoUser uid) ∧
     (∃ u', users r.1 !! uid = Some u' ∧
            get_current_user sub r.1 = Some (uid, u') ∧
            free_credits u' = free_credits u - 1 ∧
            email u' = email u ∧ password_hash u' = password_hash u ∧
            is_verified u' = true ∧
            verify_bonus_claimed u' = verify_bonus_claimed u ∧
            u_created_at u' = u_created_at u ∧
            last_login_at u' = last_login_at u) ∧
     (∀ k, k ≠ uid → users r.1 !! k = users s !! k) ∧
     guests r.1 = guests s ∧ generation_logs r.1 = generation_logs s ∧
     email_tokens r.1 = email_tokens s ∧ uploads r.1 = uploads s)
  ∧ (is_verified u = false →
     r.1 = s ∧
     (r.2 = Allowed DailyQuota (WhoUser uid) ∨
      ∃ used wait, r.2 = DailyLimitReached used DAILY_FREE_LIMIT wait)).
Proof.
  intros Hcur r. subst r.
  destruct (get_current_user_Some _ _ _ _ Hcur) as [Hne Hu].
  rewrite Hcur. split.
  - intros Hv Hc. rewrite (enforce_prepaid env cookie s uid u u) by done.
    cbn [fst snd]. split; [done|]. split.
    + exists (with_free_credits (free_credits u - 1) u).
      split; [cbn; by rewrite lookup_insert_eq|]. split.
      * unfold get_current_user in *. destruct sub as [x|]; [|done].
        destruct (x =? 0); [done|].
        destruct (users s !! x) as [u1|] eqn:Hx; [|done].
        cbn in Hcur. injection Hcur as -> ->.
        cbn. by rewrite lookup_insert_eq.
      * cbn. by rewrite Hv.
    + split; [|done]. intros k Hk. cbn. by rewrite lookup_insert_ne.
  - intros Hv. rewrite (enforce_window env cookie s uid u u) by auto.
    destruct (_ <=? _); cbn [fst snd]; eauto 6.
Qed.

(** C3: for a verified user with no prepaid credit, the request is
    refused with [DailyLimitReached] as soon as the user has
    [DAILY_FREE_LIMIT] usage events in the trailing 24 hours (the refusal
    carries that count and the limit), and is let through by the daily
    quota branch without any change of state when the count is below the
    limit. *)
Theorem C3_daily_limit env sub cookie s uid u :
  get_current_user sub s = Some (uid, u) →
  is_verified u = true → free_credits u = 0 →
  (used_in_window (e_now_count env) uid s = DAILY_FREE_LIMIT →
     ∃ wait, enforce_credits env (get_current_user sub s) cookie s =
               (s, DailyLimitReached DAILY_FREE_LIMIT DAILY_FREE_LIMIT wait))
  ∧ (DAILY_FREE_LIMIT ≤ used_in_window (e_now_count env) uid s →
     ∃ wait, enforce_credits env (get_current_user sub s) cookie s =
               (s, DailyLimitReached (used_in_window (e_now_count env) uid s)
                     DAILY_FREE_LIMIT wait))
  ∧ (used_in_window (e_now_count env) uid s < DAILY_FREE_LIMIT →
     enforce_credits env (get_current_user sub s) cookie s =
       (s, Allowed DailyQuota (WhoUser uid))).
Proof.
  intros Hcur Hv Hc. destruct (get_current_user_Some _ _ _ _ Hcur) as [Hne Hu].
  rewrite Hcur, (enforce_window env cookie s uid u u) by (auto; lia).
  repeat split.
  - intros ->. rewrite Z.leb_refl. eauto.
  - intros Hge. destruct (Z.leb_spec DAILY_FREE_LIMIT (used_in_window (e_now_count env) uid s));
      [eauto|lia].
  - intros Hlt. destruct (Z.leb_spec DAILY_FREE_LIMIT (used_in_window (e_now_count env) uid s));
      [lia|done].
Qed.

(** C2: a fresh guest, that is a guest id that is either unknown (the
    first request enrols it with two credits, whether the id comes from a
    cookie or is drawn for a request without one) or already stored with
    two credits (for instance by an earlier status query), is let through
    twice, each time losing one credit, and the third request is refused
    with [GuestCreditsExhausted] and the call to action [register],
    whatever the usage log holds in between; more generally a guest with
    no credit left is always refused, the usage log playing no part. *)
Theorem C2_guest_two_tries env1 env2 env3 cookie1 logs1 logs2 s :
  let gid := resolve_gid cookie1 (e_uuid env1) in
  nonempty gid = true →
  (guests s !! gid = None ∨ ∃ g, guests s !! gid = Some g ∧ credits g = 2) →
  let r1 := enforce_credits env1 None cookie1 s in
  let r2 := enforce_credits env2 None (Some gid) (set_generation_logs logs1 r1.1) in
  let r3 := enforce_credits env3 None (Some gid) (set_generation_logs logs2 r2.1) in
  (r1.2 = Allowed GuestCredit (WhoGuest gid) ∧ credits <$> guests r1.1 !! gid = Some 1)
  ∧ (r2.2 = Allowed GuestCredit (WhoGuest gid) ∧ credits <$> guests r2.1 !! gid = Some 0)
  ∧ (r3.2 = GuestCreditsExhausted "register" ∧ credits <$> guests r3.1 !! gid = Some 0)
  ∧ (∀ env s' g, guests s' !! gid = Some g → credits g ≤ 0 →
       (enforce_credits env None (Some gid) s').2 = GuestCreditsExhausted "register" ∧
       credits <$> guests (enforce_credits env None (Some gid) s').1 !! gid
         = Some (credits g)).
Proof.
  intros gid Hgid Hfresh r1 r2 r3.
  assert (H1 : ∃ g1, r1 = (set_guests (<[gid := g1]> (guests s)) s,
                           Allowed GuestCredit (WhoGuest gid)) ∧ credits g1 = 1).
  { subst r1. destruct Hfresh as [Hnone|(g & Hg & Hc)].
    - rewrite (enforce_guest_new env1 cookie1 s Hnone). eauto.
    - rewrite (enforce_guest_known env1 cookie1 s g Hg) by lia.
      eexists. split; [reflexivity|]. cbn. lia. }
  destruct H1 as (g1 & Hr1 & Hc1).
  assert (H2 : ∃ g2, r2 = (set_guests (<[gid := g2]> (guests s))
                             (set_generation_logs logs1 s),
                           Allowed GuestCredit (WhoGuest gid)) ∧ credits g2 = 0).
  { subst r2. rewrite Hr1. cbn [fst].
    rewrite (enforce_guest_debit env2 _ gid g1)
      by (cbn; rewrite ?lookup_insert_eq; done || lia).
    eexists. split.
    - unfold set_guests, set_generation_logs. cbn. by rewrite insert_insert_eq.
    - cbn. lia. }
  destruct H2 as (g2 & Hr2 & Hc2).
  assert (H3 : r3 = (set_guests (<[gid := with_last_seen (e_now_seen env3) g2]> (guests s))
                       (set_generation_logs logs2 s),
                     GuestCreditsExhausted "register")).
  { subst r3. rewrite Hr2. cbn [fst].
    rewrite (enforce_guest_exhausted env3 _ gid g2)
      by (cbn; rewrite ?lookup_insert_eq; done || lia).
    unfold set_guests, set_generation_logs. cbn. by rewrite insert_insert_eq. }
  rewrite Hr1, Hr2, H3. cbn. rewrite !lookup_insert_eq. cbn.
  rewrite Hc1, Hc2.
  repeat split; try done.
  all: rewrite (enforce_guest_exhausted env s' gid g) by done; cbn;
    by rewrite ?lookup_insert_eq.
Qed.

Lemma C5_prepaid_first_witness :
  let u := mkUser "a@b.c" "h" true 1 true 0 None in
  let s := state_with u [noon - hour; noon - 2 * hour; noon - 3 * hour] in
  let r := enforce_credits (env_at noon) (get_current_user (Some 1) s) None s in
  get_current_user (Some 1) s = Some (1, u) ∧
  used_in_window noon 1 s = 3 ∧
  r.2 = Allowed Prepaid (WhoUser 1) ∧
  free_credits <$> users r.1 !! 1 = Some 0 ∧
  generation_logs r.1 = generation_logs s.
Proof.
  intros u s r. split; [reflexivity|]. split; [reflexivity|].
  destruct (C5_prepaid_first (env_at noon) (Some 1) None s 1 u eq_refl) as [H _].
  destruct H as (Hd & (u' & Hu' & _ & Hc & _) & _ & _ & Hl & _);
    [reflexivity | simpl; lia |].
  fold r in Hd, Hu', Hl. split; [exact Hd|]. split; [|exact Hl].
  rewrite Hu'. cbn. by rewrite Hc.
Defined.

Lemma C3_daily_limit_witness :
  let s := state_with alice [noon - hour; noon - 2 * hour] in
  get_current_user (Some 1) s = Some (1, alice) ∧
  used_in_window noon 1 s = DAILY_FREE_LIMIT ∧
  ∃ wait, enforce_credits (env_at noon) (get_current_user (Some 1) s) None s =
            (s, DailyLimitReached DAILY_FREE_LIMIT DAILY_FREE_LIMIT wait).
Proof.
  intros s. split; [reflexivity|]. split; [reflexivity|].
  apply (C3_daily_limit (env_at noon) (Some 1) None s 1 alice);
    reflexivity.
Defined.

Lemma C2_guest_two_tries_witness :
  let env := env_at noon in
  let s := (credits_route (credits_env_at noon) None (Some "visitor") empty_state).1 in
  let r1 := enforce_credits env None (Some "visitor") s in
  let r2 := enforce_credits env None (Some "visitor") r1.1 in
  let r3 := enforce_credits env None (Some "visitor") r2.1 in
  (nonempty "visitor" = true ∧ credits <$> guests s !! "visitor" = Some 2) ∧
  r1.2 = Allowed GuestCredit (WhoGuest "visitor") ∧
  r2.2 = Allowed GuestCredit (WhoGuest "visitor") ∧
  r3.2 = GuestCreditsExhausted "register".
Proof.
  intros env s r1 r2 r3. split; [split; reflexivity|].
  pose proof (C2_guest_two_tries env env env (Some "visitor") [] [] s
                (eq_refl : nonempty (resolve_gid (Some "visitor") (e_uuid env)) = true)
                (or_intror (ex_intro _ (mkGuest 2 noon noon) (conj eq_refl eq_refl))))
    as H.
  cbv zeta in H. destruct H as ((H1 & _) & (H2 & _) & (H3 & _) & _).
  split; [exact H1|]. split; [exact H2|exact H3].
Defined.

(** ** Reading a refusal backwards *)

Lemma enforce_denied_429 env user cookie s s' used lim wait :
  enforce_credits env user cookie s = (s', DailyLimitReached used lim wait) →
  s' = s ∧ lim = DAILY_FREE_LIMIT ∧ DAILY_FREE_LIMIT ≤ used ∧
  ∃ uid u0,
    user = Some (uid, u0) ∧
    used = count_last_24h (e_now_count env) (Some uid) None s ∧
    wait = retry_after
             (next_available_ts (e_local_to_seconds env) (e_now_next env) uid s)
             (timestamp (e_local_to_seconds env) (e_now_wait env)).
Proof.
  unfold enforce_credits. destruct user as [[uid u0]|].
  - destruct (users s !! uid) as [u|]; [|done].
    destruct (is_verified u && (0 <? free_credits u)); [done|].
    destruct (Z.leb_spec DAILY_FREE_LIMIT
                (count_last_24h (e_now_count env) (Some uid) None s)); [|done].
    intros [= <- <- <- <-]. eauto 8.
  - destruct (get_or_create_guest _ _ _ _) as (s1 & gid & g).
    destruct (guests s1 !! gid) as [gg|]; [|done].
    by destruct (credits gg <=? 0).
Qed.


Lemma enforce_allowed env user cookie s s' b who :
  enforce_credits env user cookie s = (s', Allowed b who) →
  generation_logs s' = generation_logs s ∧ uploads s' = uploads s ∧
  match user with
  | Some (uid, _) => who = WhoUser uid ∧ (b = Prepaid ∨ b = DailyQuota)
  | None => who = WhoGuest (resolve_gid cookie (e_uuid env)) ∧ b = GuestCredit
  end.
Proof.
  unfold enforce_credits. destruct user as [[uid u0]|].
  - destruct (users s !! uid) as [u|]; [|done].
    destruct (is_verified u && (0 <? free_credits u)).
    + intros [= <- <- <-]. auto.
    + destruct (DAILY_FREE_LIMIT <=? _); [done|]. intros [= <- <- <-]. auto.
  - unfold get_or_create_guest.
    destruct (guests s !! resolve_gid cookie (e_uuid env)) as [g|] eqn:Hg;
      cbn; rewrite lookup_insert_eq; cbn.
    + destruct (credits g <=? 0); [done|]. intros [= <- <- <-]. auto.
    + intros [= <- <- <-]. auto.
Qed.

(** The refusal of a user: the count is the one of the window ending at
    the first clock read; the wait is 3600 when the window ending at the
    second clock read holds fewer than [DAILY_FREE_LIMIT] events, and is
    otherwise computed from the timestamps of [t_k + 24h] and of the
    third clock read, [t_k] being the [DAILY_FREE_LIMIT]-th most recent
    event of that window. *)
Lemma denial_cases env sub cookie s s' used lim wait :
  enforce_credits env (get_current_user sub s) cookie s
    = (s', DailyLimitReached used lim wait) →
  s' = s ∧ lim = DAILY_FREE_LIMIT ∧
  ∃ uid u,
    get_current_user sub s = Some (uid, u) ∧
    used = used_in_window (e_now_count env) uid s ∧
    DAILY_FREE_LIMIT ≤ used ∧
    ((used_in_window (e_now_next env) uid s < DAILY_FREE_LIMIT ∧
      next_available_ts (e_local_to_seconds env) (e_now_next env) uid s = None ∧
      wait = 3600) ∨
     (DAILY_FREE_LIMIT ≤ used_in_window (e_now_next env) uid s ∧
      ∃ t_k,
        next_available_ts (e_local_to_seconds env) (e_now_next env) uid s
          = Some (timestamp (e_local_to_seconds env) (t_k + timedelta_hours 24)) ∧
        kth_most_recent (Z.to_nat DAILY_FREE_LIMIT) t_k
          (created_at <$> user_window (e_now_next env) uid s) ∧
        e_now_next env - timedelta_hours 24 ≤ t_k ∧
        wait = retry_after
                 (Some (timestamp (e_local_to_seconds env) (t_k + timedelta_hours 24)))
                 (timestamp (e_local_to_seconds env) (e_now_wait env)))).
Proof.
  intros Henf.
  apply enforce_denied_429 in Henf
    as (-> & -> & Hge & uid & u0 & Hcur & -> & ->).
  destruct (get_current_user_Some _ _ _ _ Hcur) as [Hne Hu].
  rewrite count_last_24h_user in * by done.
  split; [done|]. split; [done|]. exists uid, u0.
  do 3 (split; [done|]).
  destruct (next_available_ts (e_local_to_seconds env) (e_now_next env) uid s)
    as [ts|] eqn:Hts.
  - right. destruct (next_available_ts_Some _ _ _ _ _ Hts) as (t_k & -> & Hk & Hwin).
    split.
    { destruct (Z.lt_ge_cases (used_in_window (e_now_next env) uid s) DAILY_FREE_LIMIT)
        as [Hlt|]; [|done].
      apply next_available_ts_None with (tz := e_local_to_seconds env) in Hlt.
      congruence. }
    by exists t_k.
  - left. split; [|done]. by apply next_available_ts_None in Hts.
Qed.

(** C4 (amended): the [retry_after_seconds] of a [DailyLimitReached]
    refusal is a whole number of seconds, never negative. It is 3600 when
    [next_available_ts] finds fewer than [DAILY_FREE_LIMIT] events in its
    window; otherwise, [t_k] being the [DAILY_FREE_LIMIT]-th most recent
    usage event of the user in the trailing 24-hour window, it is computed
    from the timestamps of [t_k + 24h] and of the clock read [now]: when
    both lie between 1970 and 2106 and the local zone of the server has
    the same UTC offset at both, it is the whole seconds of
    [(t_k + 24h) - now] or one second less
    ([retry_after <= max(0, (t_k + 24h) - now) <= retry_after + 1 s]);
    it is then 0 when less than a second is left, and at most 24 hours
    when [t_k] is not later than [now]. *)
Theorem C4_retry_after env sub cookie s s' used lim wait :
  enforce_credits env (get_current_user sub s) cookie s
    = (s', DailyLimitReached used lim wait) →
  let tz := e_local_to_seconds env in
  let now := e_now_wait env in
  0 ≤ wait ∧
  ∃ uid u,
    get_current_user sub s = Some (uid, u) ∧
    (used_in_window (e_now_next env) uid s < DAILY_FREE_LIMIT → wait = 3600) ∧
    (DAILY_FREE_LIMIT ≤ used_in_window (e_now_next env) uid s →
     ∃ t_k,
       kth_most_recent (Z.to_nat DAILY_FREE_LIMIT) t_k
         (created_at <$> user_window (e_now_next env) uid s) ∧
       wait = retry_after (Some (timestamp tz (t_k + timedelta_hours 24)))
                (timestamp tz now) ∧
       (in_double_range tz (t_k + timedelta_hours 24) → in_double_range tz now →
        same_offset tz (t_k + timedelta_hours 24) now →
          wait * usec_per_sec ≤ Z.max 0 (t_k + timedelta_hours 24 - now)
            ≤ wait * usec_per_sec + usec_per_sec ∧
          (t_k + timedelta_hours 24 - now < usec_per_sec → wait = 0) ∧
          (t_k ≤ now → wait ≤ 24 * 3600))).
Proof.
  intros Henf tz now.
  destruct (denial_cases _ _ _ _ _ _ _ _ Henf)
    as (_ & _ & uid & u & Hcur & _ & _ & Hcases).
  split.
  { destruct Hcases as [(_ & _ & ->)|(_ & t_k & _ & _ & _ & ->)];
      [lia|apply retry_after_nonneg]. }
  exists uid, u. split; [done|]. split.
  { intros Hlt. destruct Hcases as [(_ & _ & ->)|(Hge & _)]; [done|lia]. }
  intros Hge. destruct Hcases as [(Hlt & _)|(_ & t_k & _ & Hk & _ & ->)]; [lia|].
  exists t_k. split; [done|]. split; [done|].
  intros Ha Hb Hab.
  pose proof (retry_after_timestamps tz _ _ Ha Hb Hab) as Hw. cbv zeta in Hw.
  pose proof (retry_after_nonneg
                (Some (timestamp tz (t_k + timedelta_hours 24))) (timestamp tz now))
    as H0.
  fold tz now. fold tz now in H0.
  set (w := retry_after _ _) in *. clearbody w.
  split; [exact Hw|].
  unfold timedelta_hours, usec_per_sec in *. split; intros; lia.
Qed.

Lemma C4_retry_after_witness :
  let s := state_with alice [noon - hour; noon - 2 * hour] in
  let now := noon in
  let t_k := noon - 2 * hour in
  enforce_credits (env_at noon) (get_current_user (Some 1) s) None s
    = (s, DailyLimitReached 2 2 79200) ∧
  kth_most_recent 2 t_k (created_at <$> user_window noon 1 s) ∧
  79200 * usec_per_sec ≤ Z.max 0 (t_k + timedelta_hours 24 - now)
    ≤ 79200 * usec_per_sec + usec_per_sec ∧
  79200 ≤ 24 * 3600.
Proof.
  intros s now t_k.
  assert (H : enforce_credits (env_at noon) (get_current_user (Some 1) s) None s
              = (s, DailyLimitReached 2 2 79200)) by (vm_compute; reflexivity).
  split; [exact H|].
  destruct (C4_retry_after (env_at noon) (Some 1) None s s 2 2 79200 H)
    as (_ & uid & u & Hcur & _ & Hsome).
  assert (uid = 1) as -> by (by injection Hcur as <- _).
  destruct Hsome as (t & Hk & _ & Hb); [vm_compute; congruence|].
  assert (t = t_k) as ->.
  { destruct Hk as (Hin & _ & Hle). vm_compute in Hin.
    apply elem_of_cons in Hin as [->|Hin]; [|by apply list_elem_of_singleton in Hin].
    vm_compute in Hle. lia. }
  split; [exact Hk|].
  destruct Hb as (Hw & _ & Hday); [vm_compute; split; congruence..|reflexivity|].
  split; [exact Hw|]. apply Hday. vm_compute. congruence.
Defined.

(** C4 as stated fails on five counts, each shown on a user whose two
    events are both inside the window: with the older event exactly 24
    hours old the wait is 0, not positive; with the events half a second
    old the wait is 86399 s, not the 86399.5 s of [(t_k + 24h) - now];
    on a server on New York time, two events made one second before a
    clock read of 2023-11-04 12:00:00 (the day before clocks go back)
    give a wait of 89999 s, more than 24 hours; across the POSIX time
    [2^31] (January 2038), with exactly 82800 s left, the wait is 82799
    by the rounding of the two timestamps; and when the older event is
    exactly 24 hours old at the clock read of the count and the clock has
    moved on by a microsecond at the next read, the wait is the default
    of 3600 s. *)
Lemma C4_counterexample :
  let s0 := state_with alice [noon - hour; noon - day] in
  let s1 := state_with alice [noon - 500000; noon - 500000] in
  let nov4 := 1699099200 * usec_per_sec in
  let s2 := state_with alice [nov4 - usec_per_sec; nov4 - usec_per_sec] in
  let y2038 := 2147483638 * usec_per_sec + 15 in
  let s3 := state_with alice [y2038 - hour; y2038 - hour] in
  (∃ wait, enforce_credits (env_at noon) (get_current_user (Some 1) s0) None s0
             = (s0, DailyLimitReached 2 2 wait) ∧ ¬ 0 < wait)
  ∧ (∃ wait t_k,
       enforce_credits (env_at noon) (get_current_user (Some 1) s1) None s1
         = (s1, DailyLimitReached 2 2 wait) ∧
       kth_most_recent 2 t_k (created_at <$> user_window noon 1 s1) ∧
       wait * usec_per_sec ≠ t_k + day - noon)
  ∧ (∃ wait,
       enforce_credits (env_in new_york_2023 nov4) (get_current_user (Some 1) s2) None s2
         = (s2, DailyLimitReached 2 2 wait) ∧ ¬ wait ≤ 24 * 3600)
  ∧ (∃ wait t_k,
       enforce_credits (env_at y2038) (get_current_user (Some 1) s3) None s3
         = (s3, DailyLimitReached 2 2 wait) ∧
       kth_most_recent 2 t_k (created_at <$> user_window y2038 1 s3) ∧
       t_k + day - y2038 = 82800 * usec_per_sec ∧ wait = 82799)
  ∧ (let env := mkStyleEnv 0 "" noon noon (noon + 1) (noon + 2) (inl "") 0 noon utc in
     ∃ wait t_k,
       enforce_credits env (get_current_user (Some 1) s0) None s0
         = (s0, DailyLimitReached 2 2 wait) ∧
       kth_most_recent 2 t_k (created_at <$> user_window (e_now_count env) 1 s0) ∧
       t_k + day - e_now_wait env < 0 ∧ wait = 3600).
Proof.
  intros s0 s1 nov4 s2 y2038 s3. split; [|split; [|split; [|split]]].
  - exists 0. split; [vm_compute; reflexivity|lia].
  - exists 86399, (noon - 500000). split; [vm_compute; reflexivity|]. split.
    + split; [left|]. split; vm_compute; lia.
    + vm_compute. congruence.
  - exists 89999. split; [vm_compute; reflexivity|lia].
  - exists 82799, (y2038 - hour). split; [vm_compute; reflexivity|]. split.
    + split; [left|]. split; vm_compute; lia.
    + split; reflexivity.
  - intros env. exists 3600, (noon - day). split; [vm_compute; reflexivity|]. split.
    + split; [right; left|]. split; vm_compute; lia.
    + split; reflexivity.
Qed.




(** ** The generation route as a whole *)

Lemma enforce_frame env user cookie s :
  uploads (enforce_credits env user cookie s).1 = uploads s ∧
  generation_logs (enforce_credits env user cookie s).1 = generation_logs s ∧
  email_tokens (enforce_credits env user cookie s).1 = email_tokens s.
Proof.
  unfold enforce_credits. destruct user as [[uid u0]|].
  - destruct (users s !! uid) as [u|]; [|done].
    destruct (is_verified u && (0 <? free_credits u)); [done|].
    by destruct (DAILY_FREE_LIMIT <=? _).
  - unfold get_or_create_guest.
    destruct (guests s !! resolve_gid cookie (e_uuid env)) as [g|];
      cbn; rewrite lookup_insert_eq; cbn; [|done].
    by destruct (credits g <=? 0).
Qed.

Lemma generate_frame P env req name s :
  users (generate P env req name s).1 = users s ∧
  guests (generate P env req name s).1 = guests s ∧
  generation_logs (generate P env req name s).1 = generation_logs s ∧
  (∀ k, is_Some (uploads s !! k) → is_Some (uploads (generate P env req name s).1 !! k)).
Proof.
  unfold generate. destruct (String.eqb P "mock"); [done|].
  destruct (String.eqb P "stability"); [|done].
  destruct (e_provider env) as [e|png]; [done|]. cbn.
  do 3 (split; [done|]). intros k Hk.
  rewrite lookup_insert. by case_decide.
Qed.


Lemma style_image_valid P env req s :
  valid_image req → writable_name (safe_name_of env req) = true →
  style_image P env req s =
    match enforce_credits env (get_current_user (auth_sub req) s) (guest_cookie req)
            (store_upload env req s) with
    | (s, Crash) => (s, Http500)
    | (s, DailyLimitReached used lim wait) => (s, Json429 used lim wait)
    | (s, GuestCreditsExhausted cta) => (s, Json402 cta)
    | (s, Allowed _ who) =>
        match generate P env req (safe_name_of env req) s with
        | (s, None) => (s, Json400 "Unknown AI provider")
        | (s, Some payload) => (log_identity (e_now_log env) who s, Json200 payload)
        end
    end.
Proof.
  intros [Hct Hlen] Hw. unfold style_image. rewrite Hct. cbn [negb].
  destruct (Z.ltb_spec max_upload_bytes (Z.of_nat (length (contents req)))); [lia|].
  by rewrite Hw.
Qed.


Lemma log_identity_frame now who s :
  users (log_identity now who s) = users s ∧
  guests (log_identity now who s) = guests s ∧
  uploads (log_identity now who s) = uploads s.
Proof. by destruct who. Qed.

(** C10 fails on the code: a valid image whose client file name holds a
    [/] makes [write_bytes] raise; the request is answered 500 and no
    file is stored, whether the sender is a guest out of credit, who
    would have been refused, or a new visitor, who would have been let
    through. The enforcement block is not reached: no guest is enrolled,
    no [last_seen] refreshed. *)
Theorem C10_unwritable_upload_not_stored :
  let req := mkStyleRequest None (Some "visitor") (Some "image/png") "a/b.png" []
               "cozy" "" "http://127.0.0.1:8000/" in
  let s := mkState ∅ [] {[ "visitor" := mkGuest 0 0 0 ]} [] ∅ in
  valid_image req ∧
  style_image "mock" (env_at noon) req s = (s, Http500) ∧
  style_image "mock" (env_at noon) req empty_state = (empty_state, Http500) ∧
  (enforce_credits (env_at noon) None (Some "visitor") s).2
    = GuestCreditsExhausted "register".
Proof.
  intros req s.
  assert (Hv : valid_image req).
  { split; [reflexivity|]. vm_compute. congruence. }
  split; [exact Hv|]. repeat split; vm_compute; reflexivity.
Qed.

(** C7 (amended): when the configured provider is [mock] or
    [stability], every request the enforcement block lets through ends
    with exactly one usage event appended to the log, carrying the acting
    identity (the user id of the session, or the guest id of the cookie)
    and the clock read of the insertion, whether the provider call
    returned an image or raised, and whichever branch let the request
    through. The request has reached the enforcement block: its image is
    valid and has been written under its upload name. *)
Theorem C7_usage_logged P env req s s1 b who :
  P = "mock" ∨ P = "stability" →
  valid_image req →
  writable_name (safe_name_of env req) = true →
  enforce_credits env (get_current_user (auth_sub req) s) (guest_cookie req)
    (store_upload env req s) = (s1, Allowed b who) →
  (∃ payload, (style_image P env req s).2 = Json200 payload) ∧
  (∃ row,
     generation_logs (style_image P env req s).1 = (generation_logs s ++ [row])%list ∧
     created_at row = e_now_log env ∧
     match get_current_user (auth_sub req) s with
     | Some (uid, _) =>
         who = WhoUser uid ∧ user_id row = Some uid ∧ guest_id row = None
     | None =>
         who = WhoGuest (resolve_gid (guest_cookie req) (e_uuid env)) ∧
         user_id row = None ∧
         guest_id row = Some (resolve_gid (guest_cookie req) (e_uuid env))
     end).
Proof.
  intros HP Hvalid Hw Henf.
  rewrite (style_image_valid _ _ _ _ Hvalid Hw), Henf.
  apply enforce_allowed in Henf as (Hlog & _ & Hwho).
  change (generation_logs (store_upload env req s)) with (generation_logs s) in Hlog.
  pose proof (generate_frame P env req (safe_name_of env req) s1)
    as (_ & _ & Hglog & _).
  assert (Hsome : ∃ payload, (generate P env req (safe_name_of env req) s1).2
                             = Some payload).
  { unfold generate. destruct HP as [-> | ->]; cbn; [eauto|].
    destruct (e_provider env); eauto. }
  destruct Hsome as [payload Hpayload].
  destruct (generate P env req (safe_name_of env req) s1) as [s2 o].
  cbn in Hpayload, Hglog. subst o. cbn.
  split; [eauto|].
  destruct (get_current_user (auth_sub req) s) as [[uid u0]|].
  - destruct Hwho as [-> _]. cbn. rewrite Hglog, Hlog. eauto 6.
  - destruct Hwho as [-> _]. cbn. rewrite Hglog, Hlog. eauto 6.
Qed.

Lemma C7_usage_logged_witness :
  let env := env_at noon in
  let req := png_upload None None in
  (valid_image req ∧ writable_name (safe_name_of env req) = true ∧
   enforce_credits env (get_current_user None empty_state) None
     (store_upload env req empty_state)
   = (set_guests {[ e_uuid env := mkGuest 1 noon noon ]}
        (store_upload env req empty_state),
      Allowed GuestCredit (WhoGuest (e_uuid env)))) ∧
  (∃ payload, (style_image "stability" env req empty_state).2 = Json200 payload) ∧
  ∃ row,
    generation_logs (style_image "stability" env req empty_state).1 = [row] ∧
    created_at row = noon ∧
    WhoGuest (e_uuid env) = WhoGuest (e_uuid env) ∧
    user_id row = None ∧ guest_id row = Some (e_uuid env).
Proof.
  intros env req.
  assert (Hv : valid_image req).
  { split; [reflexivity|]. vm_compute. congruence. }
  assert (Hw : writable_name (safe_name_of env req) = true) by reflexivity.
  assert (He : enforce_credits env (get_current_user None empty_state) None
                 (store_upload env req empty_state)
               = (set_guests {[ e_uuid env := mkGuest 1 noon noon ]}
                    (store_upload env req empty_state),
                  Allowed GuestCredit (WhoGuest (e_uuid env)))) by reflexivity.
  split; [auto|].
  exact (C7_usage_logged "stability" env req empty_state _ _ _
           (or_intror eq_refl) Hv Hw He).
Defined.

(** C7 as stated fails: with any other provider name a guest request is
    let through and debited, then answered 400 with no usage event. *)
Lemma C7_counterexample :
  let env := env_at noon in
  let req := png_upload None None in
  let r := style_image "dalle" env req empty_state in
  (enforce_credits env (get_current_user None empty_state) None
     (store_upload env req empty_state)).2
    = Allowed GuestCredit (WhoGuest (e_uuid env)) ∧
  r.2 = Json400 "Unknown AI provider" ∧
  credits <$> guests r.1 !! e_uuid env = Some 1 ∧
  generation_logs r.1 = [].
Proof. intros env req r. repeat split; reflexivity. Qed.

(** ** The status route *)

(** C6 (amended): the status route never changes a user row, an email
    token, the usage log, the upload directory or the balance of an
    existing guest. For a signed-in user it leaves the whole state as it
    is and reports the stored address, verification flag and balance, the
    limit, as [used_last_24h] the count of the 24 hours before its first
    clock read, and [next_available_ts], which is null exactly when fewer
    than [DAILY_FREE_LIMIT] events of the user lie in the 24 hours before
    its second clock read, so, the two reads being equal, exactly when
    the reported [used_last_24h] is below the reported limit; when not
    null it is the timestamp of [t_k + 24h], the user's balance playing
    no part. For any other request it resolves the guest itself: the
    guest row is created with 2 credits when missing, its [last_seen] is
    refreshed otherwise, and [next_available_ts] is null. *)
Theorem C6_status_frame env sub cookie s :
  let r := credits_route env sub cookie s in
  users r.1 = users s ∧ email_tokens r.1 = email_tokens s ∧
  generation_logs r.1 = generation_logs s ∧ uploads r.1 = uploads s ∧
  (∀ gid g, guests s !! gid = Some g →
            credits <$> guests r.1 !! gid = Some (credits g)) ∧
  match get_current_user sub s with
  | Some (uid, u) =>
      r.1 = s ∧
      ∃ summary,
        r.2 = Some summary ∧
        kind summary = "user" ∧ s_email summary = Some (email u) ∧
        verified summary = is_verified u ∧
        s_free_credits summary = Some (free_credits u) ∧
        guest_credits summary = None ∧
        daily_limit summary = DAILY_FREE_LIMIT ∧
        s_used_last_24h summary = used_in_window (c_now_count env) uid s ∧
        (s_next_available_ts summary = None ↔
         used_in_window (c_now_next env) uid s < DAILY_FREE_LIMIT) ∧
        (c_now_next env = c_now_count env →
         (s_next_available_ts summary = None ↔
          s_used_last_24h summary < daily_limit summary)) ∧
        (∀ ts, s_next_available_ts summary = Some ts →
           ∃ t_k, kth_most_recent (Z.to_nat DAILY_FREE_LIMIT) t_k
                    (created_at <$> user_window (c_now_next env) uid s) ∧
                  ts = timestamp (c_local_to_seconds env) (t_k + timedelta_hours 24))
  | None =>
      let gid := resolve_gid cookie (c_uuid env) in
      let g' := match guests s !! gid with
                | Some g => with_last_seen (c_now_seen env) g
                | None => mkGuest 2 (c_now_seen env) (c_now_seen env)
                end in
      guests r.1 = <[gid := g']> (guests s) ∧
      r.2 = Some (mkCreditsSummary "guest" None false None (Some (credits g')) 0
                    (count_last_24h (c_now_count env) None (Some gid) s) None)
  end.
Proof.
  intros r. subst r. unfold credits_route.
  destruct (get_current_user sub s) as [[uid u]|] eqn:Hcur.
  - destruct (get_current_user_Some _ _ _ _ Hcur) as [Hne Hu].
    rewrite Hu. cbn. rewrite count_last_24h_user by done.
    do 4 (split; [done|]). split; [by intros gid g ->|].
    split; [done|]. eexists. split; [reflexivity|]. cbn.
    do 7 (split; [done|]).
    split; [apply next_available_ts_None|]. split.
    + intros ->. apply next_available_ts_None.
    + intros ts Hts.
      destruct (next_available_ts_Some _ _ _ _ _ Hts) as (t_k & -> & Hk & _). eauto.
  - unfold get_or_create_guest.
    destruct (guests s !! resolve_gid cookie (c_uuid env)) as [g|] eqn:Hg; cbn.
    + do 4 (split; [done|]). split; [|done].
      intros gid g0 Hg0. rewrite lookup_insert. case_decide; [|by rewrite Hg0].
      subst gid. rewrite Hg in Hg0. by injection Hg0 as ->.
    + do 4 (split; [done|]). split; [|done].
      intros gid g0 Hg0. rewrite lookup_insert. case_decide; [|by rewrite Hg0].
      subst gid. by rewrite Hg in Hg0.
Qed.

(** C6 as stated fails: a status query by a new visitor creates a guest
    row holding 2 credits; and a verified user with a prepaid credit and
    two recent events is let through while the status query reports a
    non-null [next_available_ts]. *)
Lemma C6_counterexample :
  let cenv := credits_env_at noon in
  let u := mkUser "a@b.c" "h" true 1 true 0 None in
  let s := state_with u [noon - hour; noon - 2 * hour] in
  (guests empty_state !! c_uuid cenv = None ∧
   guests (credits_route cenv None None empty_state).1 !! c_uuid cenv
     = Some (mkGuest 2 noon noon) ∧
   entitlement_view (credits_route cenv None None empty_state).1
     ≠ entitlement_view empty_state)
  ∧ ((enforce_credits (env_at noon) (get_current_user (Some 1) s) None s).2
       = Allowed Prepaid (WhoUser 1) ∧
     s_next_available_ts <$> (credits_route cenv (Some 1) None s).2
       = Some (Some (timestamp utc (noon - 2 * hour + day)))).
Proof.
  intros cenv u s. split; [|split; vm_compute; reflexivity].
  split; [reflexivity|]. split; [reflexivity|].
  intros Heq.
  assert (H : (entitlement_view (credits_route cenv None None empty_state).1).1.2
              !! c_uuid cenv
              = (entitlement_view empty_state).1.2 !! c_uuid cenv)
    by (by rewrite Heq).
  vm_compute in H. congruence.
Qed.

(** ** Balances stay non-negative *)

Lemma balances_nonneg_ext s s' :
  users s' = users s → guests s' = guests s →
  balances_nonneg s → balances_nonneg s'.
Proof. unfold balances_nonneg. by intros -> ->. Qed.

Lemma nonneg_put_user s k u :
  balances_nonneg s → 0 ≤ free_credits u →
  balances_nonneg (set_users (<[k := u]> (users s)) s).
Proof.
  intros [Hu Hg] Hc. split; [|done]. cbn. by apply map_Forall_insert_2.
Qed.

Lemma nonneg_put_guest s k g :
  balances_nonneg s → 0 ≤ credits g →
  balances_nonneg (set_guests (<[k := g]> (guests s)) s).
Proof.
  intros [Hu Hg] Hc. split; [done|]. cbn. by apply map_Forall_insert_2.
Qed.

Lemma nonneg_user s k u :
  balances_nonneg s → users s !! k = Some u → 0 ≤ free_credits u.
Proof. intros [Hu _] Hk. exact (Hu k u Hk). Qed.

Lemma nonneg_guest s k g :
  balances_nonneg s → guests s !! k = Some g → 0 ≤ credits g.
Proof. intros [_ Hg] Hk. exact (Hg k g Hk). Qed.

Lemma user_by_email_lookup e s uid u :
  user_by_email e s = Some (uid, u) → users s !! uid = Some u.
Proof.
  unfold user_by_email.
  destruct (list_find _ _) as [[i [k v]]|] eqn:Hfind; [|done].
  cbn. intros [= <- <-].
  apply list_find_Some in Hfind as (Hi & _ & _).
  apply elem_of_map_to_list. by eapply list_elem_of_lookup_2.
Qed.

Lemma verify_and_claim_credits u :
  free_credits (verify_and_claim u)
  = free_credits u + (if verify_bonus_claimed u then 0 else 2).
Proof. unfold verify_and_claim. destruct (verify_bonus_claimed u); cbn; lia. Qed.

(** The grant is idempotent: a second verification adds nothing. *)
Lemma verify_and_claim_idempotent u :
  verify_and_claim (verify_and_claim u) = verify_and_claim u.
Proof. unfold verify_and_claim. by destruct (verify_bonus_claimed u). Qed.

Lemma new_email_token_frame now tok uid purp minutes s s' :
  new_email_token now tok uid purp minutes s = Some s' →
  users s' = users s ∧ guests s' = guests s.
Proof.
  unfold new_email_token. destruct (token_taken _ _); [done|].
  by intros [= <-].
Qed.

Lemma generate_otp_frame now code uid minutes s s' :
  generate_otp_for_user now code uid minutes s = Some s' →
  users s' = users s ∧ guests s' = guests s.
Proof.
  unfold generate_otp_for_user. destruct (token_taken _ _); [done|].
  by intros [= <-].
Qed.

Lemma register_nonneg env req s :
  balances_nonneg s → balances_nonneg (register env req s).1.
Proof.
  intros Hs. unfold register.
  destruct (negb _); [done|].
  destruct (user_by_email _ s); [done|].
  match goal with |- context [new_email_token ?a ?b ?c ?d ?e ?st] =>
    assert (Hput : balances_nonneg st) by (by apply nonneg_put_user);
    destruct (new_email_token a b c d e st) as [s1|] eqn:Htok end; [|done].
  apply new_email_token_frame in Htok as [Hu1 Hg1].
  assert (Hs1 : balances_nonneg s1) by (by eapply balances_nonneg_ext).
  destruct (generate_otp_for_user (reg_now env) (reg_otp env)
              (next_user_id (users s)) 15 s1) as [s2|] eqn:Hotp; cbn; [|done].
  apply generate_otp_frame in Hotp as [Hu2 Hg2].
  by eapply balances_nonneg_ext.
Qed.

Lemma verify_email_nonneg now tok s :
  balances_nonneg s → balances_nonneg (verify_email now tok s).1.
Proof.
  intros Hs. unfold verify_email.
  destruct (snd <$> list_find _ _) as [t|]; [|done].
  destruct (expires_at t <? now); [done|].
  destruct (users s !! tok_user_id t) as [u|] eqn:Hu; [|done].
  cbn. eapply balances_nonneg_ext; [| |apply (nonneg_put_user s (tok_user_id t)
    (verify_and_claim u) Hs)]; [done..|].
  rewrite verify_and_claim_credits. pose proof (nonneg_user _ _ _ Hs Hu).
  destruct (verify_bonus_claimed u); lia.
Qed.

Lemma request_otp_nonneg now code em s :
  balances_nonneg s → balances_nonneg (request_otp now code em s).1.
Proof.
  intros Hs. unfold request_otp.
  destruct (user_by_email _ s) as [[uid user]|]; [|done].
  destruct (is_verified user); [done|].
  destruct (generate_otp_for_user now code uid 15 s) as [s1|] eqn:Hotp; [|done].
  apply generate_otp_frame in Hotp as [Hu Hg]. by eapply balances_nonneg_ext.
Qed.

Lemma verify_otp_nonneg now em code s :
  balances_nonneg s → balances_nonneg (verify_otp now em code s).1.
Proof.
  intros Hs. unfold verify_otp.
  destruct (negb _); [done|].
  destruct (user_by_email _ s) as [[uid user]|] eqn:Hfind; [|done].
  apply user_by_email_lookup in Hfind.
  destruct (snd <$> list_find _ _) as [t|]; [|done].
  destruct (negb _); [done|].
  cbn. eapply balances_nonneg_ext; [| |apply (nonneg_put_user s uid
    (verify_and_claim user) Hs)]; [done..|].
  rewrite verify_and_claim_credits. pose proof (nonneg_user _ _ _ Hs Hfind).
  destruct (verify_bonus_claimed user); lia.
Qed.

Lemma login_nonneg now pw_ok req s :
  balances_nonneg s → balances_nonneg (login now pw_ok req s).1.
Proof.
  intros Hs. unfold login.
  destruct (negb _); [done|].
  destruct (user_by_email _ s) as [[uid user]|] eqn:Hfind; [|done].
  apply user_by_email_lookup in Hfind.
  destruct (negb pw_ok); [done|].
  cbn. apply nonneg_put_user; [done|]. cbn. by eapply nonneg_user.
Qed.

Lemma resend_verify_nonneg now tok sub s :
  balances_nonneg s → balances_nonneg (resend_verify now tok sub s).1.
Proof.
  intros Hs. unfold resend_verify.
  destruct (get_current_user sub s) as [[uid user]|]; [|done].
  destruct (is_verified user); [done|].
  destruct (new_email_token now tok uid "verify" (60 * 24 * 3) s) as [s1|] eqn:Htok;
    [|done].
  apply new_email_token_frame in Htok as [Hu Hg]. by eapply balances_nonneg_ext.
Qed.

Lemma google_callback_nonneg env req s :
  balances_nonneg s → balances_nonneg (google_callback env req s).1.
Proof.
  intros Hs. unfold google_callback.
  destruct (negb (truthy (gc_code req))); [done|].
  destruct (negb _); [done|].
  destruct (gc_userinfo env) as [[em ev]|]; [|done].
  destruct (negb _); [done|].
  destruct (user_by_email _ s) as [[uid user]|] eqn:Hfind.
  - apply user_by_email_lookup in Hfind.
    pose proof (nonneg_user _ _ _ Hs Hfind).
    cbn. apply nonneg_put_user; [done|].
    destruct ev; cbn; [|done].
    destruct (is_verified user); cbn;
      destruct (verify_bonus_claimed user); cbn; lia.
  - cbn. apply nonneg_put_user; [done|]. destruct ev; cbn; lia.
Qed.

Lemma google_idtoken_login_nonneg env id_token s :
  balances_nonneg s → balances_nonneg (google_idtoken_login env id_token s).1.
Proof.
  intros Hs. unfold google_idtoken_login.
  destruct (negb (truthy id_token)); [done|].
  destruct (it_claims env) as [[iss em]|]; [|done].
  destruct (negb _); [done|].
  destruct em as [e|]; [|done].
  destruct (negb (nonempty e)); [done|].
  destruct (user_by_email e s); [done|].
  cbn. apply nonneg_put_user; [done|]. cbn. lia.
Qed.

Lemma get_or_create_guest_nonneg now cookie uuid s :
  balances_nonneg s → balances_nonneg (get_or_create_guest now cookie uuid s).1.
Proof.
  intros Hs. unfold get_or_create_guest.
  destruct (guests s !! resolve_gid cookie uuid) as [g|] eqn:Hg; cbn.
  - apply nonneg_put_guest; [done|]. cbn. by eapply nonneg_guest.
  - apply nonneg_put_guest; [done|]. cbn. lia.
Qed.

Lemma credits_route_nonneg env sub cookie s :
  balances_nonneg s → balances_nonneg (credits_route env sub cookie s).1.
Proof.
  intros Hs. unfold credits_route.
  destruct (get_current_user sub s) as [[uid u0]|].
  - by destruct (users s !! uid).
  - pose proof (get_or_create_guest_nonneg (c_now_seen env) cookie (c_uuid env) s Hs).
    by destruct (get_or_create_guest _ _ _ _) as (s1 & gid & g).
Qed.

Lemma enforce_credits_nonneg env user cookie s :
  balances_nonneg s → balances_nonneg (enforce_credits env user cookie s).1.
Proof.
  intros Hs. unfold enforce_credits. destruct user as [[uid u0]|].
  - destruct (users s !! uid) as [u|] eqn:Hu; [|done].
    destruct (is_verified u); cbn; [destruct (Z.ltb_spec 0 (free_credits u))|].
    + cbn. apply nonneg_put_user; [done|]. cbn. lia.
    + by destruct (DAILY_FREE_LIMIT <=? _).
    + by destruct (DAILY_FREE_LIMIT <=? _).
  - pose proof (get_or_create_guest_nonneg (e_now_seen env) cookie (e_uuid env) s Hs)
      as Hs1.
    destruct (get_or_create_guest _ _ _ _) as (s1 & gid & g). cbn in Hs1.
    destruct (guests s1 !! gid) as [gg|] eqn:Hgg; [|done].
    destruct (Z.leb_spec (credits gg) 0); [done|].
    cbn. apply nonneg_put_guest; [done|]. cbn. lia.
Qed.

Lemma style_image_nonneg P env req s :
  balances_nonneg s → balances_nonneg (style_image P env req s).1.
Proof.
  intros Hs. unfold style_image.
  destruct (negb (String.prefix _ _)); [done|].
  destruct (max_upload_bytes <? _); [done|].
  destruct (negb (writable_name _)); [done|].
  match goal with |- context [enforce_credits ?e ?u ?c ?st] =>
    assert (Hup : balances_nonneg st) by (by eapply balances_nonneg_ext);
    pose proof (enforce_credits_nonneg e u c st Hup) as Henf;
    destruct (enforce_credits e u c st) as [s1 d] end.
  cbn in Henf. destruct d as [b who| | |]; try done.
  pose proof (generate_frame P env req (safe_name_of env req) s1)
    as (Hu & Hg & _).
  destruct (generate P env req (safe_name_of env req) s1) as [s2 [payload|]];
    cbn in *.
  - pose proof (log_identity_frame (e_now_log env) who s2) as (Hu' & Hg' & _).
    eapply balances_nonneg_ext; [| |exact Henf]; congruence.
  - by eapply balances_nonneg_ext.
Qed.

Lemma step_nonneg P c s : balances_nonneg s → balances_nonneg (step P c s).
Proof.
  destruct c; cbn;
    eauto using register_nonneg, verify_email_nonneg, request_otp_nonneg,
      verify_otp_nonneg, login_nonneg, resend_verify_nonneg,
      google_callback_nonneg, google_idtoken_login_nonneg,
      credits_route_nonneg, style_image_nonneg.
Qed.

(** C8: starting from a state whose user and guest balances are all
    non-negative, every sequence of requests (registration, the
    verification routes, both Google sign-ins, login, status and
    generation) reaches a state whose balances are all non-negative; the
    two debits are guarded: a user balance that is not positive is left as
    it is, and so is a guest balance that is not positive. *)
Theorem C8_balances_never_negative P cs s :
  balances_nonneg s →
  balances_nonneg (run P cs s)
  ∧ (∀ env uid u0 u cookie,
       users s !! uid = Some u → free_credits u ≤ 0 →
       users (enforce_credits env (Some (uid, u0)) cookie s).1 = users s)
  ∧ (∀ env gid g,
       nonempty gid = true → guests s !! gid = Some g → credits g ≤ 0 →
       credits <$> guests (enforce_credits env None (Some gid) s).1 !! gid
         = Some (credits g)).
Proof.
  intros Hs. split; [|split].
  - revert s Hs. induction cs as [|c cs IH]; intros s Hs; [done|].
    cbn. apply IH. by apply step_nonneg.
  - intros env uid u0 u cookie Hu Hc. unfold enforce_credits. rewrite Hu.
    destruct (Z.ltb_spec 0 (free_credits u)); [lia|].
    rewrite andb_false_r. by destruct (DAILY_FREE_LIMIT <=? _).
  - intros env gid g Hgid Hg Hc.
    rewrite (enforce_guest_exhausted env s gid g) by done.
    cbn. by rewrite lookup_insert_eq.
Qed.

Lemma C8_balances_never_negative_witness :
  let env := env_at noon in
  let gid := e_uuid env in
  let cs := [ CallStyleImage env (png_upload None None);
              CallStyleImage env (png_upload None (Some gid));
              CallStyleImage env (png_upload None (Some gid));
              CallGoogleIdToken idtoken_env (Some "credential");
              CallStyleImage env (png_upload (Some 1) None);
              CallStyleImage env (png_upload (Some 1) None);
              CallStyleImage env (png_upload (Some 1) None);
              CallCredits (credits_env_at noon) (Some 1) None ] in
  balances_nonneg empty_state ∧
  balances_nonneg (run "mock" cs empty_state) ∧
  credits <$> guests (run "mock" cs empty_state) !! gid = Some 0 ∧
  free_credits <$> users (run "mock" cs empty_state) !! 1 = Some 0.
Proof.
  intros env gid cs.
  assert (H : balances_nonneg empty_state) by (split; apply map_Forall_empty).
  split; [exact H|].
  split; [exact (proj1 (C8_balances_never_negative "mock" cs empty_state H))|].
  split; reflexivity.
Defined.

(** ** The verification bonus *)

(** C1: the bonus is not granted once only. A first sign-in through
    the Google ID-token route creates the account verified with 2 credits
    and leaves [verify_bonus_claimed] unset; a later sign-in of the same
    address through the OAuth callback finds the flag unset and adds 2
    more: the balance is 4. *)
Theorem C1_bonus_granted_twice :
  let calls := [ CallGoogleIdToken idtoken_env (Some "credential");
                 CallGoogleCallback callback_env callback_req ] in
  users (run "mock" (take 1 calls) empty_state) !! 1
    = Some (mkUser "a@b.c" "h" true 2 false noon None) ∧
  users (run "mock" calls empty_state) !! 1
    = Some (mkUser "a@b.c" "h" true 4 true noon None).
Proof. split; reflexivity. Qed.

(** The flag itself is sound: once [verify_bonus_claimed] is set on a
    row, no request ever raises that row's balance or clears the flag.
    The double grant above needs a row created without the flag. *)

Lemma keeps_claimed_same s s' : users s' = users s → keeps_claimed s s'.
Proof. intros Heq uid u Hu Hc. rewrite Heq. exists u. by split; [|split; [|lia]]. Qed.

Lemma keeps_claimed_trans s1 s2 s3 :
  keeps_claimed s1 s2 → keeps_claimed s2 s3 → keeps_claimed s1 s3.
Proof.
  intros H12 H23 uid u Hu Hc.
  destruct (H12 uid u Hu Hc) as (u2 & Hu2 & Hc2 & Hle2).
  destruct (H23 uid u2 Hu2 Hc2) as (u3 & Hu3 & Hc3 & Hle3).
  exists u3. split; [done|]. split; [done|lia].
Qed.

Lemma keeps_claimed_put s k v :
  (∀ u, users s !! k = Some u → verify_bonus_claimed u = true →
        verify_bonus_claimed v = true ∧ free_credits v ≤ free_credits u) →
  keeps_claimed s (set_users (<[k := v]> (users s)) s).
Proof.
  intros Hk uid u Hu Hc. cbn. rewrite lookup_insert. case_decide as Heq.
  - subst k. destruct (Hk u Hu Hc) as [? ?]. by exists v.
  - exists u. split; [done|]. split; [done|lia].
Qed.

Lemma next_user_id_fresh (m : gmap Z User) : m !! next_user_id m = None.
Proof.
  assert (Hbound : ∀ k u, m !! k = Some u → k ≤ map_fold (λ k _ acc, Z.max k acc) 0 m).
  { apply (map_fold_weak_ind (λ r m, ∀ k u, m !! k = Some u → k ≤ r)).
    - intros k u Hk. by rewrite lookup_empty in Hk.
    - intros i x m' r Hi IH k u Hk. rewrite lookup_insert in Hk.
      case_decide; [lia|]. specialize (IH k u Hk). lia. }
  unfold next_user_id.
  destruct (m !! (1 + map_fold (λ k _ acc, Z.max k acc) 0 m)) as [u|] eqn:Hk; [|done].
  apply Hbound in Hk. lia.
Qed.

Lemma keeps_claimed_new s v :
  keeps_claimed s (set_users (<[next_user_id (users s) := v]> (users s)) s).
Proof.
  apply keeps_claimed_put. intros u Hu. by rewrite next_user_id_fresh in Hu.
Qed.

Lemma verify_and_claim_claimed u :
  verify_bonus_claimed u = true →
  verify_bonus_claimed (verify_and_claim u) = true ∧
  free_credits (verify_and_claim u) ≤ free_credits u.
Proof. intros Hc. unfold verify_and_claim. rewrite Hc. cbn. split; [done|lia]. Qed.

Lemma credits_route_users env sub cookie s :
  users (credits_route env sub cookie s).1 = users s.
Proof.
  unfold credits_route. destruct (get_current_user sub s) as [[uid u0]|].
  - by destruct (users s !! uid).
  - unfold get_or_create_guest.
    by destruct (guests s !! resolve_gid cookie (c_uuid env)).
Qed.

Lemma enforce_keeps_claimed env user cookie s :
  keeps_claimed s (enforce_credits env user cookie s).1.
Proof.
  unfold enforce_credits. destruct user as [[uid u0]|].
  - destruct (users s !! uid) as [u|] eqn:Hu; [|by apply keeps_claimed_same].
    destruct (is_verified u && (0 <? free_credits u)).
    + cbn. apply keeps_claimed_put. intros u' Hu'. rewrite Hu in Hu'.
      injection Hu' as <-. intros Hc. cbn. split; [done|lia].
    + destruct (DAILY_FREE_LIMIT <=? _); by apply keeps_claimed_same.
  - apply keeps_claimed_same. unfold get_or_create_guest.
    destruct (guests s !! resolve_gid cookie (e_uuid env)) as [g|];
      cbn; rewrite lookup_insert_eq; cbn; [|done].
    by destruct (credits g <=? 0).
Qed.

Lemma style_image_keeps_claimed P env req s :
  keeps_claimed s (style_image P env req s).1.
Proof.
  unfold style_image.
  destruct (negb (String.prefix _ _)); [by apply keeps_claimed_same|].
  destruct (max_upload_bytes <? _); [by apply keeps_claimed_same|].
  destruct (negb (writable_name _)); [by apply keeps_claimed_same|].
  match goal with |- context [enforce_credits ?e ?u ?c ?st] =>
    pose proof (enforce_keeps_claimed e u c st) as Henf;
    destruct (enforce_credits e u c st) as [s1 d] end.
  cbv beta iota delta [fst] in Henf.
  assert (Hs1 : keeps_claimed s s1).
  { eapply keeps_claimed_trans; [|exact Henf]. by apply keeps_claimed_same. }
  destruct d as [b who| | |]; try done.
  pose proof (generate_frame P env req (safe_name_of env req) s1) as (Hu & _).
  destruct (generate P env req (safe_name_of env req) s1) as [s2 [payload|]];
    cbn in *.
  - pose proof (log_identity_frame (e_now_log env) who s2) as (Hu' & _).
    eapply keeps_claimed_trans; [exact Hs1|]. apply keeps_claimed_same. congruence.
  - eapply keeps_claimed_trans; [exact Hs1|]. by apply keeps_claimed_same.
Qed.

Lemma step_keeps_claimed P c s : keeps_claimed s (step P c s).
Proof.
  destruct c; cbn.
  - unfold register. destruct (negb _); [by apply keeps_claimed_same|].
    destruct (user_by_email _ s); [by apply keeps_claimed_same|].
    match goal with |- context [new_email_token ?a ?b ?c ?d ?e ?st] =>
      assert (Hput : keeps_claimed s st) by apply keeps_claimed_new;
      destruct (new_email_token a b c d e st) as [s1|] eqn:Htok end; [|done].
    apply new_email_token_frame in Htok as [Hu1 _].
    eapply keeps_claimed_trans; [exact Hput|].
    eapply keeps_claimed_trans; [by apply keeps_claimed_same|].
    destruct (generate_otp_for_user _ _ _ _ s1) as [s2|] eqn:Hotp; cbn;
      [|by apply keeps_claimed_same].
    apply generate_otp_frame in Hotp as [Hu2 _]. by apply keeps_claimed_same.
  - unfold verify_email.
    destruct (snd <$> list_find _ _) as [t|]; [|by apply keeps_claimed_same].
    destruct (expires_at t <? now); [by apply keeps_claimed_same|].
    destruct (users s !! tok_user_id t) as [u|] eqn:Hu; [|by apply keeps_claimed_same].
    cbn. eapply keeps_claimed_trans; [|by apply keeps_claimed_same].
    apply keeps_claimed_put. intros u' Hu'. rewrite Hu in Hu'. injection Hu' as <-.
    apply verify_and_claim_claimed.
  - unfold request_otp.
    destruct (user_by_email _ s) as [[uid user]|]; [|by apply keeps_claimed_same].
    destruct (is_verified user); [by apply keeps_claimed_same|].
    destruct (generate_otp_for_user now code uid 15 s) as [s1|] eqn:Hotp;
      [|by apply keeps_claimed_same].
    apply generate_otp_frame in Hotp as [Hu _]. by apply keeps_claimed_same.
  - unfold verify_otp. destruct (negb _); [by apply keeps_claimed_same|].
    destruct (user_by_email _ s) as [[uid user]|] eqn:Hfind;
      [|by apply keeps_claimed_same].
    apply user_by_email_lookup in Hfind.
    destruct (snd <$> list_find _ _) as [t|]; [|by apply keeps_claimed_same].
    destruct (negb _); [by apply keeps_claimed_same|].
    cbn. eapply keeps_claimed_trans; [|by apply keeps_claimed_same].
    apply keeps_claimed_put. intros u' Hu'. rewrite Hfind in Hu'. injection Hu' as <-.
    apply verify_and_claim_claimed.
  - unfold login. destruct (negb _); [by apply keeps_claimed_same|].
    destruct (user_by_email _ s) as [[uid user]|] eqn:Hfind;
      [|by apply keeps_claimed_same].
    apply user_by_email_lookup in Hfind.
    destruct (negb pw_ok); [by apply keeps_claimed_same|].
    cbn. apply keeps_claimed_put. intros u' Hu'. rewrite Hfind in Hu'.
    injection Hu' as <-. intros Hc. cbn. split; [done|lia].
  - unfold resend_verify.
    destruct (get_current_user sub s) as [[uid user]|]; [|by apply keeps_claimed_same].
    destruct (is_verified user); [by apply keeps_claimed_same|].
    destruct (new_email_token _ _ _ _ _ s) as [s1|] eqn:Htok;
      [|by apply keeps_claimed_same].
    apply new_email_token_frame in Htok as [Hu _]. by apply keeps_claimed_same.
  - unfold google_callback.
    destruct (negb (truthy (gc_code req))); [by apply keeps_claimed_same|].
    destruct (negb _); [by apply keeps_claimed_same|].
    destruct (gc_userinfo env) as [[em ev]|]; [|by apply keeps_claimed_same].
    destruct (negb _); [by apply keeps_claimed_same|].
    destruct (user_by_email _ s) as [[uid user]|] eqn:Hfind;
      [|apply keeps_claimed_new].
    apply user_by_email_lookup in Hfind.
    cbn. apply keeps_claimed_put. intros u' Hu'. rewrite Hfind in Hu'.
    injection Hu' as <-. intros Hc.
    destruct ev; cbn; [|split; [done|lia]].
    destruct (is_verified user); cbn; rewrite Hc; cbn; (split; [done|lia]).
  - unfold google_idtoken_login.
    destruct (negb (truthy id_token)); [by apply keeps_claimed_same|].
    destruct (it_claims env) as [[iss em]|]; [|by apply keeps_claimed_same].
    destruct (negb _); [by apply keeps_claimed_same|].
    destruct em as [e|]; [|by apply keeps_claimed_same].
    destruct (negb (nonempty e)); [by apply keeps_claimed_same|].
    destruct (user_by_email e s); [by apply keeps_claimed_same|].
    apply keeps_claimed_new.
  - apply keeps_claimed_same. apply credits_route_users.
  - apply style_image_keeps_claimed.
Qed.

Lemma run_keeps_claimed P cs s : keeps_claimed s (run P cs s).
Proof.
  revert s. induction cs as [|c cs IH]; intros s; [by apply keeps_claimed_same|].
  cbn. eapply keeps_claimed_trans; [apply step_keeps_claimed|apply IH].
Qed.

(** ** Scenarios *)

(** A new account uses its two daily slots, is refused, verifies by
    link and is then let through by the prepaid branch although the
    window is still full. *)
Example scenario_quota_then_bonus :
  let s0 := (register bob_env bob_req empty_state).1 in
  let env := env_at (noon + hour) in
  let req := png_upload (Some 1) None in
  let r1 := style_image "mock" env req s0 in
  let r2 := style_image "mock" env req r1.1 in
  let r3 := style_image "mock" env req r2.1 in
  let s4 := (verify_email (noon + 2 * hour) "link-token" r3.1).1 in
  let r5 := style_image "mock" env req s4 in
  email <$> users s0 !! 1 = Some "bob@example.com" ∧
  is_200 r1.2 = true ∧ is_200 r2.2 = true ∧
  r3.2 = Json429 2 2 (24 * 3600) ∧
  free_credits <$> users s4 !! 1 = Some 2 ∧
  used_in_window (noon + hour) 1 s4 = 2 ∧
  is_200 r5.2 = true ∧
  free_credits <$> users r5.1 !! 1 = Some 1.
Proof. repeat split; reflexivity. Qed.

(** Verifying by link and then by OTP grants the bonus once. *)
Example scenario_link_then_otp :
  let s0 := (register bob_env bob_req empty_state).1 in
  let s1 := (verify_email (noon + timedelta_minutes 1) "link-token" s0).1 in
  let r2 := verify_otp (noon + timedelta_minutes 2) "bob@example.com" "123456" s1 in
  free_credits <$> users s1 !! 1 = Some 2 ∧
  r2.2 = Ok "" ∧
  free_credits <$> users r2.1 !! 1 = Some 2 ∧
  email_tokens r2.1 = [].
Proof. repeat split; reflexivity. Qed.

(** A guest who used both tries and then registers and verifies starts
    from the account's own 2 credits. *)
Example scenario_guest_then_account :
  let env := env_at noon in
  let gid := e_uuid env in
  let r1 := style_image "mock" env (png_upload None None) empty_state in
  let r2 := style_image "mock" env (png_upload None (Some gid)) r1.1 in
  let s3 := (register bob_env bob_req r2.1).1 in
  let s4 := (verify_email (noon + hour) "link-token" s3).1 in
  credits <$> guests s4 !! gid = Some 0 ∧
  free_credits <$> users s4 !! 1 = Some 2.
Proof. repeat split; reflexivity. Qed.

(** * Further properties of the routes *)

(** ** Footprint of a request on the tables *)

Lemma user_by_email_None e s :
  user_by_email e s = None →
  ∀ k u, users s !! k = Some u → email u ≠ e.
Proof.
  unfold user_by_email. intros Hnone k u Hk.
  destruct (list_find _ _) as [p|] eqn:Hfind; [done|].
  apply list_find_None in Hfind.
  apply (proj1 (Forall_forall _ _) Hfind (k, u)).
  by apply elem_of_map_to_list.
Qed.


Lemma user_by_email_email e s uid u :
  user_by_email e s = Some (uid, u) → email u = e.
Proof.
  unfold user_by_email.
  destruct (list_find _ _) as [[i [k v]]|] eqn:Hfind; [|done].
  cbn. intros [= <- <-]. by apply list_find_Some in Hfind as (_ & He & _).
Qed.

(** On an existing row, the OAuth callback with a verified email writes
    what the email link writes. *)
Lemma callback_merge_verified (u : User) :
  (let user1 :=
     if true && negb (is_verified u) then
       mkUser (email u) (password_hash u) true (free_credits u)
              (verify_bonus_claimed u) (u_created_at u) (last_login_at u)
     else u in
   if true && negb (verify_bonus_claimed user1) then
     mkUser (email user1) (password_hash user1) (is_verified user1)
            (free_credits user1 + 2) true (u_created_at user1) (last_login_at user1)
   else user1) = verify_and_claim u.
Proof. unfold verify_and_claim. by destruct u as [? ? [] ? [] ? ?]. Qed.

Lemma enforce_user_write env user cookie s :
  users (enforce_credits env user cookie s).1 = users s ∨
  ∃ k u, users s !! k = Some u ∧ is_verified u = true ∧ 0 < free_credits u ∧
         users (enforce_credits env user cookie s).1
         = <[k := with_free_credits (free_credits u - 1) u]> (users s).
Proof.
  unfold enforce_credits. destruct user as [[uid u0]|].
  - destruct (users s !! uid) as [u|] eqn:Hu; [|by left].
    destruct (is_verified u) eqn:Hv; cbn;
      [destruct (Z.ltb_spec 0 (free_credits u))|].
    + right. by exists uid, u.
    + left. by destruct (DAILY_FREE_LIMIT <=? _).
    + left. by destruct (DAILY_FREE_LIMIT <=? _).
  - left. unfold get_or_create_guest.
    destruct (guests s !! resolve_gid cookie (e_uuid env)) as [g|];
      cbn; rewrite lookup_insert_eq; cbn; [|done].
    by destruct (credits g <=? 0).
Qed.

Lemma style_image_users P env req s :
  users (style_image P env req s).1
  = users (enforce_credits env (get_current_user (auth_sub req) s)
             (guest_cookie req) (store_upload env req s)).1
  ∨ users (style_image P env req s).1 = users s.
Proof.
  unfold style_image.
  destruct (negb (String.prefix _ _)); [by right|].
  destruct (max_upload_bytes <? _); [by right|].
  destruct (negb (writable_name _)); [by right|]. left.
  fold (store_upload env req s).
  destruct (enforce_credits _ _ _ _) as [s1 d]. cbn.
  destruct d as [b who| | |]; try done.
  pose proof (generate_frame P env req (safe_name_of env req) s1) as (Hu & _).
  destruct (generate P env req (safe_name_of env req) s1) as [s2 [payload|]];
    cbn in *; [|done].
  by rewrite (proj1 (log_identity_frame _ _ _)).
Qed.

Lemma step_user_write P c s :
  users (step P c s) = users s ∨
  ∃ k v, users (step P c s) = <[k := v]> (users s) ∧ user_write s k v ∧
         (is_idtoken_call c = false → users s !! k = None →
          verify_bonus_claimed v = is_verified v).
Proof.
  destruct c; cbn.
  - unfold register. destruct (negb _); [by left|].
    destruct (user_by_email _ s) eqn:Hfind; [by left|].
    right.
    exists (next_user_id (users s)),
      (mkUser (lower (strip (default "" (reg_email req)))) (reg_hash env)
              false 0 false (reg_now env) None).
    split; [|split; [apply uw_created; [apply next_user_id_fresh| |]|done]].
    + match goal with |- context [new_email_token ?a ?b ?c ?d ?e ?st] =>
        destruct (new_email_token a b c d e st) as [s1|] eqn:Htok end; [|done].
      apply new_email_token_frame in Htok as [Hu1 _].
      destruct (generate_otp_for_user _ _ _ _ s1) as [s2|] eqn:Hotp; cbn.
      * apply generate_otp_frame in Hotp as [Hu2 _]. by rewrite Hu2, Hu1.
      * by rewrite Hu1.
    + cbn. by apply user_by_email_None.
    + split; [done|]. by left.
  - unfold verify_email.
    destruct (snd <$> list_find _ _) as [t|]; [|by left].
    destruct (expires_at t <? now); [by left|].
    destruct (users s !! tok_user_id t) as [u|] eqn:Hu; [|by left].
    right. eexists _, _. split; [done|].
    split; [by eapply uw_verified|congruence].
  - left. unfold request_otp.
    destruct (user_by_email _ s) as [[uid user]|]; [|done].
    destruct (is_verified user); [done|].
    destruct (generate_otp_for_user now code uid 15 s) as [s1|] eqn:Hotp; [|done].
    by apply generate_otp_frame in Hotp as [Hu _].
  - unfold verify_otp. destruct (negb _); [by left|].
    destruct (user_by_email _ s) as [[uid user]|] eqn:Hfind; [|by left].
    apply user_by_email_lookup in Hfind.
    destruct (snd <$> list_find _ _) as [t|]; [|by left].
    destruct (negb _); [by left|].
    right. eexists _, _. split; [done|].
    split; [by eapply uw_verified|congruence].
  - unfold login. destruct (negb _); [by left|].
    destruct (user_by_email _ s) as [[uid user]|] eqn:Hfind; [|by left].
    apply user_by_email_lookup in Hfind.
    destruct (negb pw_ok); [by left|].
    right. eexists _, _. split; [done|].
    split; [by eapply uw_login|congruence].
  - left. unfold resend_verify.
    destruct (get_current_user sub s) as [[uid user]|]; [|done].
    destruct (is_verified user); [done|].
    destruct (new_email_token _ _ _ _ _ s) as [s1|] eqn:Htok; [|done].
    by apply new_email_token_frame in Htok as [Hu _].
  - unfold google_callback.
    destruct (negb (truthy (gc_code req))); [by left|].
    destruct (negb _); [by left|].
    destruct (gc_userinfo env) as [[em ev]|]; [|by left].
    destruct (negb _); [by left|].
    destruct (user_by_email _ s) as [[uid user]|] eqn:Hfind.
    + apply user_by_email_lookup in Hfind. destruct ev.
      * right. eexists _, _. split; [done|].
        split; [|congruence].
        eapply uw_verified; [done|]. apply callback_merge_verified.
      * left. cbn. by apply insert_id.
    + right. eexists _, _. split; [done|].
      split; [|done].
      apply uw_created; [apply next_user_id_fresh| |].
      * cbn. by apply user_by_email_None.
      * split; [done|]. destruct ev; cbn; auto.
  - unfold google_idtoken_login.
    destruct (negb (truthy id_token)); [by left|].
    destruct (it_claims env) as [[iss em]|]; [|by left].
    destruct (negb _); [by left|].
    destruct em as [e|]; [|by left].
    destruct (negb (nonempty e)); [by left|].
    destruct (user_by_email e s) eqn:Hfind; [by left|].
    right. eexists _, _. split; [done|].
    split; [|done].
    apply uw_created; [apply next_user_id_fresh| |].
    + cbn. by apply user_by_email_None.
    + split; [done|]. by right.
  - left. apply credits_route_users.
  - destruct (style_image_users P env req s) as [-> | ->]; [|by left].
    destruct (enforce_user_write env (get_current_user (auth_sub req) s)
                (guest_cookie req) (store_upload env req s))
      as [H|(k & u & Hk & Hv & Hc & H)].
    + by left.
    + right. eexists k, _. split; [exact H|].
      split; [by eapply uw_debit|]. intros _ Hn. cbn in Hk. congruence.
Qed.

Lemma enforce_guest_write env user cookie s :
  guests (enforce_credits env user cookie s).1 = guests s ∨
  ∃ k g', guests (enforce_credits env user cookie s).1 = <[k := g']> (guests s) ∧
          guest_write s k g'.
Proof.
  unfold enforce_credits. destruct user as [[uid u0]|].
  - left. destruct (users s !! uid) as [u|]; [|done].
    destruct (is_verified u && (0 <? free_credits u)); [done|].
    by destruct (DAILY_FREE_LIMIT <=? _).
  - right. unfold get_or_create_guest.
    destruct (guests s !! resolve_gid cookie (e_uuid env)) as [g|] eqn:Hg;
      cbn; rewrite lookup_insert_eq; cbn.
    + destruct (Z.leb_spec (credits g) 0).
      * eexists _, _. split; [done|]. by eapply gw_touched.
      * eexists _, _. cbn. rewrite insert_insert_eq. split; [done|].
        by eapply gw_debited.
    + eexists _, _. rewrite insert_insert_eq. split; [done|].
      by eapply gw_first_debit.
Qed.

Lemma style_image_guests P env req s :
  guests (style_image P env req s).1
  = guests (enforce_credits env (get_current_user (auth_sub req) s)
              (guest_cookie req) (store_upload env req s)).1
  ∨ guests (style_image P env req s).1 = guests s.
Proof.
  unfold style_image.
  destruct (negb (String.prefix _ _)); [by right|].
  destruct (max_upload_bytes <? _); [by right|].
  destruct (negb (writable_name _)); [by right|]. left.
  fold (store_upload env req s).
  destruct (enforce_credits _ _ _ _) as [s1 d]. cbn.
  destruct d as [b who| | |]; try done.
  pose proof (generate_frame P env req (safe_name_of env req) s1) as (_ & Hg & _).
  destruct (generate P env req (safe_name_of env req) s1) as [s2 [payload|]];
    cbn in *; [|done].
  by rewrite (proj1 (proj2 (log_identity_frame _ _ _))).
Qed.

Lemma step_guest_write P c s :
  guests (step P c s) = guests s ∨
  ∃ k g', guests (step P c s) = <[k := g']> (guests s) ∧ guest_write s k g'.
Proof.
  destruct c; cbn.
  - left. unfold register. destruct (negb _); [done|].
    destruct (user_by_email _ s); [done|].
    match goal with |- context [new_email_token ?a ?b ?c ?d ?e ?st] =>
      destruct (new_email_token a b c d e st) as [s1|] eqn:Htok end; [|done].
    apply new_email_token_frame in Htok as [_ Hg1].
    destruct (generate_otp_for_user _ _ _ _ s1) as [s2|] eqn:Hotp; cbn; [|done].
    apply generate_otp_frame in Hotp as [_ Hg2]. by rewrite Hg2, Hg1.
  - left. unfold verify_email.
    destruct (snd <$> list_find _ _) as [t|]; [|done].
    destruct (expires_at t <? now); [done|].
    by destruct (users s !! tok_user_id t).
  - left. unfold request_otp.
    destruct (user_by_email _ s) as [[uid user]|]; [|done].
    destruct (is_verified user); [done|].
    destruct (generate_otp_for_user now code uid 15 s) as [s1|] eqn:Hotp; [|done].
    by apply generate_otp_frame in Hotp as [_ Hg].
  - left. unfold verify_otp. destruct (negb _); [done|].
    destruct (user_by_email _ s) as [[uid user]|]; [|done].
    destruct (snd <$> list_find _ _) as [t|]; [|done].
    by destruct (negb _).
  - left. unfold login. destruct (negb _); [done|].
    destruct (user_by_email _ s) as [[uid user]|]; [|done].
    by destruct (negb pw_ok).
  - left. unfold resend_verify.
    destruct (get_current_user sub s) as [[uid user]|]; [|done].
    destruct (is_verified user); [done|].
    destruct (new_email_token _ _ _ _ _ s) as [s1|] eqn:Htok; [|done].
    by apply new_email_token_frame in Htok as [_ Hg].
  - left. unfold google_callback.
    destruct (negb (truthy (gc_code req))); [done|].
    destruct (negb _); [done|].
    destruct (gc_userinfo env) as [[em ev]|]; [|done].
    destruct (negb _); [done|].
    by destruct (user_by_email _ s) as [[uid user]|].
  - left. unfold google_idtoken_login.
    destruct (negb (truthy id_token)); [done|].
    destruct (it_claims env) as [[iss em]|]; [|done].
    destruct (negb _); [done|].
    destruct em as [e|]; [|done].
    destruct (negb (nonempty e)); [done|].
    by destruct (user_by_email e s).
  - unfold credits_route. destruct (get_current_user sub s) as [[uid u0]|].
    + left. by destruct (users s !! uid).
    + right. unfold get_or_create_guest.
      destruct (guests s !! resolve_gid cookie (c_uuid env)) as [g|] eqn:Hg; cbn.
      * eexists _, _. split; [done|]. by eapply gw_touched.
      * eexists _, _. split; [done|]. by eapply gw_created.
  - destruct (style_image_guests P env req s) as [-> | ->]; [|by left].
    destruct (enforce_guest_write env (get_current_user (auth_sub req) s)
                (guest_cookie req) (store_upload env req s)) as [H|(k & v & H & Hw)].
    + by left.
    + right. exists k, v. split; [done|].
      destruct Hw; [by eapply gw_created|by eapply gw_first_debit
                   |by eapply gw_touched|by eapply gw_debited].
Qed.

(** A reflexive and transitive relation that every single write
    respects relates the tables before and after any request sequence. *)
Lemma run_users_rel (R : relation (gmap Z User)) `{!Reflexive R, !Transitive R} :
  (∀ s k v, user_write s k v → R (users s) (<[k := v]> (users s))) →
  ∀ P cs s, R (users s) (users (run P cs s)).
Proof.
  intros Hw P cs. induction cs as [|c cs IH]; intros s; [done|].
  cbn. etrans; [|apply IH].
  destruct (step_user_write P c s) as [-> | (k & v & -> & Hkv & _)]; [done|].
  by apply Hw.
Qed.

Lemma run_guests_rel (R : relation (gmap string Guest)) `{!Reflexive R, !Transitive R} :
  (∀ s k g, guest_write s k g → R (guests s) (<[k := g]> (guests s))) →
  ∀ P cs s, R (guests s) (guests (run P cs s)).
Proof.
  intros Hw P cs. induction cs as [|c cs IH]; intros s; [done|].
  cbn. etrans; [|apply IH].
  destruct (step_guest_write P c s) as [-> | (k & v & -> & Hkv)]; [done|].
  by apply Hw.
Qed.


(** ** Accounts, guests and balances along request sequences *)

(** X1: once the bonus flag of an account is set, no sequence of
    requests clears the flag or raises the account's balance. *)
Theorem X1_claimed_balance_never_raised P cs s uid u :
  users s !! uid = Some u → verify_bonus_claimed u = true →
  ∃ u', users (run P cs s) !! uid = Some u' ∧
        verify_bonus_claimed u' = true ∧ free_credits u' ≤ free_credits u.
Proof. intros Hu Hc. exact (run_keeps_claimed P cs s uid u Hu Hc). Qed.

Lemma X1_claimed_balance_never_raised_witness :
  let s := state_with (mkUser "a@b.c" "h" true 2 true 0 None) [] in
  let cs := [ CallGoogleCallback callback_env callback_req;
              CallStyleImage (env_at noon) (png_upload (Some 1) None) ] in
  (users s !! 1 = Some (mkUser "a@b.c" "h" true 2 true 0 None)) ∧
  ∃ u', users (run "mock" cs s) !! 1 = Some u' ∧
        verify_bonus_claimed u' = true ∧ free_credits u' ≤ 2.
Proof.
  intros s cs. split; [reflexivity|].
  exact (X1_claimed_balance_never_raised "mock" cs s 1 _ eq_refl eq_refl).
Defined.

Lemma user_write_persist s k v :
  user_write s k v → users_persist (users s) (<[k := v]> (users s)).
Proof.
  intros Hw j u Hj. rewrite lookup_insert. case_decide as Heq; [subst j|].
  - destruct Hw as [Hnone _ _|u0 Hk ->|u0 t Hk ->|u0 Hk Hv Hc ->];
      rewrite Hk in Hj || rewrite Hnone in Hj; try done;
      injection Hj as ->; eexists; (split; [done|]).
    + unfold verify_and_claim. by destruct (verify_bonus_claimed u).
    + done.
    + done.
  - exists u. auto.
Qed.

(** X2: an account is never deleted and its id, address, password hash
    and creation time never change; a verified account stays verified. *)
Theorem X2_accounts_persist P cs s uid u :
  users s !! uid = Some u →
  ∃ u', users (run P cs s) !! uid = Some u' ∧ email u' = email u ∧
        password_hash u' = password_hash u ∧
        u_created_at u' = u_created_at u ∧
        (is_verified u = true → is_verified u' = true).
Proof.
  intros Hu.
  exact (run_users_rel users_persist user_write_persist P cs s uid u Hu).
Qed.

Lemma X2_accounts_persist_witness :
  let s := state_with alice [] in
  users s !! 1 = Some alice ∧
  ∃ u', users (run "mock" demo_calls s) !! 1 = Some u' ∧ email u' = "a@b.c" ∧
        password_hash u' = "h" ∧ u_created_at u' = 0 ∧
        (is_verified alice = true → is_verified u' = true).
Proof.
  intros s. split; [reflexivity|].
  exact (X2_accounts_persist "mock" demo_calls s 1 alice eq_refl).
Defined.

Lemma guest_write_persist s k g :
  guest_write s k g → guests_persist (guests s) (<[k := g]> (guests s)).
Proof.
  intros Hw j g0 Hj. rewrite lookup_insert. case_decide as Heq; [subst j|].
  - destruct Hw as [t Hnone ->|t Hnone ->|g1 t Hk ->|g1 t Hk Hc ->];
      rewrite Hk in Hj || rewrite Hnone in Hj; try done;
      injection Hj as ->; eexists; (split; [done|]); cbn; (split; [lia|done]).
  - exists g0. split; [done|]. split; [lia|done].
Qed.

(** X3: a guest row is never deleted and its credits are never topped
    up: after any sequence of requests the guest holds at most what it
    held before. *)
Theorem X3_guest_credits_never_replenished P cs s gid g :
  guests s !! gid = Some g →
  ∃ g', guests (run P cs s) !! gid = Some g' ∧ credits g' ≤ credits g ∧
        g_created_at g' = g_created_at g.
Proof.
  intros Hg.
  exact (run_guests_rel guests_persist guest_write_persist P cs s gid g Hg).
Qed.

Lemma X3_guest_credits_never_replenished_witness :
  let s := set_guests {[ "g" := mkGuest 0 0 0 ]} empty_state in
  let cs := [ CallCredits (credits_env_at noon) None (Some "g");
              CallStyleImage (env_at noon) (png_upload None (Some "g"));
              CallRegister bob_env bob_req;
              CallVerifyEmail (noon + hour) "link-token" ] in
  guests s !! "g" = Some (mkGuest 0 0 0) ∧
  ∃ g', guests (run "mock" cs s) !! "g" = Some g' ∧ credits g' ≤ 0 ∧
        g_created_at g' = 0.
Proof.
  intros s cs. split; [reflexivity|].
  exact (X3_guest_credits_never_replenished "mock" cs s "g" _ eq_refl).
Defined.

Lemma user_write_shape s k v :
  user_write s k v →
  map_Forall (λ _ u, user_shape u) (users s) →
  map_Forall (λ _ u, user_shape u) (<[k := v]> (users s)).
Proof.
  intros Hw Hall. apply map_Forall_insert_2; [|done].
  destruct Hw as [_ _ [_ Hc]|u0 Hk ->|u0 t Hk ->|u0 Hk Hv Hc ->].
  - unfold user_shape.
    destruct Hc as [(-> & -> & ->)|(-> & ->)]; [done|].
    split; [done|]. split; [lia|]. destruct (verify_bonus_claimed v); lia.
  - destruct (Hall k u0 Hk) as (Hun & H0 & Hmax).
    unfold user_shape, verify_and_claim.
    destruct (verify_bonus_claimed u0); cbn; (split; [done|]); lia.
  - exact (Hall k u0 Hk).
  - destruct (Hall k u0 Hk) as (Hun & H0 & Hmax).
    unfold user_shape. cbn. rewrite Hv. split; [done|].
    split; [lia|]. destruct (verify_bonus_claimed u0); lia.
Qed.

Lemma guest_write_shape s k g :
  guest_write s k g →
  map_Forall (λ _ g, 0 ≤ credits g ≤ 2) (guests s) →
  map_Forall (λ _ g, 0 ≤ credits g ≤ 2) (<[k := g]> (guests s)).
Proof.
  intros Hw Hall. apply map_Forall_insert_2; [|done].
  destruct Hw as [t _ ->|t _ ->|g1 t Hk ->|g1 t Hk Hc ->]; cbn; try lia.
  - exact (Hall k g1 Hk).
  - pose proof (Hall k g1 Hk). cbn in *. lia.
Qed.

(** X7: the shape of the balances is kept by every sequence of
    requests: an unverified account holds no credit and no bonus flag, a
    user balance lies between 0 and 2 (between 0 and 4 once the flag is
    set), and a guest balance lies between 0 and 2. *)
Theorem X7_ledger_shape_kept P cs s :
  ledger_shape s → ledger_shape (run P cs s).
Proof.
  intros [Hu Hg]. split.
  - exact (run_users_rel (impl_rel (map_Forall (λ _ u, user_shape u)))
             user_write_shape P cs s Hu).
  - exact (run_guests_rel (impl_rel (map_Forall (λ _ g, 0 ≤ credits g ≤ 2)))
             guest_write_shape P cs s Hg).
Qed.

Lemma X7_ledger_shape_kept_witness :
  ledger_shape empty_state ∧ ledger_shape (run "mock" demo_calls empty_state).
Proof.
  assert (H : ledger_shape empty_state) by (split; apply map_Forall_empty).
  split; [exact H|]. exact (X7_ledger_shape_kept "mock" demo_calls empty_state H).
Defined.

Lemma user_write_emails s k v :
  user_write s k v →
  (∀ k1 k2 u1 u2, users s !! k1 = Some u1 → users s !! k2 = Some u2 →
                  email u1 = email u2 → k1 = k2) →
  ∀ k1 k2 u1 u2, <[k := v]> (users s) !! k1 = Some u1 →
                 <[k := v]> (users s) !! k2 = Some u2 →
                 email u1 = email u2 → k1 = k2.
Proof.
  intros Hw Huniq k1 k2 u1 u2. rewrite !lookup_insert.
  assert (Hsame : ∀ u0, users s !! k = Some u0 → email v = email u0 →
            ∀ j u, users s !! j = Some u → email u = email v → j = k).
  { intros u0 Hk He j u Hj Hju. apply (Huniq j k u u0 Hj Hk). congruence. }
  assert (Hcases : (users s !! k = None ∧
                    ∀ j u, users s !! j = Some u → email u ≠ email v)
                   ∨ ∃ u0, users s !! k = Some u0 ∧ email v = email u0).
  { destruct Hw as [Hnone Hfresh _|u0 Hk ->|u0 t Hk ->|u0 Hk _ _ ->];
      [by left|right; exists u0; split; [done|]..].
    - unfold verify_and_claim. by destruct (verify_bonus_claimed u0).
    - done.
    - done. }
  repeat case_decide; subst; intros H1 H2 He; simplify_eq; try done.
  - destruct Hcases as [[_ Hfresh]|(u0 & Hk & Hev)].
    + by destruct (Hfresh k2 u2 H2).
    + symmetry. by apply (Hsame u0 Hk Hev k2 u2 H2).
  - destruct Hcases as [[_ Hfresh]|(u0 & Hk & Hev)].
    + by destruct (Hfresh k1 u1 H1).
    + by apply (Hsame u0 Hk Hev k1 u1 H1).
  - by apply (Huniq k1 k2 u1 u2).
Qed.

(** X8: no sequence of requests makes two accounts share an address:
    each insertion into [users] is preceded by a lookup of the very
    address it stores. *)
Theorem X8_emails_stay_unique P cs s :
  emails_unique s → emails_unique (run P cs s).
Proof.
  intros Hu.
  exact (run_users_rel
           (impl_rel (λ m : gmap Z User, ∀ k1 k2 u1 u2,
              m !! k1 = Some u1 → m !! k2 = Some u2 →
              email u1 = email u2 → k1 = k2))
           user_write_emails P cs s Hu).
Qed.

Lemma X8_emails_stay_unique_witness :
  emails_unique empty_state ∧ emails_unique (run "mock" demo_calls empty_state).
Proof.
  assert (H : emails_unique empty_state).
  { intros k1 k2 u1 u2 H1. cbn in H1. by rewrite lookup_empty in H1. }
  split; [exact H|]. exact (X8_emails_stay_unique "mock" demo_calls empty_state H).
Defined.

(** ** The usage log *)

Lemma new_email_token_only now tok uid purp minutes s s' :
  new_email_token now tok uid purp minutes s = Some s' →
  s' = set_email_tokens (email_tokens s') s.
Proof.
  unfold new_email_token. destruct (token_taken _ _); [done|].
  by intros [= <-].
Qed.

Lemma generate_otp_only now code uid minutes s s' :
  generate_otp_for_user now code uid minutes s = Some s' →
  s' = set_email_tokens (email_tokens s') s.
Proof.
  unfold generate_otp_for_user. destruct (token_taken _ _); [done|].
  by intros [= <-].
Qed.

Lemma style_image_log P env req s :
  (is_200 (style_image P env req s).2 = true ∧
   ∃ row, generation_logs (style_image P env req s).1
          = (generation_logs s ++ [row])%list ∧
          created_at row = e_now_log env ∧ one_identity row)
  ∨ (is_200 (style_image P env req s).2 = false ∧
     generation_logs (style_image P env req s).1 = generation_logs s).
Proof.
  unfold style_image.
  destruct (negb (String.prefix _ _)); [by right|].
  destruct (max_upload_bytes <? _); [by right|].
  destruct (negb (writable_name _)); [by right|].
  fold (store_upload env req s).
  pose proof (enforce_frame env (get_current_user (auth_sub req) s)
                (guest_cookie req) (store_upload env req s)) as (_ & Hlog & _).
  destruct (enforce_credits _ _ _ _) as [s1 d]. cbv beta iota delta [fst] in Hlog.
  change (generation_logs (store_upload env req s)) with (generation_logs s) in Hlog.
  destruct d as [b who| | |]; try (by right).
  pose proof (generate_frame P env req (safe_name_of env req) s1)
    as (_ & _ & Hglog & _).
  destruct (generate P env req (safe_name_of env req) s1) as [s2 [payload|]];
    cbn in *; [|right; split; [done|congruence]].
  left. split; [done|]. rewrite <- Hlog, <- Hglog.
  destruct who as [uid|gid]; cbn; eexists; (split; [done|]); (split; [done|]).
  - left. by split; [eexists|].
  - right. by split; [|eexists].
Qed.

Lemma step_log P c s :
  generation_logs (step P c s) = generation_logs s ∨
  (is_style_call c = true ∧
   ∃ row, generation_logs (step P c s) = (generation_logs s ++ [row])%list ∧
          one_identity row).
Proof.
  destruct c; cbn; [left..|].
  - unfold register. destruct (negb _); [done|].
    destruct (user_by_email _ s); [done|].
    match goal with |- context [new_email_token ?a ?b ?c ?d ?e ?st] =>
      destruct (new_email_token a b c d e st) as [s1|] eqn:Htok end; [|done].
    apply new_email_token_only in Htok.
    destruct (generate_otp_for_user _ _ _ _ s1) as [s2|] eqn:Hotp; cbn.
    + apply generate_otp_only in Hotp. by rewrite Hotp, Htok.
    + by rewrite Htok.
  - unfold verify_email.
    destruct (snd <$> list_find _ _) as [t|]; [|done].
    destruct (expires_at t <? now); [done|].
    by destruct (users s !! tok_user_id t).
  - unfold request_otp.
    destruct (user_by_email _ s) as [[uid user]|]; [|done].
    destruct (is_verified user); [done|].
    destruct (generate_otp_for_user now code uid 15 s) as [s1|] eqn:Hotp; [|done].
    apply generate_otp_only in Hotp. by rewrite Hotp.
  - unfold verify_otp. destruct (negb _); [done|].
    destruct (user_by_email _ s) as [[uid user]|]; [|done].
    destruct (snd <$> list_find _ _) as [t|]; [|done].
    by destruct (negb _).
  - unfold login. destruct (negb _); [done|].
    destruct (user_by_email _ s) as [[uid user]|]; [|done].
    by destruct (negb pw_ok).
  - unfold resend_verify.
    destruct (get_current_user sub s) as [[uid user]|]; [|done].
    destruct (is_verified user); [done|].
    destruct (new_email_token _ _ _ _ _ s) as [s1|] eqn:Htok; [|done].
    apply new_email_token_only in Htok. by rewrite Htok.
  - unfold google_callback.
    destruct (negb (truthy (gc_code req))); [done|].
    destruct (negb _); [done|].
    destruct (gc_userinfo env) as [[em ev]|]; [|done].
    destruct (negb _); [done|].
    by destruct (user_by_email _ s) as [[uid user]|].
  - unfold google_idtoken_login.
    destruct (negb (truthy id_token)); [done|].
    destruct (it_claims env) as [[iss em]|]; [|done].
    destruct (negb _); [done|].
    destruct em as [e|]; [|done].
    destruct (negb (nonempty e)); [done|].
    by destruct (user_by_email e s).
  - unfold credits_route. destruct (get_current_user sub s) as [[uid u0]|].
    + by destruct (users s !! uid).
    + unfold get_or_create_guest.
      by destruct (guests s !! resolve_gid cookie (c_uuid env)).
  - destruct (style_image_log P env req s) as [(_ & row & Hrow & _ & Hone)|[_ H]].
    + right. split; [done|]. by exists row.
    + by left.
Qed.

(** X4: the usage log is append-only. After any sequence of requests
    the old log is a prefix of the new one; the rows added are at most
    as many as the generation requests in the sequence, and each names
    exactly one identity kind (a user id or a guest id, never both and
    never neither). *)
Theorem X4_usage_log_append_only P cs s :
  ∃ rows,
    generation_logs (run P cs s) = (generation_logs s ++ rows)%list ∧
    (length rows ≤ length (filter (λ c, is_style_call c = true) cs))%nat ∧
    Forall one_identity rows.
Proof.
  revert s. induction cs as [|c cs IH]; intros s.
  { exists []. cbn. by rewrite app_nil_r. }
  cbn [run foldl]. destruct (IH (step P c s)) as (rows & Hrows & Hlen & Hone).
  fold (run P cs (step P c s)). rewrite Hrows.
  destruct (step_log P c s) as [-> | (Hc & row & -> & Hrow)].
  - exists rows. split; [done|]. split; [|done].
    pose proof (length_filter (λ c, is_style_call c = true) [c]).
    rewrite (filter_app _ [c] cs), length_app. lia.
  - exists (row :: rows). rewrite <- app_assoc. split; [done|].
    split; [|by constructor].
    rewrite filter_cons_True by done. cbn. lia.
Qed.

(** X5: the generation route appends a usage event exactly when it
    answers 200: then the log grows by one row stamped with the clock read
    of the insertion; with any other answer (invalid file, 402, 429,
    unknown provider, fault) the log is unchanged. *)
Theorem X5_logged_iff_200 P env req s :
  (is_200 (style_image P env req s).2 = true →
     ∃ row, generation_logs (style_image P env req s).1
            = (generation_logs s ++ [row])%list ∧
            created_at row = e_now_log env)
  ∧ (is_200 (style_image P env req s).2 = false →
     generation_logs (style_image P env req s).1 = generation_logs s).
Proof.
  destruct (style_image_log P env req s)
    as [(H200 & row & Hrow & Ht & _)|[H200 Hlog]]; rewrite H200.
  - split; [eauto|done].
  - split; [done|auto].
Qed.

Lemma X5_logged_iff_200_witness :
  let s := state_with alice [noon - hour; noon - 2 * hour] in
  let r := style_image "mock" (env_at noon) (png_upload (Some 1) None) s in
  is_200 r.2 = false ∧ generation_logs r.1 = generation_logs s.
Proof.
  intros s r. split; [reflexivity|].
  exact (proj2 (X5_logged_iff_200 "mock" (env_at noon) (png_upload (Some 1) None) s)
           eq_refl).
Defined.

(** ** The rolling window *)

Lemma length_filter_fmap {A B} (f : A → B) (P : B → Prop)
    `{!∀ y, Decision (P y)} (l : list A) :
  length (filter P (f <$> l)) = length (filter (λ x, P (f x)) l).
Proof.
  induction l as [|x l IH]; [done|].
  rewrite fmap_cons, !filter_cons. destruct (decide (P (f x))); cbn; by rewrite IH.
Qed.

Lemma length_filter_mono {A} (P Q : A → Prop)
    `{!∀ x, Decision (P x), !∀ x, Decision (Q x)} (l : list A) :
  (∀ x, P x → Q x) → (length (filter P l) ≤ length (filter Q l))%nat.
Proof.
  intros HPQ. induction l as [|x l IH]; [done|].
  rewrite !filter_cons.
  destruct (decide (P x)) as [HP|HP], (decide (Q x)) as [HQ|HQ]; cbn; try lia.
  by destruct HQ; apply HPQ.
Qed.

(** With [t_k] the [DAILY_FREE_LIMIT]-th most recent event of the window
    ending at [now]: the window ending at [t_k + 24h] still holds
    [DAILY_FREE_LIMIT] events, every later window holds fewer. *)
Lemma window_after_kth now uid s t_k :
  kth_most_recent (Z.to_nat DAILY_FREE_LIMIT) t_k
    (created_at <$> user_window now uid s) →
  now - timedelta_hours 24 ≤ t_k →
  DAILY_FREE_LIMIT ≤ used_in_window (t_k + timedelta_hours 24) uid s ∧
  ∀ now', t_k + timedelta_hours 24 < now' →
          used_in_window now' uid s < DAILY_FREE_LIMIT.
Proof.
  intros (_ & Hlt & Hge) Hwin.
  rewrite length_filter_fmap in Hlt, Hge.
  unfold user_window in Hlt, Hge. rewrite list_filter_filter in Hlt, Hge.
  unfold used_in_window, user_window. split.
  - pose proof (length_filter_mono
      (λ a, t_k ≤ created_at a ∧ user_id a = Some uid ∧
            now - timedelta_hours 24 ≤ created_at a)
      (λ r, user_id r = Some uid ∧
            t_k + timedelta_hours 24 - timedelta_hours 24 ≤ created_at r)
      (generation_logs s)) as Hm.
    specialize (Hm ltac:(intros x (? & ? & ?); split; [done|lia])).
    unfold DAILY_FREE_LIMIT in *. lia.
  - intros now' Hlater.
    pose proof (length_filter_mono
      (λ r, user_id r = Some uid ∧ now' - timedelta_hours 24 ≤ created_at r)
      (λ a, t_k < created_at a ∧ user_id a = Some uid ∧
            now - timedelta_hours 24 ≤ created_at a)
      (generation_logs s)) as Hm.
    specialize (Hm ltac:(intros x (? & ?); repeat split; [lia|done|lia])).
    unfold DAILY_FREE_LIMIT in *. lia.
Qed.

(** X6: the quota reopens strictly after the [DAILY_FREE_LIMIT]-th
    most recent event [t_k] of the window is 24 hours old. When
    [next_available_ts] is not null it is the timestamp of the datetime
    [t_k + 24h]; for an account on the rolling window (unverified, or
    without prepaid credit), a request whose clock reads exactly
    [t_k + 24h] is still refused with [DailyLimitReached], and a request
    at any later clock read, no event having been logged meanwhile, is
    let through by the daily quota. *)
Theorem X6_quota_reopens_after_next_available env env' sub cookie s uid u tz now ts :
  get_current_user sub s = Some (uid, u) →
  is_verified u = false ∨ free_credits u ≤ 0 →
  next_available_ts tz now uid s = Some ts →
  ∃ t_k,
    kth_most_recent (Z.to_nat DAILY_FREE_LIMIT) t_k
      (created_at <$> user_window now uid s) ∧
    ts = timestamp tz (t_k + timedelta_hours 24) ∧
    (e_now_count env = t_k + timedelta_hours 24 →
     ∃ wait, enforce_credits env (get_current_user sub s) cookie s
             = (s, DailyLimitReached
                     (used_in_window (t_k + timedelta_hours 24) uid s)
                     DAILY_FREE_LIMIT wait)) ∧
    (t_k + timedelta_hours 24 < e_now_count env' →
     enforce_credits env' (get_current_user sub s) cookie s
     = (s, Allowed DailyQuota (WhoUser uid))).
Proof.
  intros Hcur Hcase Hts.
  destruct (get_current_user_Some _ _ _ _ Hcur) as [Hne Hu].
  destruct (next_available_ts_Some _ _ _ _ _ Hts) as (t_k & -> & Hk & Hwin).
  destruct (window_after_kth now uid s t_k Hk Hwin) as [Hstill Hlater].
  exists t_k. split; [done|]. split; [done|].
  rewrite Hcur, !(enforce_window _ cookie s uid u u) by done. split.
  - intros ->.
    destruct (Z.leb_spec DAILY_FREE_LIMIT
                (used_in_window (t_k + timedelta_hours 24) uid s)); [eauto|lia].
  - intros Henv'. specialize (Hlater (e_now_count env') Henv').
    by destruct (Z.leb_spec DAILY_FREE_LIMIT
                   (used_in_window (e_now_count env') uid s)); [lia|].
Qed.

Lemma X6_quota_reopens_after_next_available_witness :
  let s := state_with alice [noon - hour; noon - 2 * hour] in
  let t := noon - 2 * hour + day in
  (get_current_user (Some 1) s = Some (1, alice) ∧
   next_available_ts utc noon 1 s = Some (timestamp utc t)) ∧
  (∃ wait, enforce_credits (env_at t) (get_current_user (Some 1) s) None s
           = (s, DailyLimitReached 2 DAILY_FREE_LIMIT wait))
  ∧ enforce_credits (env_at (t + 1)) (get_current_user (Some 1) s) None s
    = (s, Allowed DailyQuota (WhoUser 1)).
Proof.
  intros s t.
  assert (Hts : next_available_ts utc noon 1 s = Some (timestamp utc t))
    by (vm_compute; reflexivity).
  split; [split; [reflexivity|exact Hts]|].
  destruct (X6_quota_reopens_after_next_available (env_at t) (env_at (t + 1))
              (Some 1) None s 1 alice utc noon _ eq_refl
              (or_intror (Z.le_refl 0)) Hts) as (t_k & Hk & _ & Hat & Hafter).
  assert (t_k = noon - 2 * hour) as ->.
  { destruct Hk as (Hin & _ & Hle). vm_compute in Hin.
    apply elem_of_cons in Hin as [->|Hin]; [|by apply list_elem_of_singleton in Hin].
    vm_compute in Hle. lia. }
  split; [apply Hat; reflexivity|apply Hafter; vm_compute; reflexivity].
Defined.

(** X9: the wait carried by a refusal is never negative, whatever the
    three clock reads are; and when the read of [next_available_ts] comes
    late enough for the count to have fallen below the limit, the wait is
    the default of 3600 seconds. *)
Theorem X9_retry_after_never_negative env sub cookie s s' used lim wait :
  enforce_credits env (get_current_user sub s) cookie s
    = (s', DailyLimitReached used lim wait) →
  0 ≤ wait ∧
  ∃ uid u, get_current_user sub s = Some (uid, u) ∧
           (used_in_window (e_now_next env) uid s < DAILY_FREE_LIMIT →
            wait = 3600).
Proof.
  intros Henf.
  apply enforce_denied_429 in Henf as (_ & _ & _ & uid & u0 & Hcur & _ & ->).
  split; [apply retry_after_nonneg|].
  exists uid, u0. split; [done|]. intros Hlow.
  apply next_available_ts_None with (tz := e_local_to_seconds env) in Hlow.
  by rewrite Hlow.
Qed.

Lemma X9_retry_after_never_negative_witness :
  let s := state_with alice [noon - hour; noon - day] in
  let env := mkStyleEnv 0 "" noon noon (noon + 1) (noon + 2) (inl "") 0 noon utc in
  enforce_credits env (get_current_user (Some 1) s) None s
    = (s, DailyLimitReached 2 2 3600) ∧
  0 ≤ 3600 ∧
  ∃ uid u, get_current_user (Some 1) s = Some (uid, u) ∧
           (used_in_window (noon + 1) uid s < DAILY_FREE_LIMIT → 3600 = 3600).
Proof.
  intros s env.
  assert (H : enforce_credits env (get_current_user (Some 1) s) None s
              = (s, DailyLimitReached 2 2 3600)) by reflexivity.
  split; [exact H|].
  exact (X9_retry_after_never_negative env (Some 1) None s s 2 2 3600 H).
Defined.

(** ** Address normalisation *)

Lemma lower_ascii_cases c :
  lower_ascii c = c ∨
  ((N_of_ascii c <? 128)%N = true ∧ (N_of_ascii (lower_ascii c) <? 128)%N = true).
Proof. destruct c as [[] [] [] [] [] [] [] []]; (by left) || (by right). Qed.

Lemma byte_is_lower k c : (128 ≤ k)%N → byte_is k (lower_ascii c) = byte_is k c.
Proof.
  intros Hk. destruct (lower_ascii_cases c) as [->|[H1 H2]]; [done|].
  unfold byte_is. apply N.ltb_lt in H1, H2.
  destruct (N.eqb_spec (N_of_ascii (lower_ascii c)) k), (N.eqb_spec (N_of_ascii c) k); lia.
Qed.

Lemma is_space_lower c : is_space (lower_ascii c) = is_space c.
Proof. by destruct c as [[] [] [] [] [] [] [] []]. Qed.

Lemma is_space2_lower c1 c2 :
  is_space2 (lower_ascii c1) (lower_ascii c2) = is_space2 c1 c2.
Proof. unfold is_space2. by rewrite !byte_is_lower by lia. Qed.

Lemma is_space3_lower c1 c2 c3 :
  is_space3 (lower_ascii c1) (lower_ascii c2) (lower_ascii c3) = is_space3 c1 c2 c3.
Proof.
  unfold is_space3. rewrite !byte_is_lower by lia.
  destruct (lower_ascii_cases c3) as [->|[H1 H2]]; [done|].
  apply N.ltb_lt in H1, H2.
  replace ((128 <=? N_of_ascii (lower_ascii c3))%N) with false
    by (symmetry; apply N.leb_gt; lia).
  replace ((128 <=? N_of_ascii c3)%N) with false by (symmetry; apply N.leb_gt; lia).
  done.
Qed.

Lemma space_char_lower s : space_char (lower s) = space_char s.
Proof.
  destruct s as [|c1 [|c2 [|c3 [|c4 r]]]]; cbn;
    auto using is_space_lower, is_space2_lower, is_space3_lower.
Qed.

Lemma lower_ascii_idem c : lower_ascii (lower_ascii c) = lower_ascii c.
Proof. by destruct c as [[] [] [] [] [] [] [] []]. Qed.

Lemma lower_idem s : lower (lower s) = lower s.
Proof. induction s as [|c s IH]; [done|]. cbn. by rewrite lower_ascii_idem, IH. Qed.

(** Induction along the calls of [lstrip]. *)
Lemma lstrip_ind (P : string → Prop) :
  P "" →
  (∀ c1 r1, is_space c1 = true → P r1 → P (String c1 r1)) →
  (∀ c1 c2 r2, is_space c1 = false → is_space2 c1 c2 = true → P r2 →
     P (String c1 (String c2 r2))) →
  (∀ c1 c2 c3 r3, is_space c1 = false → is_space2 c1 c2 = false →
     is_space3 c1 c2 c3 = true → P r3 → P (String c1 (String c2 (String c3 r3)))) →
  (∀ s, lstrip s = s → P s) →
  ∀ s, P s.
Proof.
  intros H0 H1 H2 H3 Hfix.
  assert (∀ n s, (String.length s < n)%nat → P s) as Hn.
  { induction n as [|n IH]; intros s Hs; [lia|].
    destruct s as [|c1 r1]; [done|].
    destruct (is_space c1) eqn:E1; [apply H1; [done|apply IH; cbn in Hs; lia]|].
    destruct r1 as [|c2 r2]; [apply Hfix; cbn [lstrip]; by rewrite E1|].
    destruct (is_space2 c1 c2) eqn:E2; [apply H2; [done..|apply IH; cbn in Hs; lia]|].
    destruct r2 as [|c3 r3]; [apply Hfix; cbn [lstrip]; by rewrite E1, E2|].
    destruct (is_space3 c1 c2 c3) eqn:E3; [apply H3; [done..|apply IH; cbn in Hs; lia]|].
    apply Hfix. cbn [lstrip]. by rewrite E1, E2, E3. }
  intros s. apply (Hn (S (String.length s))). lia.
Qed.

Lemma lstrip_space1 c1 r1 : is_space c1 = true → lstrip (String c1 r1) = lstrip r1.
Proof. intros E. cbn [lstrip]. by rewrite E. Qed.

Lemma lstrip_space2 c1 c2 r2 :
  is_space c1 = false → is_space2 c1 c2 = true →
  lstrip (String c1 (String c2 r2)) = lstrip r2.
Proof. intros E1 E2. cbn [lstrip]. by rewrite E1, E2. Qed.

Lemma lstrip_space3 c1 c2 c3 r3 :
  is_space c1 = false → is_space2 c1 c2 = false → is_space3 c1 c2 c3 = true →
  lstrip (String c1 (String c2 (String c3 r3))) = lstrip r3.
Proof. intros E1 E2 E3. cbn [lstrip]. by rewrite E1, E2, E3. Qed.

Lemma lstrip_no_blank s : starts_blank s = false → lstrip s = s.
Proof.
  destruct s as [|c1 [|c2 [|c3 r3]]]; cbn; [done|..].
  - rewrite orb_false_r. by intros ->.
  - intros [-> [-> _]%orb_false_iff]%orb_false_iff. done.
  - intros [-> [-> ->]%orb_false_iff]%orb_false_iff. done.
Qed.

Lemma starts_blank_lower s : starts_blank (lower s) = starts_blank s.
Proof.
  destruct s as [|c1 [|c2 [|c3 r3]]]; cbn;
    by rewrite ?is_space_lower, ?is_space2_lower, ?is_space3_lower.
Qed.

Lemma lstrip_fixed_no_blank s : lstrip s = s → starts_blank s = false.
Proof.
  intros Hs. destruct (starts_blank s) eqn:Hb; [exfalso|done].
  assert (∀ x, (String.length (lstrip x) ≤ String.length x)%nat) as Hlen.
  { intros x. induction x using lstrip_ind.
    - done.
    - rewrite lstrip_space1 by done. cbn. lia.
    - rewrite lstrip_space2 by done. cbn. lia.
    - rewrite lstrip_space3 by done. cbn. lia.
    - by rewrite H. }
  destruct s as [|c1 r1]; [done|]. cbn in Hb.
  destruct (is_space c1) eqn:E1.
  { rewrite lstrip_space1 in Hs by done. pose proof (Hlen r1) as Hl.
    rewrite Hs in Hl. cbn in Hl. lia. }
  destruct r1 as [|c2 r2]; [done|]. cbn in Hb.
  destruct (is_space2 c1 c2) eqn:E2.
  { rewrite lstrip_space2 in Hs by done. pose proof (Hlen r2) as Hl.
    rewrite Hs in Hl. cbn in Hl. lia. }
  destruct r2 as [|c3 r3]; [done|]. cbn in Hb.
  rewrite lstrip_space3 in Hs by done. pose proof (Hlen r3) as Hl.
  rewrite Hs in Hl. cbn in Hl. lia.
Qed.

Lemma lstrip_lower s : lstrip (lower s) = lower (lstrip s).
Proof.
  induction s using lstrip_ind.
  - done.
  - rewrite lstrip_space1 by done. cbn [lower].
    by rewrite lstrip_space1 by (by rewrite is_space_lower).
  - rewrite lstrip_space2 by done. cbn [lower].
    by rewrite lstrip_space2 by (by rewrite ?is_space_lower, ?is_space2_lower).
  - rewrite lstrip_space3 by done. cbn [lower].
    by rewrite lstrip_space3
      by (by rewrite ?is_space_lower, ?is_space2_lower, ?is_space3_lower).
  - rewrite H. apply lstrip_no_blank. rewrite starts_blank_lower.
    by apply lstrip_fixed_no_blank.
Qed.

Lemma rstrip_lower s : rstrip (lower s) = lower (rstrip s).
Proof.
  induction s as [|c s IH]; [done|]. cbn [lower rstrip]. rewrite IH.
  change (String (lower_ascii c) (lower (rstrip s))) with (lower (String c (rstrip s))).
  rewrite space_char_lower. by destruct (space_char _).
Qed.

Lemma lstrip_idem s : lstrip (lstrip s) = lstrip s.
Proof.
  induction s using lstrip_ind.
  - done.
  - by rewrite lstrip_space1.
  - by rewrite lstrip_space2.
  - by rewrite lstrip_space3.
  - by rewrite !H.
Qed.

Lemma rstrip_idem s : rstrip (rstrip s) = rstrip s.
Proof.
  induction s as [|c s IH]; [done|]. cbn [rstrip].
  destruct (space_char (String c (rstrip s))) eqn:E; [done|].
  cbn [rstrip]. by rewrite IH, E.
Qed.

(** What [rstrip] leaves alone, it leaves alone from any position on. *)
Lemma rstrip_fixed_tail c r : rstrip (String c r) = String c r → rstrip r = r.
Proof.
  cbn [rstrip]. destruct (space_char _); [done|]. by intros [=].
Qed.

Lemma rstrip_fixed_lstrip s : rstrip s = s → rstrip (lstrip s) = lstrip s.
Proof.
  induction s using lstrip_ind; intros Hs.
  - done.
  - rewrite lstrip_space1 by done. eauto using rstrip_fixed_tail.
  - rewrite lstrip_space2 by done. eauto using rstrip_fixed_tail.
  - rewrite lstrip_space3 by done. eauto using rstrip_fixed_tail.
  - by rewrite H.
Qed.

Lemma strip_idem s : strip (strip s) = strip s.
Proof.
  unfold strip.
  by rewrite (rstrip_fixed_lstrip (rstrip s)), lstrip_idem by apply rstrip_idem.
Qed.

(** X10: the two normalisations of an address used by the routes
    agree ([register] and [login] strip then lower-case, the OTP routes
    and the OAuth callback lower-case then strip), and normalising an
    already normalised address changes nothing: the address stored at
    registration is the one every route looks up. *)
Theorem X10_address_normalisation (s : string) :
  lower (strip s) = strip (lower s) ∧
  lower (strip (lower (strip s))) = lower (strip s) ∧
  strip (lower (strip (lower s))) = strip (lower s).
Proof.
  assert (Hcomm : ∀ x, lower (strip x) = strip (lower x)).
  { intros x. unfold strip. by rewrite rstrip_lower, lstrip_lower. }
  split; [apply Hcomm|]. split.
  - by rewrite (Hcomm (lower (strip s))), lower_idem, <- Hcomm, strip_idem.
  - by rewrite <- (Hcomm (strip (lower s))), strip_idem, Hcomm, lower_idem.
Qed.

(** ** Email tokens *)

Lemma token_taken_false tok l :
  token_taken tok l = false → tok ∉ token <$> l.
Proof.
  unfold token_taken. intros Hno Hin.
  apply list_elem_of_fmap in Hin as (t & -> & Ht).
  apply list_elem_of_In in Ht.
  assert (existsb (λ t0, String.eqb (token t0) (token t)) l = true).
  { apply existsb_exists. exists t. split; [done|]. apply String.eqb_refl. }
  congruence.
Qed.

Lemma NoDup_fmap_filter {A B} (f : A → B) (P : A → Prop)
    `{!∀ x, Decision (P x)} (l : list A) :
  NoDup (f <$> l) → NoDup (f <$> filter P l).
Proof.
  induction l as [|x l IH]; [done|].
  rewrite fmap_cons, NoDup_cons. intros [Hx Hl].
  rewrite filter_cons. destruct (decide (P x)); [|by apply IH].
  rewrite fmap_cons, NoDup_cons. split; [|by apply IH].
  intros Hin. apply Hx.
  apply list_elem_of_fmap in Hin as (y & -> & Hy).
  apply list_elem_of_fmap_2. by apply list_elem_of_filter in Hy as [_ ?].
Qed.

Lemma NoDup_fmap_elem_inj {A B} (f : A → B) (l : list A) x y :
  NoDup (f <$> l) → x ∈ l → y ∈ l → f x = f y → x = y.
Proof.
  induction l as [|a l IH]; [by intros _ ?%elem_of_nil|].
  rewrite fmap_cons, NoDup_cons. intros [Ha Hl].
  rewrite !elem_of_cons. intros [->|Hx] [->|Hy] Hf; try done.
  - destruct Ha. rewrite Hf. by apply list_elem_of_fmap_2.
  - destruct Ha. rewrite <- Hf. by apply list_elem_of_fmap_2.
  - by apply IH.
Qed.

Lemma new_email_token_unique now tok uid purp minutes s s' :
  tokens_unique s → new_email_token now tok uid purp minutes s = Some s' →
  tokens_unique s'.
Proof.
  unfold new_email_token, tokens_unique.
  destruct (token_taken tok (email_tokens s)) eqn:Htaken; [done|].
  intros Hu [= <-]. cbn. rewrite fmap_app. apply NoDup_app.
  split; [done|]. split; [|apply NoDup_singleton].
  intros x Hx. cbn. rewrite list_elem_of_singleton. intros ->.
  by apply token_taken_false in Htaken.
Qed.

Lemma generate_otp_unique now code uid minutes s s' :
  tokens_unique s → generate_otp_for_user now code uid minutes s = Some s' →
  tokens_unique s'.
Proof.
  unfold generate_otp_for_user, tokens_unique.
  destruct (token_taken code _) eqn:Htaken; [done|].
  intros Hu [= <-]. cbn. rewrite fmap_app. apply NoDup_app.
  split; [by apply NoDup_fmap_filter|]. split; [|apply NoDup_singleton].
  intros x Hx. cbn. rewrite list_elem_of_singleton. intros ->.
  apply token_taken_false in Htaken. apply Htaken.
  apply list_elem_of_fmap in Hx as (y & -> & Hy).
  apply list_elem_of_fmap_2. by apply list_elem_of_filter in Hy as [_ ?].
Qed.

Lemma delete_token_unique t s :
  tokens_unique s → tokens_unique (delete_token t s).
Proof. unfold tokens_unique, delete_token. cbn. apply NoDup_fmap_filter. Qed.

Lemma tokens_unique_ext s s' :
  email_tokens s' = email_tokens s → tokens_unique s → tokens_unique s'.
Proof. unfold tokens_unique. by intros ->. Qed.

Lemma credits_route_tokens env sub cookie s :
  email_tokens (credits_route env sub cookie s).1 = email_tokens s.
Proof.
  unfold credits_route. destruct (get_current_user sub s) as [[uid u0]|].
  - by destruct (users s !! uid).
  - unfold get_or_create_guest.
    by destruct (guests s !! resolve_gid cookie (c_uuid env)).
Qed.

Lemma style_image_tokens P env req s :
  email_tokens (style_image P env req s).1 = email_tokens s.
Proof.
  unfold style_image.
  destruct (negb (String.prefix _ _)); [done|].
  destruct (max_upload_bytes <? _); [done|].
  destruct (negb (writable_name _)); [done|].
  fold (store_upload env req s).
  pose proof (enforce_frame env (get_current_user (auth_sub req) s)
                (guest_cookie req) (store_upload env req s)) as (_ & _ & Htok).
  destruct (enforce_credits _ _ _ _) as [s1 d]. cbv beta iota delta [fst] in Htok.
  change (email_tokens (store_upload env req s)) with (email_tokens s) in Htok.
  destruct d as [b who| | |]; try done.
  unfold generate.
  destruct (String.eqb P "mock"); [by destruct who|].
  destruct (String.eqb P "stability"); [|done].
  destruct (e_provider env); by destruct who.
Qed.

Lemma step_tokens_unique P c s : tokens_unique s → tokens_unique (step P c s).
Proof.
  intros Hu. destruct c; cbn.
  - unfold register. destruct (negb _); [done|].
    destruct (user_by_email _ s); [done|].
    match goal with |- context [new_email_token ?a ?b ?c ?d ?e ?st] =>
      assert (Hst : tokens_unique st) by done;
      destruct (new_email_token a b c d e st) as [s1|] eqn:Htok end; [|done].
    apply new_email_token_unique in Htok; [|done].
    destruct (generate_otp_for_user _ _ _ _ s1) as [s2|] eqn:Hotp; cbn; [|done].
    by eapply generate_otp_unique.
  - unfold verify_email.
    destruct (snd <$> list_find _ _) as [t|]; [|done].
    destruct (expires_at t <? now); [done|].
    destruct (users s !! tok_user_id t) as [u|]; [|done].
    cbn. by apply delete_token_unique.
  - unfold request_otp.
    destruct (user_by_email _ s) as [[uid user]|]; [|done].
    destruct (is_verified user); [done|].
    destruct (generate_otp_for_user now code uid 15 s) as [s1|] eqn:Hotp; [|done].
    by eapply generate_otp_unique.
  - unfold verify_otp. destruct (negb _); [done|].
    destruct (user_by_email _ s) as [[uid user]|]; [|done].
    destruct (snd <$> list_find _ _) as [t|]; [|done].
    destruct (negb _); [done|].
    cbn. by apply delete_token_unique.
  - unfold login. destruct (negb _); [done|].
    destruct (user_by_email _ s) as [[uid user]|]; [|done].
    by destruct (negb pw_ok).
  - unfold resend_verify.
    destruct (get_current_user sub s) as [[uid user]|]; [|done].
    destruct (is_verified user); [done|].
    destruct (new_email_token _ _ _ _ _ s) as [s1|] eqn:Htok; [|done].
    by eapply new_email_token_unique.
  - unfold google_callback.
    destruct (negb (truthy (gc_code req))); [done|].
    destruct (negb _); [done|].
    destruct (gc_userinfo env) as [[em ev]|]; [|done].
    destruct (negb _); [done|].
    by destruct (user_by_email _ s) as [[uid user]|].
  - unfold google_idtoken_login.
    destruct (negb (truthy id_token)); [done|].
    destruct (it_claims env) as [[iss em]|]; [|done].
    destruct (negb _); [done|].
    destruct em as [e|]; [|done].
    destruct (negb (nonempty e)); [done|].
    by destruct (user_by_email e s).
  - eapply tokens_unique_ext; [|done]. apply credits_route_tokens.
  - eapply tokens_unique_ext; [|done]. apply style_image_tokens.
Qed.

Lemma run_tokens_unique P cs s : tokens_unique s → tokens_unique (run P cs s).
Proof.
  revert s. induction cs as [|c cs IH]; intros s Hs; [done|].
  cbn. apply IH. by apply step_tokens_unique.
Qed.

(** X11: a verification link works once. After [verify_email] has
    accepted a token, presenting the same token again, at any time, is
    answered 400 and changes nothing (token strings being unique, as the
    column requires). *)
Theorem X11_link_single_use now now' tok s s1 url :
  tokens_unique s →
  verify_email now tok s = (s1, Redirect url) →
  verify_email now' tok s1 = (s1, Error 400 "Invalid or expired token").
Proof.
  intros Huniq. unfold verify_email at 1.
  destruct (snd <$> list_find _ (email_tokens s)) as [t|] eqn:Hfind; [|done].
  destruct (expires_at t <? now); [done|].
  destruct (users s !! tok_user_id t) as [u|]; [|done].
  intros [= <- _].
  destruct (list_find _ (email_tokens s)) as [[i t0]|] eqn:Hfind0; [|done].
  cbn in Hfind. injection Hfind as ->.
  apply list_find_Some in Hfind0 as (Hi & [Htok _] & _).
  apply list_elem_of_lookup_2 in Hi.
  unfold verify_email. cbn.
  match goal with |- context [list_find ?Q ?l] =>
    assert (Hnone : list_find Q l = None) end.
  { apply list_find_None, Forall_forall. intros t' Ht' [Htok' _].
    apply list_elem_of_filter in Ht' as [Hid Ht'].
    apply Hid. f_equal.
    apply (NoDup_fmap_elem_inj token (email_tokens s)); [done..|congruence]. }
  by rewrite Hnone.
Qed.

Lemma X11_link_single_use_witness :
  let s := (register bob_env bob_req empty_state).1 in
  let r := verify_email (noon + hour) "link-token" s in
  (tokens_unique s ∧ r.2 = Redirect "/login.html?verified=1") ∧
  verify_email (noon + 2 * hour) "link-token" r.1
    = (r.1, Error 400 "Invalid or expired token").
Proof.
  intros s r.
  assert (Hu : tokens_unique s).
  { apply (run_tokens_unique "mock" [CallRegister bob_env bob_req] empty_state).
    apply NoDup_nil_2. }
  split; [split; [exact Hu|reflexivity]|].
  apply (X11_link_single_use (noon + hour) (noon + 2 * hour) "link-token" s r.1
           "/login.html?verified=1" Hu).
  reflexivity.
Defined.

(** X12: requesting a code leaves the account with exactly one OTP,
    the one just drawn, valid for 15 minutes: earlier codes of that
    account are deleted, and no other token and no user row is touched. *)
Theorem X12_one_live_otp now code em s s1 :
  request_otp now code em s = (s1, Ok "OTP sent") →
  ∃ uid user row,
    user_by_email (strip (lower em)) s = Some (uid, user) ∧
    is_verified user = false ∧
    filter (λ t, tok_user_id t = uid ∧ purpose t = "otp") (email_tokens s1) = [row] ∧
    token row = code ∧ expires_at row = now + timedelta_minutes 15 ∧
    filter (λ t, ¬ (tok_user_id t = uid ∧ purpose t = "otp")) (email_tokens s1)
    = filter (λ t, ¬ (tok_user_id t = uid ∧ purpose t = "otp")) (email_tokens s) ∧
    users s1 = users s.
Proof.
  unfold request_otp.
  destruct (user_by_email _ s) as [[uid user]|] eqn:Hfind; [|done].
  destruct (is_verified user) eqn:Hv; [done|].
  unfold generate_otp_for_user.
  destruct (token_taken code _); [done|].
  intros [= <-]. eexists uid, user, _. split; [done|]. split; [done|]. cbn.
  rewrite !filter_app, !list_filter_filter.
  rewrite (filter_cons_True (λ t, tok_user_id t = uid ∧ purpose t = "otp"))
    by (cbn; by split).
  rewrite (filter_cons_False
             (λ t, ¬ (tok_user_id t = uid ∧ purpose t = "otp")))
    by (cbn; intros H; apply H; by split).
  rewrite !filter_nil.
  assert (Hnil : ∀ l : list EmailToken,
            filter (λ a, (tok_user_id a = uid ∧ purpose a = "otp") ∧
                         ¬ (tok_user_id a = uid ∧ purpose a = "otp")) l = []).
  { intros l. induction l as [|a l IH]; [done|].
    rewrite filter_cons_False; [done|]. by intros [? ?]. }
  rewrite Hnil, app_nil_r. cbn.
  do 3 (split; [done|]). split; [|done].
  apply list_filter_iff. tauto.
Qed.

Lemma X12_one_live_otp_witness :
  let s := (register bob_env bob_req empty_state).1 in
  let r := request_otp (noon + hour) "654321" "Bob@Example.com" s in
  r.2 = Ok "OTP sent" ∧
  token <$> filter (λ t, tok_user_id t = 1 ∧ purpose t = "otp") (email_tokens s)
    = ["123456"] ∧
  token <$> filter (λ t, tok_user_id t = 1 ∧ purpose t = "otp") (email_tokens r.1)
    = ["654321"] ∧
  ∃ uid user row,
    user_by_email (strip (lower "Bob@Example.com")) s = Some (uid, user) ∧
    is_verified user = false ∧
    filter (λ t, tok_user_id t = uid ∧ purpose t = "otp") (email_tokens r.1) = [row] ∧
    token row = "654321" ∧ expires_at row = noon + hour + timedelta_minutes 15 ∧
    filter (λ t, ¬ (tok_user_id t = uid ∧ purpose t = "otp")) (email_tokens r.1)
    = filter (λ t, ¬ (tok_user_id t = uid ∧ purpose t = "otp")) (email_tokens s) ∧
    users r.1 = users s.
Proof.
  intros s r. split; [reflexivity|]. split; [reflexivity|]. split; [reflexivity|].
  apply (X12_one_live_otp (noon + hour) "654321" "Bob@Example.com" s r.1).
  reflexivity.
Defined.

Lemma filter_nil_Forall {A} (P : A → Prop) `{!∀ x, Decision (P x)} (l : list A) :
  Forall (λ x, ¬ P x) l → filter P l = [].
Proof.
  induction 1 as [|x l Hx _ IH]; [done|]. by rewrite filter_cons_False.
Qed.

Lemma digit_not_blank c r : is_digit c = true → starts_blank (String c r) = false.
Proof.
  intros Hc. destruct r as [|c2 [|c3 r3]]; cbn; revert Hc;
    destruct c as [[] [] [] [] [] [] [] []]; done.
Qed.

Lemma digit_not_space_char c r : is_digit c = true → space_char (String c r) = false.
Proof.
  intros Hc. destruct r as [|c2 [|c3 [|c4 r4]]]; cbn; revert Hc;
    destruct c as [[] [] [] [] [] [] [] []]; done.
Qed.

Lemma py_len_digits s : all_digits s = true → py_len s = String.length s.
Proof.
  induction s as [|c s IH]; [done|]. cbn. intros [Hc Hs]%andb_true_iff.
  rewrite (IH Hs).
  by revert Hc; destruct c as [[] [] [] [] [] [] [] []].
Qed.

Lemma strip_digits s : all_digits s = true → strip s = s.
Proof.
  intros Hd. unfold strip.
  assert (Hr : rstrip s = s).
  { induction s as [|c s IH]; [done|]. cbn in Hd.
    apply andb_true_iff in Hd as [Hc Hd]. cbn [rstrip]. rewrite (IH Hd).
    by rewrite digit_not_space_char. }
  rewrite Hr. destruct s as [|c s]; [done|]. cbn in Hd.
  apply andb_true_iff in Hd as [Hc _]. apply lstrip_no_blank. by apply digit_not_blank.
Qed.

Lemma request_otp_sent now code em s s1 :
  request_otp now code em s = (s1, Ok "OTP sent") →
  ∃ uid user,
    user_by_email (strip (lower em)) s = Some (uid, user) ∧
    s1 = set_email_tokens
           (filter (λ t, ¬ (tok_user_id t = uid ∧ purpose t = "otp")) (email_tokens s)
            ++ [mkEmailToken (next_token_id (email_tokens s))
                  uid code "otp" (now + timedelta_minutes 15)]) s.
Proof.
  unfold request_otp.
  destruct (user_by_email _ s) as [[uid user]|] eqn:Hfind; [|done].
  destruct (is_verified user); [done|].
  unfold generate_otp_for_user.
  destruct (token_taken code _); [done|].
  intros [= <-]. by exists uid, user.
Qed.

Lemma otp_lookup now' uid (kept : list EmailToken) row :
  Forall (λ t, ¬ (tok_user_id t = uid ∧ purpose t = "otp")) kept →
  tok_user_id row = uid → purpose row = "otp" →
  snd <$> list_find (λ t, tok_user_id t = uid ∧ purpose t = "otp" ∧
                          now' ≤ expires_at t) (kept ++ [row])
  = if decide (now' ≤ expires_at row) then Some row else None.
Proof.
  intros Hkept Hu Hp. rewrite list_find_app_r.
  - cbn. destruct (decide (tok_user_id row = uid ∧ purpose row = "otp" ∧
                           now' ≤ expires_at row)) as [(_ & _ & Hle)|Hno].
    + by rewrite decide_True.
    + rewrite decide_False; [done|]. intros Hle. by apply Hno.
  - apply list_find_None. eapply Forall_impl; [exact Hkept|].
    intros t Ht (? & ? & _). by apply Ht.
Qed.

(** X13: the code sent by [request_otp] verifies the account when it
    is presented within 15 minutes: the account becomes verified with the
    bonus applied once, and the code is consumed. Presented later, or with
    any other code, the request is answered 400 and changes nothing. *)
Theorem X13_otp_round_trip now now' code em s s1 :
  request_otp now code em s = (s1, Ok "OTP sent") →
  String.length code = 6%nat → isdigit code = true →
  (now' ≤ now + timedelta_minutes 15 →
     ∃ uid user s2,
       user_by_email (strip (lower em)) s = Some (uid, user) ∧
       verify_otp now' em code s1 = (s2, Ok "") ∧
       users s2 = <[uid := verify_and_claim user]> (users s) ∧
       filter (λ t, tok_user_id t = uid ∧ purpose t = "otp") (email_tokens s2) = [])
  ∧ (now + timedelta_minutes 15 < now' →
     verify_otp now' em code s1 = (s1, Error 400 "Invalid or expired code"))
  ∧ (∀ code', strip code' ≠ code →
     ∃ msg, verify_otp now' em code' s1 = (s1, Error 400 msg)).
Proof.
  intros Hreq Hlen Hdig.
  destruct (request_otp_sent _ _ _ _ _ Hreq) as (uid & user & Hfind & ->).
  set (kept := filter (λ t, ¬ (tok_user_id t = uid ∧ purpose t = "otp"))
                 (email_tokens s)).
  set (row := mkEmailToken (next_token_id (email_tokens s)) uid code "otp"
                (now + timedelta_minutes 15)).
  assert (Hkept : Forall (λ t, ¬ (tok_user_id t = uid ∧ purpose t = "otp")) kept).
  { apply Forall_forall. intros t Ht. by apply list_elem_of_filter in Ht as [? _]. }
  assert (Hall : all_digits code = true).
  { unfold isdigit in Hdig. by destruct code. }
  assert (Hstrip : strip code = code) by (by apply strip_digits).
  rewrite <- (py_len_digits code Hall) in Hlen.
  assert (Hverify : ∀ c, verify_otp now' em c (set_email_tokens (kept ++ [row]) s) =
            if negb ((py_len (strip c) =? 6)%nat && isdigit (strip c)) then
              (set_email_tokens (kept ++ [row]) s, Error 400 "Invalid code format")
            else if decide (now' ≤ now + timedelta_minutes 15) then
              if negb (String.eqb code (strip c)) then
                (set_email_tokens (kept ++ [row]) s, Error 400 "Invalid or expired code")
              else
                (delete_token row
                   (set_users (<[uid := verify_and_claim user]> (users s))
                      (set_email_tokens (kept ++ [row]) s)), Ok "")
            else (set_email_tokens (kept ++ [row]) s, Error 400 "Invalid or expired code")).
  { intros c. unfold verify_otp. destruct (negb _); [done|].
    change (user_by_email (strip (lower em)) (set_email_tokens (kept ++ [row]) s))
      with (user_by_email (strip (lower em)) s). rewrite Hfind.
    change (email_tokens (set_email_tokens (kept ++ [row]) s)) with (kept ++ [row])%list.
    rewrite (otp_lookup now' uid kept row Hkept eq_refl eq_refl).
    change (expires_at row) with (now + timedelta_minutes 15).
    by destruct (decide (now' ≤ now + timedelta_minutes 15)). }
  split; [|split].
  - intros Hin. exists uid, user. eexists. split; [done|].
    rewrite Hverify, Hstrip, Hlen, Hdig. cbn [Nat.eqb andb negb].
    rewrite decide_True by done. rewrite String.eqb_refl. cbn [negb].
    split; [done|]. split; [done|]. cbn.
    rewrite list_filter_filter. apply filter_nil_Forall.
    rewrite Forall_app. split.
    + eapply Forall_impl; [exact Hkept|]. intros t Ht [? _]. by apply Ht.
    + constructor; [|done]. intros [_ Hid]. by apply Hid.
  - intros Hlate. rewrite Hverify, Hstrip, Hlen, Hdig. cbn [Nat.eqb andb negb].
    by rewrite decide_False by lia.
  - intros code' Hne. rewrite Hverify.
    destruct (negb _); [eauto|].
    destruct (decide _); [|eauto].
    destruct (String.eqb_spec code (strip code')); [congruence|]. cbn. eauto.
Qed.

Lemma X13_otp_round_trip_witness :
  let s := (register bob_env bob_req empty_state).1 in
  let r := request_otp (noon + hour) "654321" "bob@example.com" s in
  (r.2 = Ok "OTP sent" ∧ noon + hour + 60 ≤ noon + hour + timedelta_minutes 15) ∧
  ∃ uid user s2,
    user_by_email (strip (lower "bob@example.com")) s = Some (uid, user) ∧
    verify_otp (noon + hour + 60) "bob@example.com" "654321" r.1 = (s2, Ok "") ∧
    users s2 = <[uid := verify_and_claim user]> (users s) ∧
    filter (λ t, tok_user_id t = uid ∧ purpose t = "otp") (email_tokens s2) = [].
Proof.
  intros s r.
  assert (Hle : noon + hour + 60 ≤ noon + hour + timedelta_minutes 15)
    by (vm_compute; congruence).
  split; [split; [reflexivity|exact Hle]|].
  exact (proj1 (X13_otp_round_trip (noon + hour) (noon + hour + 60) "654321"
                  "bob@example.com" s r.1 eq_refl eq_refl eq_refl) Hle).
Defined.

(** ** Registration *)

Lemma list_find_middle {A} (P : A → Prop) `{!∀ x, Decision (P x)}
    (l1 l2 : list A) (x : A) :
  Forall (λ y, ¬ P y) l1 → P x →
  list_find P (l1 ++ x :: l2) = Some (length l1, x).
Proof.
  intros Hl1 Hx. apply list_find_Some. split; [|split; [done|]].
  - by apply list_lookup_middle.
  - intros j y Hj Hlt. rewrite lookup_app_l in Hj by done.
    by apply (proj1 (Forall_lookup _ _) Hl1 j y).
Qed.

(** X14: the link mailed by [/auth/resend] to a signed-in, unverified
    account verifies that account when it is opened within three days:
    the row read back is verified, its bonus flag is set, and its balance
    has grown by 2 unless the flag was already set; the link is consumed.
    Opened after three days it is answered 400 and nothing changes. *)
Theorem X14_resent_link_verifies now now' tok sub s s1 :
  resend_verify now tok sub s = (s1, Ok "") →
  ∃ uid u,
    get_current_user sub s = Some (uid, u) ∧ is_verified u = false ∧
    (now' ≤ now + timedelta_minutes (60 * 24 * 3) →
     ∃ s2 path u',
       verify_email now' tok s1 = (s2, Redirect path) ∧
       users s2 !! uid = Some u' ∧
       is_verified u' = true ∧ verify_bonus_claimed u' = true ∧
       free_credits u' = free_credits u + (if verify_bonus_claimed u then 0 else 2) ∧
       email u' = email u ∧
       Forall (λ t, token t ≠ tok) (email_tokens s2))
    ∧ (now + timedelta_minutes (60 * 24 * 3) < now' →
       verify_email now' tok s1 = (s1, Error 400 "Invalid or expired token")).
Proof.
  unfold resend_verify.
  destruct (get_current_user sub s) as [[uid u]|] eqn:Hcur; [|done].
  destruct (get_current_user_Some _ _ _ _ Hcur) as [Hne Hu].
  destruct (is_verified u) eqn:Hv; [done|].
  unfold new_email_token.
  destruct (token_taken tok (email_tokens s)) eqn:Htaken; [done|].
  intros [= <-]. exists uid, u. split; [done|]. split; [done|].
  assert (Hfresh : Forall (λ t, token t ≠ tok) (email_tokens s)).
  { apply Forall_forall. intros t Ht Heq.
    apply token_taken_false in Htaken. apply Htaken. rewrite <- Heq.
    by apply list_elem_of_fmap_2. }
  unfold verify_email. cbn [email_tokens set_email_tokens].
  rewrite (list_find_middle _ (email_tokens s) []); cycle 1.
  { eapply Forall_impl; [exact Hfresh|]. intros t Ht [? _]. by apply Ht. }
  { by split. }
  cbn [fmap option_fmap option_map snd expires_at tok_user_id].
  split.
  - intros Hin.
    destruct (Z.ltb_spec (now + timedelta_minutes (60 * 24 * 3)) now'); [lia|].
    cbn [users set_email_tokens]. rewrite Hu.
    eexists _, _, (verify_and_claim u). split; [reflexivity|].
    split; [cbn; apply lookup_insert_eq|].
    unfold verify_and_claim. destruct (verify_bonus_claimed u) eqn:Hb; cbn.
    + do 2 (split; [done|]). split; [lia|]. split; [done|].
      apply Forall_forall. intros t Ht.
      apply list_elem_of_filter in Ht as [Hid Ht].
      apply elem_of_app in Ht as [Ht|Ht%list_elem_of_singleton].
      * by apply (proj1 (Forall_forall _ _) Hfresh).
      * by subst t.
    + do 2 (split; [done|]). split; [lia|]. split; [done|].
      apply Forall_forall. intros t Ht.
      apply list_elem_of_filter in Ht as [Hid Ht].
      apply elem_of_app in Ht as [Ht|Ht%list_elem_of_singleton].
      * by apply (proj1 (Forall_forall _ _) Hfresh).
      * by subst t.
  - intros Hlate.
    by destruct (Z.ltb_spec (now + timedelta_minutes (60 * 24 * 3)) now'); [|lia].
Qed.

Lemma X14_resent_link_verifies_witness :
  let s := (register bob_env bob_req empty_state).1 in
  let r := resend_verify (noon + hour) "second-link" (Some 1) s in
  (r.2 = Ok "" ∧ noon + 2 * day ≤ noon + hour + timedelta_minutes (60 * 24 * 3)) ∧
  ∃ s2 path u',
    verify_email (noon + 2 * day) "second-link" r.1 = (s2, Redirect path) ∧
    users s2 !! 1 = Some u' ∧ is_verified u' = true ∧ free_credits u' = 2.
Proof.
  intros s r.
  assert (Hle : noon + 2 * day ≤ noon + hour + timedelta_minutes (60 * 24 * 3))
    by (vm_compute; congruence).
  split; [split; [reflexivity|exact Hle]|].
  destruct (X14_resent_link_verifies (noon + hour) (noon + 2 * day) "second-link"
              (Some 1) s r.1 eq_refl) as (uid & u & Hcur & _ & Hin & _).
  assert (Hbob : get_current_user (Some 1) s = Some (1, bob)) by reflexivity.
  rewrite Hbob in Hcur. injection Hcur as <- <-.
  destruct (Hin Hle) as (s2 & path & u' & Hv & Hu' & Hver & _ & Hc & _).
  exists s2, path, u'. split; [exact Hv|]. split; [exact Hu'|]. split; [exact Hver|].
  exact Hc.
Defined.



(** ** The bonus away from the ID-token sign-in *)

Lemma step_single_bonus P c s :
  is_idtoken_call c = false →
  map_Forall (λ _ u, single_bonus_shape u) (users s) →
  map_Forall (λ _ u, single_bonus_shape u) (users (step P c s)).
Proof.
  intros Hc Hall.
  destruct (step_user_write P c s) as [-> | (k & v & -> & Hw & Hflag)]; [done|].
  apply map_Forall_insert_2; [|done]. specialize (Hflag Hc).
  destruct Hw as [Hnone _ [_ Hcr]|u0 Hk ->|u0 t Hk ->|u0 Hk Hv Hpos ->].
  - specialize (Hflag Hnone). unfold single_bonus_shape.
    destruct Hcr as [(Hv & Hfc & Hcl)|(Hv & Hfc)]; rewrite Hflag, Hfc;
      (split; [done|]); (split; [intros; congruence|lia]).
  - destruct (Hall k u0 Hk) as (Heq & Hun & Hfc).
    unfold single_bonus_shape, verify_and_claim.
    destruct (verify_bonus_claimed u0); cbn; (split; [done|]); (split; [done|]).
    + lia.
    + rewrite Hun by done. lia.
  - exact (Hall k u0 Hk).
  - destruct (Hall k u0 Hk) as (Heq & Hun & Hfc).
    unfold single_bonus_shape. cbn. split; [done|]. split; [congruence|lia].
Qed.

(** X16: as long as no request goes through the Google ID-token
    sign-in, the bonus is granted at most once per account: starting from
    accounts that are verified exactly when their flag is set and hold at
    most 2 credits (none before verification), every sequence of the other
    requests keeps it so. *)
Theorem X16_single_bonus_without_idtoken P cs s :
  Forall (λ c, is_idtoken_call c = false) cs →
  map_Forall (λ _ u, single_bonus_shape u) (users s) →
  map_Forall (λ _ u, single_bonus_shape u) (users (run P cs s)).
Proof.
  intros Hcs. revert s. induction Hcs as [|c cs Hc _ IH]; intros s Hs; [done|].
  cbn. apply IH. by apply step_single_bonus.
Qed.

Lemma X16_single_bonus_without_idtoken_witness :
  let cs := (demo_calls ++ [ CallGoogleCallback callback_env callback_req;
                             CallVerifyOtp (noon + 60) "bob@example.com" "123456" ])%list in
  (Forall (λ c, is_idtoken_call c = false) cs ∧
   map_Forall (λ _ u, single_bonus_shape u) (users empty_state)) ∧
  map_Forall (λ _ u, single_bonus_shape u) (users (run "mock" cs empty_state)).
Proof.
  intros cs.
  assert (H1 : Forall (λ c, is_idtoken_call c = false) cs)
    by (repeat constructor).
  assert (H2 : map_Forall (λ _ u, single_bonus_shape u) (users empty_state))
    by apply map_Forall_empty.
  split; [by split|].
  exact (X16_single_bonus_without_idtoken "mock" cs empty_state H1 H2).
Defined.

(** ** Status and enforcement *)

(** X17: the status answer predicts the next decision. For a signed-in
    user, a generation request made at the same instant on the same state
    is let through exactly when the status shows a verified account with
    a positive balance, or fewer uses in the last 24 hours than the daily
    limit. *)
Theorem X17_status_predicts_decision env cenv sub cookie s uid u :
  get_current_user sub s = Some (uid, u) →
  e_now_count env = c_now_count cenv →
  ∃ summary,
    credits_route cenv sub cookie s = (s, Some summary) ∧
    ((verified summary && (0 <? default 0 (s_free_credits summary))
      || (s_used_last_24h summary <? daily_limit summary)) = true
     ↔ ∃ b, (enforce_credits env (get_current_user sub s) cookie s).2
            = Allowed b (WhoUser uid)).
Proof.
  intros Hcur Hnow.
  destruct (get_current_user_Some _ _ _ _ Hcur) as [Hne Hu].
  unfold credits_route. rewrite Hcur, Hu. eexists. split; [done|]. cbn.
  rewrite count_last_24h_user by done. rewrite <- Hnow.
  destruct (is_verified u) eqn:Hv; cbn;
    [destruct (Z.ltb_spec 0 (free_credits u)) as [Hpos|Hzero]; cbn|].
  - rewrite (enforce_prepaid env cookie s uid u u) by done. cbn. split; eauto.
  - rewrite (enforce_window env cookie s uid u u) by auto.
    destruct (Z.ltb_spec (used_in_window (e_now_count env) uid s) DAILY_FREE_LIMIT),
             (Z.leb_spec DAILY_FREE_LIMIT (used_in_window (e_now_count env) uid s));
      try lia; cbn; split; eauto; try done.
    by intros [b ?].
  - rewrite (enforce_window env cookie s uid u u) by auto.
    destruct (Z.ltb_spec (used_in_window (e_now_count env) uid s) DAILY_FREE_LIMIT),
             (Z.leb_spec DAILY_FREE_LIMIT (used_in_window (e_now_count env) uid s));
      try lia; cbn; split; eauto; try done.
    by intros [b ?].
Qed.

Lemma X17_status_predicts_decision_witness :
  let s := state_with alice [noon - hour; noon - 2 * hour] in
  (get_current_user (Some 1) s = Some (1, alice)) ∧
  ∃ summary,
    credits_route (credits_env_at noon) (Some 1) None s = (s, Some summary) ∧
    ((verified summary && (0 <? default 0 (s_free_credits summary))
      || (s_used_last_24h summary <? daily_limit summary)) = true
     ↔ ∃ b, (enforce_credits (env_at noon) (get_current_user (Some 1) s) None s).2
            = Allowed b (WhoUser 1)).
Proof.
  intros s. split; [reflexivity|].
  exact (X17_status_predicts_decision (env_at noon) (credits_env_at noon)
           (Some 1) None s 1 alice eq_refl eq_refl).
Defined.

(** X18: the same for a guest: after a status query with a guest
    cookie, the next generation request with that cookie is let through
    exactly when the status showed a positive [guest_credits]. *)
Theorem X18_guest_status_predicts_decision env cenv gid s :
  nonempty gid = true →
  ∃ summary,
    (credits_route cenv None (Some gid) s).2 = Some summary ∧
    (0 < default 0 (guest_credits summary)
     ↔ (enforce_credits env None (Some gid)
          (credits_route cenv None (Some gid) s).1).2
       = Allowed GuestCredit (WhoGuest gid)).
Proof.
  intros Hgid. unfold credits_route. cbn [get_current_user].
  unfold get_or_create_guest, resolve_gid. rewrite Hgid.
  destruct (guests s !! gid) as [g|] eqn:Hg; cbn; eexists; (split; [done|]); cbn.
  - destruct (Z.lt_ge_cases 0 (credits g)) as [Hpos|Hzero].
    + rewrite (enforce_guest_debit env _ gid (with_last_seen (c_now_seen cenv) g))
        by (cbn; rewrite ?lookup_insert_eq; done).
      by split.
    + rewrite (enforce_guest_exhausted env _ gid (with_last_seen (c_now_seen cenv) g))
        by (cbn; rewrite ?lookup_insert_eq; done || lia).
      cbn. split; [lia|done].
  - rewrite (enforce_guest_debit env _ gid
               (mkGuest 2 (c_now_seen cenv) (c_now_seen cenv)))
      by (cbn; rewrite ?lookup_insert_eq; done || lia).
    by split.
Qed.

Lemma X18_guest_status_predicts_decision_witness :
  let s := set_guests {[ "g" := mkGuest 0 0 0 ]} empty_state in
  nonempty "g" = true ∧
  ∃ summary,
    (credits_route (credits_env_at noon) None (Some "g") s).2 = Some summary ∧
    (0 < default 0 (guest_credits summary)
     ↔ (enforce_credits (env_at noon) None (Some "g")
          (credits_route (credits_env_at noon) None (Some "g") s).1).2
       = Allowed GuestCredit (WhoGuest "g")).
Proof.
  intros s. split; [done|].
  exact (X18_guest_status_predicts_decision (env_at noon) (credits_env_at noon)
           "g" s eq_refl).
Defined.

(** X19: the guest id is whatever the client sends. A non-empty cookie
    value that names no guest row is enrolled on the spot with 2 credits,
    of which the request consumes one; the [uuid4] draw is not used, and
    the balances of the existing guests play no part. *)
Theorem X19_unknown_cookie_enrolled env c s :
  nonempty c = true → guests s !! c = None →
  enforce_credits env None (Some c) s
  = (set_guests (<[c := mkGuest 1 (e_now_seen env) (e_now_seen env)]> (guests s)) s,
     Allowed GuestCredit (WhoGuest c)).
Proof.
  intros Hc Hg. unfold enforce_credits, get_or_create_guest, resolve_gid.
  rewrite Hc, Hg. cbn. rewrite lookup_insert_eq. cbn.
  unfold set_guests; cbn. by rewrite insert_insert_eq.
Qed.

Lemma X19_unknown_cookie_enrolled_witness :
  let s := set_guests {[ "g" := mkGuest 0 0 0 ]} empty_state in
  (nonempty "fresh" = true ∧ guests s !! "fresh" = None) ∧
  (enforce_credits (env_at noon) None (Some "g") s).2 = GuestCreditsExhausted "register" ∧
  enforce_credits (env_at noon) None (Some "fresh") s
  = (set_guests (<["fresh" := mkGuest 1 noon noon]> (guests s)) s,
     Allowed GuestCredit (WhoGuest "fresh")).
Proof.
  intros s. split; [by split|]. split; [reflexivity|].
  exact (X19_unknown_cookie_enrolled (env_at noon) "fresh" s eq_refl eq_refl).
Defined.

(** ** Stored files *)

Lemma style_image_upload_lookup P env req s :
  valid_image req → writable_name (safe_name_of env req) = true →
  ∃ data, uploads (style_image P env req s).1 !! safe_name_of env req = Some data ∧
          (data = contents req ∨ (P = "stability" ∧ e_provider env = inr data)).
Proof.
  intros Hvalid Hw. rewrite (style_image_valid _ _ _ _ Hvalid Hw).
  pose proof (enforce_frame env (get_current_user (auth_sub req) s)
                (guest_cookie req) (store_upload env req s)) as (Hup & _).
  assert (Hstored : uploads (store_upload env req s) !! safe_name_of env req
                    = Some (contents req)) by (cbn; apply lookup_insert_eq).
  destruct (enforce_credits _ _ _ _) as [s1 d]. cbv beta iota delta [fst] in Hup.
  rewrite <- Hup in Hstored.
  destruct d as [b who| | |]; cbn; eauto.
  unfold generate.
  destruct (String.eqb_spec P "mock");
    [cbn; rewrite (proj2 (proj2 (log_identity_frame _ _ _))); eauto|].
  destruct (String.eqb_spec P "stability"); [|cbn; eauto].
  destruct (e_provider env) as [err|png] eqn:Hprov; cbn;
    rewrite (proj2 (proj2 (log_identity_frame _ _ _))); [eauto|].
  cbn. rewrite lookup_insert. case_decide; eauto.
Qed.



(** X21: an upload that is written replaces whatever was stored under
    its name. The name is the second of arrival followed by the client's
    file name with blanks turned into underscores, so two requests
    arriving in the same second with such names share one file: after a
    second request whose image is valid and whose name can be written,
    the name holds the second upload (or the image the provider returned
    for it), whoever sent the first and whatever became of it. *)
Theorem X21_same_name_upload_replaced P env1 env2 req1 req2 s :
  valid_image req2 →
  writable_name (safe_name_of env2 req2) = true →
  safe_name_of env1 req1 = safe_name_of env2 req2 →
  ∃ data,
    uploads (style_image P env2 req2 (style_image P env1 req1 s).1).1
      !! safe_name_of env1 req1 = Some data ∧
    (data = contents req2 ∨ (P = "stability" ∧ e_provider env2 = inr data)).
Proof.
  intros Hvalid Hw ->. by apply style_image_upload_lookup.
Qed.

Lemma X21_same_name_upload_replaced_witness :
  let req1 := mkStyleRequest (Some 1) None (Some "image/png") "my room.png"
                ["a"%byte] "" "" "http://x" in
  let req2 := mkStyleRequest None None (Some "image/jpeg") "my_room.png"
                ["b"%byte] "" "" "http://x" in
  let s := state_with alice [] in
  (valid_image req2 ∧
   writable_name (safe_name_of (env_at noon) req2) = true ∧
   safe_name_of (env_at noon) req1 = safe_name_of (env_at noon) req2 ∧
   uploads (style_image "mock" (env_at noon) req1 s).1 !! "1700000000_my_room.png"
   = Some ["a"%byte]) ∧
  uploads (style_image "mock" (env_at noon) req2
             (style_image "mock" (env_at noon) req1 s).1).1
    !! "1700000000_my_room.png" = Some ["b"%byte].
Proof.
  intros req1 req2 s.
  assert (Hv : valid_image req2) by (split; [reflexivity|vm_compute; congruence]).
  assert (Hn : safe_name_of (env_at noon) req1 = safe_name_of (env_at noon) req2)
    by reflexivity.
  split; [split; [exact Hv|split; [reflexivity|split; [exact Hn|reflexivity]]]|].
  destruct (X21_same_name_upload_replaced "mock" (env_at noon) (env_at noon)
              req1 req2 s Hv eq_refl Hn) as (data & Hlook & [-> | [Hp _]]).
  - exact Hlook.
  - discriminate Hp.
Defined.



(** X22: a failed provider call is accounted like a mock generation:
    with [AI_PROVIDER = stability] and a provider call that raises, the
    resulting state (debit, usage event, stored upload) is the one mock
    mode produces, and a 200 answer is the [error_fallback] payload that
    points back at the uploaded file and carries the error text. *)
Theorem X22_provider_failure_accounted_like_mock env req s e :
  e_provider env = inl e →
  (style_image "stability" env req s).1 = (style_image "mock" env req s).1 ∧
  (is_200 (style_image "stability" env req s).2
   = is_200 (style_image "mock" env req s).2) ∧
  ∀ payload, (style_image "stability" env req s).2 = Json200 payload →
    predictionId payload = "error_fallback" ∧
    p_filename payload = safe_name_of env req ∧
    note payload = Some ("Generation error: " ++ e).
Proof.
  intros Hprov. unfold style_image.
  destruct (negb (String.prefix _ _)); [by split; [|split; [|intros ? [=]]]|].
  destruct (max_upload_bytes <? _); [by split; [|split; [|intros ? [=]]]|].
  destruct (negb (writable_name _)); [by split; [|split; [|intros ? [=]]]|].
  destruct (enforce_credits _ _ _ _) as [s1 d].
  destruct d as [b who| | |]; try (by split; [|split; [|intros ? [=]]]).
  unfold generate. cbn. rewrite Hprov. cbn. split; [done|]. split; [done|].
  by intros payload [= <-].
Qed.

Lemma X22_provider_failure_accounted_like_mock_witness :
  let r := style_image "stability" (env_at noon) (png_upload None None) empty_state in
  e_provider (env_at noon) = inl "timeout" ∧
  r.1 = (style_image "mock" (env_at noon) (png_upload None None) empty_state).1 ∧
  credits <$> guests r.1 !! e_uuid (env_at noon) = Some 1 ∧
  length (generation_logs r.1) = 1%nat.
Proof.
  intros r. split; [reflexivity|].
  split; [|split; reflexivity].
  exact (proj1 (X22_provider_failure_accounted_like_mock (env_at noon)
                  (png_upload None None) empty_state "timeout" eq_refl)).
Defined.

(** ** Prompt planning *)

Lemma prefix_app (a b : string) : String.prefix a (a ++ b) = true.
Proof.
  induction a as [|c a IH]; simpl; [by destruct b|].
  destruct (ascii_dec c c); [exact IH|congruence].
Qed.

(** X23: the prompt sent to the provider. Whatever the style and the
    instructions, the positive prompt starts with the instruction to keep
    the room layout and camera angle, with 28 steps and a guidance of 7.0.
    Instructions that are not blank take precedence over the style (they
    are used stripped, with strength 0.55); blank instructions fall back
    to the style (strength 0.6), and a style that is not one of the four
    known names is treated as [minimal]. *)
Theorem X23_prompt_plan (st instr : string) :
  String.prefix layout_prefix (positive (prompt_for st instr)) = true ∧
  steps (prompt_for st instr) = 28 ∧
  cfg_scale (prompt_for st instr) = "7.0" ∧
  (nonempty (strip instr) = true →
     positive (prompt_for st instr) = layout_prefix ++ strip instr ∧
     image_strength (prompt_for st instr) = "0.55" ∧
     ∀ st', prompt_for st' instr = prompt_for st instr) ∧
  (nonempty (strip instr) = false →
     prompt_for st instr = build_prompt_from_style st ∧
     image_strength (prompt_for st instr) = "0.6") ∧
  (STYLE_PROMPTS !! st = None →
     build_prompt_from_style st = build_prompt_from_style "minimal").
Proof.
  unfold prompt_for, plan_from_instructions.
  destruct (nonempty (strip instr)) eqn:Hi; cbn [positive steps cfg_scale image_strength].
  - split; [apply prefix_app|]. do 2 (split; [done|]).
    split; [done|]. split; [done|].
    intros Hst. unfold build_prompt_from_style.
    destruct st; [done|]. cbn [nonempty]. by rewrite Hst.
  - unfold build_prompt_from_style at 1 2 3.
    cbn [positive steps cfg_scale image_strength].
    split; [apply prefix_app|]. do 2 (split; [done|]).
    split; [done|]. split; [done|].
    intros Hst. unfold build_prompt_from_style.
    destruct st; [done|]. cbn [nonempty]. by rewrite Hst.
Qed.

Lemma X23_prompt_plan_witness :
  STYLE_PROMPTS !! "baroque" = None ∧
  build_prompt_from_style "baroque" = build_prompt_from_style "minimal" ∧
  positive (prompt_for "cozy" "  light grey walls ")
  = layout_prefix ++ "light grey walls".
Proof.
  split; [reflexivity|]. split.
  - exact (proj2 (proj2 (proj2 (proj2 (proj2 (X23_prompt_plan "baroque" "")))))
             eq_refl).
  - exact (proj1 (proj1 (proj2 (proj2 (proj2
             (X23_prompt_plan "cozy" "  light grey walls ")))) eq_refl)).
Defined.

(** ** Isolation between identities *)

Lemma filter_app_none {A} (P : A → Prop) `{!∀ x, Decision (P x)} (l rows : list A) :
  Forall (λ r, ¬ P r) rows → filter P (l ++ rows)%list = filter P l.
Proof.
  intros Hrows. by rewrite filter_app, (filter_nil_Forall P rows), app_nil_r.
Qed.

(** X24: the usage of other identities never counts against a user:
    appending to the log any events that do not carry the user's id
    (events of other users, events of guests) leaves the verdict of the
    enforcement block for that user unchanged. *)
Theorem X24_foreign_usage_not_counted env sub cookie s uid u rows :
  get_current_user sub s = Some (uid, u) →
  Forall (λ r, user_id r ≠ Some uid) rows →
  (enforce_credits env (get_current_user sub s) cookie
     (set_generation_logs (generation_logs s ++ rows)%list s)).2
  = (enforce_credits env (get_current_user sub s) cookie s).2.
Proof.
  intros Hcur Hrows.
  destruct (get_current_user_Some _ _ _ _ Hcur) as [Hne Hu].
  rewrite Hcur.
  set (s' := set_generation_logs (generation_logs s ++ rows) s).
  assert (Hwin : ∀ now, user_window now uid s' = user_window now uid s).
  { intros now. unfold user_window. cbn. apply filter_app_none.
    eapply Forall_impl; [exact Hrows|]. intros r Hr [? _]. by apply Hr. }
  assert (Hused : ∀ now, used_in_window now uid s' = used_in_window now uid s).
  { intros now. unfold used_in_window. by rewrite Hwin. }
  assert (Hna : ∀ tz now, next_available_ts tz now uid s' = next_available_ts tz now uid s).
  { intros tz now. unfold next_available_ts, window_logs, since_24h.
    fold (user_window now uid s') (user_window now uid s). by rewrite Hwin. }
  destruct (is_verified u && (0 <? free_credits u)) eqn:Hpre.
  - apply andb_true_iff in Hpre as [Hv Hc]. apply Z.ltb_lt in Hc.
    by rewrite (enforce_prepaid env cookie s' uid u u),
               (enforce_prepaid env cookie s uid u u).
  - assert (Hcase : is_verified u = false ∨ free_credits u ≤ 0).
    { apply andb_false_iff in Hpre as [?|Hc]; [by left|right].
      by apply Z.ltb_ge in Hc. }
    rewrite (enforce_window env cookie s' uid u u),
            (enforce_window env cookie s uid u u) by done.
    rewrite Hused, Hna. by destruct (DAILY_FREE_LIMIT <=? _).
Qed.

Lemma X24_foreign_usage_not_counted_witness :
  let s := state_with alice [noon - hour] in
  let rows := [ mkGenerationLog 7 (Some 2) None (noon - 60);
                mkGenerationLog 8 None (Some "g") (noon - 30);
                mkGenerationLog 9 (Some 2) None (noon - 10) ] in
  (get_current_user (Some 1) s = Some (1, alice) ∧
   Forall (λ r, user_id r ≠ Some 1) rows) ∧
  (enforce_credits (env_at noon) (get_current_user (Some 1) s) None
     (set_generation_logs (generation_logs s ++ rows) s)).2
  = Allowed DailyQuota (WhoUser 1).
Proof.
  intros s rows.
  assert (H1 : get_current_user (Some 1) s = Some (1, alice)) by reflexivity.
  assert (H2 : Forall (λ r, user_id r ≠ Some 1) rows) by (repeat constructor; done).
  split; [by split|].
  rewrite (X24_foreign_usage_not_counted (env_at noon) (Some 1) None s 1 alice
             rows H1 H2).
  reflexivity.
Defined.

(** X25: the session decides the identity. A generation request that
    carries a valid session never creates, touches or debits a guest,
    whatever guest cookie comes with it; a request without a valid session
    never changes a user row. *)
Theorem X25_session_takes_precedence P env req s :
  (is_Some (get_current_user (auth_sub req) s) →
     guests (style_image P env req s).1 = guests s)
  ∧ (get_current_user (auth_sub req) s = None →
     users (style_image P env req s).1 = users s).
Proof.
  split.
  - intros [[uid u0] Hcur].
    destruct (style_image_guests P env req s) as [-> | ->]; [|done].
    rewrite Hcur. unfold enforce_credits.
    destruct (users _ !! uid) as [u|]; [|done].
    destruct (is_verified u && (0 <? free_credits u)); [done|].
    by destruct (DAILY_FREE_LIMIT <=? _).
  - intros Hcur.
    destruct (style_image_users P env req s) as [-> | ->]; [|done].
    rewrite Hcur. unfold enforce_credits, get_or_create_guest.
    destruct (guests _ !! _) as [g|]; cbn; rewrite lookup_insert_eq; cbn; [|done].
    by destruct (credits g <=? 0).
Qed.

Lemma X25_session_takes_precedence_witness :
  let s := set_guests {[ "g" := mkGuest 2 0 0 ]}
             (state_with (mkUser "a@b.c" "h" true 1 true 0 None) []) in
  let r := style_image "mock" (env_at noon) (png_upload (Some 1) (Some "g")) s in
  is_Some (get_current_user (Some 1) s) ∧
  guests r.1 = guests s ∧
  free_credits <$> users r.1 !! 1 = Some 0.
Proof.
  intros s r.
  assert (H : is_Some (get_current_user (Some 1) s)) by (by eexists).
  split; [exact H|]. split; [|reflexivity].
  exact (proj1 (X25_session_takes_precedence "mock" (env_at noon)
                  (png_upload (Some 1) (Some "g")) s) H).
Defined.
